(** * NBA statistics collector: a shallow embedding of the scraping pipeline

    The Python sources under [data collector/] fetch pages of a sports
    reference site, locate tables in the parsed markup, turn table rows into
    typed records and store them in an SQLite file.  This development embeds
    the row extractors, the field coercions, the URL allocator and the
    store-facing drivers as Rocq functions and proves (or refutes) the
    properties the specification states about them.

    Conventions of the embedding:
    - Python [str] values are [string]s (ASCII text); whitespace is Python's
      ASCII whitespace.
    - A BeautifulSoup tree is the inductive [node]; [find]/[find_all] walk the
      descendants in document order.
    - Python exceptions are the [Raise] branch of [result].
    - [requests.get], the HTML parser and [float()] on non-empty text are
      external to the repository; they are the fields of a [world].
    - A database table is the list of its rows in insertion order. *)

From Stdlib Require Import ZArith String Ascii List Bool Lia Floats.
From stdpp Require Import base option list gmap strings.

Local Open Scope string_scope.
Local Open Scope Z_scope.
Set Warnings "-register-all".

(** ** Python exceptions *)

Inductive exn := ValueError | AttributeError | IndexError | IntegrityError | OverflowError.

Inductive result (A : Type) :=
| Ok (a : A)
| Raise (e : exn).
Arguments Ok {A} a.
Arguments Raise {A} e.

#[global] Instance result_ret : MRet result := fun A a => Ok a.
#[global] Instance result_bind : MBind result :=
  fun A B f m => match m with Ok a => f a | Raise e => Raise e end.

#[global] Instance result_fmap : FMap result :=
  fun A B f m => match m with Ok a => Ok (f a) | Raise e => Raise e end.

Lemma bind_Ok_inv {A B} (m : result A) (f : A -> result B) (b : B) :
  m ≫= f = Ok b -> exists a, m = Ok a /\ f a = Ok b.
Proof. destruct m as [a|e]; simpl; intros H; [eauto | discriminate]. Qed.

(** Peels every bind off a hypothesis [m >>= f = Ok b]. *)
Ltac invert_binds H :=
  repeat (apply bind_Ok_inv in H; destruct H as (? & ? & H)).

(** ** Python string operations *)

Module PyStr.

(** [c.isspace()] on an ASCII character *)
Definition is_space (c : ascii) : bool :=
  let n := nat_of_ascii c in
  ((9 <=? n) && (n <=? 13) || (28 <=? n) && (n <=? 32))%nat.

Definition is_empty (s : string) : bool :=
  match s with EmptyString => true | String _ _ => false end.

(** [not l] for a list *)
Definition is_nil {A} (l : list A) : bool :=
  match l with [] => true | _ :: _ => false end.


(** Leading and trailing characters that satisfy [sp] removed. *)
Fixpoint lstrip_with (sp : ascii -> bool) (s : string) : string :=
  match s with
  | String c s' => if sp c then lstrip_with sp s' else s
  | EmptyString => EmptyString
  end.

Fixpoint rstrip_with (sp : ascii -> bool) (s : string) : string :=
  match s with
  | String c s' =>
      let r := rstrip_with sp s' in
      if sp c && is_empty r then EmptyString else String c r
  | EmptyString => EmptyString
  end.

(** [s.strip()], for the blanks below 128 *)
Definition strip (s : string) : string := rstrip_with is_space (lstrip_with is_space s).

(** [s.split()]: the maximal runs of non-whitespace characters. *)
Fixpoint split_from (cur : string) (s : string) : list string :=
  match s with
  | EmptyString => if is_empty cur then [] else [cur]
  | String c s' =>
      if is_space c
      then (if is_empty cur then split_from "" s' else cur :: split_from "" s')
      else split_from (cur ++ String c "") s'
  end.

Definition split (s : string) : list string := split_from "" s.

Definition lower_char (c : ascii) : ascii :=
  let n := nat_of_ascii c in
  if ((65 <=? n) && (n <=? 90))%nat then ascii_of_nat (n + 32) else c.

Definition upper_char (c : ascii) : ascii :=
  let n := nat_of_ascii c in
  if ((97 <=? n) && (n <=? 122))%nat then ascii_of_nat (n - 32) else c.

(** [s.lower()]: the letters A to Z; no other character below 128 has a
    lowercase form. *)
Fixpoint lower (s : string) : string :=
  match s with
  | String c s' => String (lower_char c) (lower s')
  | EmptyString => EmptyString
  end.

(** [s.capitalize()] *)
Definition capitalize (s : string) : string :=
  match s with
  | String c s' => String (upper_char c) (lower s')
  | EmptyString => EmptyString
  end.

(** [s[:n]], one [ascii] per character *)
Fixpoint take (n : nat) (s : string) : string :=
  match n, s with
  | S n', String c s' => String c (take n' s')
  | _, _ => EmptyString
  end.

Definition startswith (s p : string) : bool := String.prefix p s.

Fixpoint rev (s : string) : string :=
  match s with
  | String c s' => rev s' ++ String c ""
  | EmptyString => EmptyString
  end.

Definition endswith (s p : string) : bool := String.prefix (rev p) (rev s).

(** [p in s] for two strings *)
Fixpoint contains (p s : string) : bool :=
  String.prefix p s ||
  match s with
  | String _ s' => contains p s'
  | EmptyString => false
  end.

(** [s.replace(old, new)] for a non-empty [old]: occurrences are replaced
    left to right without overlap; [skip] counts the characters of a
    matched occurrence still to be dropped. *)
Fixpoint replace_from (skip : nat) (old new s : string) : string :=
  match s with
  | EmptyString => EmptyString
  | String c s' =>
      match skip with
      | S k => replace_from k old new s'
      | O =>
          if String.prefix old s
          then new ++ replace_from (Nat.pred (String.length old)) old new s'
          else String c (replace_from O old new s')
      end
  end.

Definition replace (s old new : string) : string := replace_from O old new s.

Definition digit_val (c : ascii) : option Z :=
  let n := nat_of_ascii c in
  if ((48 <=? n) && (n <=? 57))%nat then Some (Z.of_nat (n - 48)) else None.

(** Decimal digits, single underscores allowed between two digits. *)
Fixpoint int_digits (acc : Z) (after_digit : bool) (s : string) : option Z :=
  match s with
  | EmptyString => if after_digit then Some acc else None
  | String c s' =>
      if Ascii.eqb c "_"
      then (if after_digit then int_digits acc false s' else None)
      else match digit_val c with
           | Some d => int_digits (10 * acc + d) true s'
           | None => None
           end
  end.

(** The blanks [int] skips around the digits: those of C's [isspace]. *)
Definition is_c_space (c : ascii) : bool :=
  let n := nat_of_ascii c in
  ((9 <=? n) && (n <=? 13) || (n =? 32))%nat.

(** [int(s)] on a string; [None] stands for [ValueError]. *)
Definition int_of_str (s : string) : option Z :=
  match rstrip_with is_c_space (lstrip_with is_c_space s) with
  | String "+" r => int_digits 0 false r
  | String "-" r => Z.opp <$> int_digits 0 false r
  | r => int_digits 0 false r
  end.

Definition digit_char (n : nat) : ascii := ascii_of_nat (48 + n mod 10).

Fixpoint decimal_from (fuel n : nat) (acc : string) : string :=
  match fuel with
  | O => acc
  | S f =>
      let acc' := String (digit_char n) acc in
      if (n <? 10)%nat then acc' else decimal_from f (n / 10) acc'
  end.

(** [str(n)] for a natural number *)
Definition decimal (n : nat) : string := decimal_from (S n) n "".

(** [f"{n:02d}"] *)
Definition format_02d (n : nat) : string :=
  let d := decimal n in
  if (String.length d <? 2)%nat then "0" ++ d else d.

Lemma length_app (a b : string) :
  String.length (a ++ b) = (String.length a + String.length b)%nat.
Proof. induction a as [|c a IH]; simpl; [reflexivity | now rewrite IH]. Qed.




Example strip_ex : strip "  Team Totals " = "Team Totals".
Proof. reflexivity. Qed.
Example split_ex : split " LeBron  Raymone James " = ["LeBron"; "Raymone"; "James"].
Proof. reflexivity. Qed.
Example contains_ex : contains "Totals" "Team Totals" = true.
Proof. reflexivity. Qed.
Example replace_ex :
  replace "New York Knicks Basic and Advanced Stats" " Basic and Advanced Stats" ""
  = "New York Knicks".
Proof. reflexivity. Qed.
Example int_ex : int_of_str "132" = Some 132 /\ int_of_str "-7" = Some (-7)
                 /\ int_of_str "1_0" = Some 10 /\ int_of_str "12.5" = None
                 /\ int_of_str "" = None.
Proof. repeat split; reflexivity. Qed.
Example format_ex : format_02d 7 = "07" /\ format_02d 42 = "42" /\ format_02d 100 = "100".
Proof. repeat split; reflexivity. Qed.
Example endswith_ex : endswith "box-BOS-game-basic" "-game-basic" = true.
Proof. reflexivity. Qed.
Example capitalize_ex : capitalize "october" = "October".
Proof. reflexivity. Qed.

End PyStr.

(** ** The parsed document (BeautifulSoup tree) *)

Module Soup.

(** An attribute value is a string, or a list of tokens for the
    multi-valued attributes ([class]). *)
Inductive attr_value :=
| AStr (s : string)
| AList (l : list string).

Inductive node :=
| Text (s : string)
| Comment (s : string)
| Elem (name : string) (attrs : list (string * attr_value)) (contents : list node).

(** [tag.attrs.get(k)] *)
Fixpoint get_attr (k : string) (attrs : list (string * attr_value)) : option attr_value :=
  match attrs with
  | [] => None
  | (k', v) :: rest => if String.eqb k k' then Some v else get_attr k rest
  end.

Definition attrs_of (n : node) : list (string * attr_value) :=
  match n with Elem _ a _ => a | _ => [] end.

Definition is_elem (n : node) : bool :=
  match n with Elem _ _ _ => true | _ => false end.

(** All nodes below [n], in document order. *)
Fixpoint descendants (n : node) : list node :=
  match n with
  | Elem _ _ cs =>
      (fix walk (l : list node) : list node :=
         match l with
         | [] => []
         | c :: l' => c :: descendants c ++ walk l'
         end) cs
  | _ => []
  end.

Definition descendants_list (l : list node) : list node :=
  flat_map (fun c => c :: descendants c) l.

Lemma descendants_Elem name attrs cs :
  descendants (Elem name attrs cs) = descendants_list cs.
Proof.
  unfold descendants_list. simpl.
  induction cs as [|c cs IH]; simpl; [reflexivity|]. now rewrite IH.
Qed.

(** [tag.find_all(...)] and [tag.find(...)] with the match test [p]. *)
Definition find_all (p : node -> bool) (n : node) : list node :=
  List.filter p (descendants n).

Definition find (p : node -> bool) (n : node) : option node :=
  List.find p (descendants n).

(** The name test of [find("tbody")], [find_all(["th", "td"])]. *)
Definition named (names : list string) (n : node) : bool :=
  match n with
  | Elem name _ _ => existsb (String.eqb name) names
  | _ => false
  end.

(** How the search compares an attribute value with a wanted string: a
    string value must be equal; a token list matches when one token is
    equal or the tokens joined by spaces are. *)
Definition join_tokens (l : list string) : string :=
  match l with
  | [] => ""
  | t :: ts => fold_left (fun acc x => acc ++ " " ++ x) ts t
  end.

Definition value_matches (want : string) (v : attr_value) : bool :=
  match v with
  | AStr s => String.eqb s want
  | AList l => existsb (fun t => String.eqb t want) l || String.eqb (join_tokens l) want
  end.

(** [attrs={k: want}] *)
Definition has_attr (k want : string) (n : node) : bool :=
  match n with
  | Elem _ attrs _ =>
      match get_attr k attrs with
      | Some v => value_matches want v
      | None => false
      end
  | _ => false
  end.

(** [find("table", id=...)] *)
Definition named_with_id (name id : string) (n : node) : bool :=
  named [name] n && has_attr "id" id n.

(** ['cls' in row.attrs and cls in row['class']] *)
Definition has_class (cls : string) (n : node) : bool :=
  match get_attr "class" (attrs_of n) with
  | Some (AList l) => existsb (String.eqb cls) l
  | Some (AStr s) => PyStr.contains cls s
  | None => false
  end.

(** The filter [class_=lambda x: x != cls]: the function is tried on each
    token of the class list, then on the joined list; a tag without the
    attribute passes ([None != cls]). *)
Definition class_differs (cls : string) (n : node) : bool :=
  match get_attr "class" (attrs_of n) with
  | Some (AList l) =>
      existsb (fun t => negb (String.eqb t cls)) l
      || negb (String.eqb (join_tokens l) cls)
  | Some (AStr s) => negb (String.eqb s cls)
  | None => true
  end.

(** The strings [get_text(strip=True)] joins: the text nodes below [n],
    each stripped, the empty ones dropped.  Comments are not text. *)
Definition stripped_text (n : node) : option string :=
  match n with
  | Text s => let t := PyStr.strip s in
              if PyStr.is_empty t then None else Some t
  | _ => None
  end.

Definition get_text (n : node) : string :=
  fold_right String.append "" (omap stripped_text (descendants n)).

(** [find_all(string=lambda text: isinstance(text, Comment))] *)
Definition comment_text (n : node) : option string :=
  match n with Comment s => Some s | _ => None end.

Definition comments (n : node) : list string :=
  omap comment_text (descendants n).

(** [tag.get(k, default)] for a string-valued attribute *)
Definition get_str (k default : string) (n : node) : string :=
  match get_attr k (attrs_of n) with
  | Some (AStr s) => s
  | Some (AList l) => join_tokens l
  | None => default
  end.

(** Induction over a tree whose children sit in a list. *)
Fixpoint node_forest_ind (P : node -> Prop)
    (HText : forall s, P (Text s))
    (HComment : forall s, P (Comment s))
    (HElem : forall name attrs cs, Forall P cs -> P (Elem name attrs cs))
    (n : node) : P n :=
  match n with
  | Text s => HText s
  | Comment s => HComment s
  | Elem name attrs cs =>
      HElem name attrs cs
        ((fix all (l : list node) : Forall P l :=
            match l with
            | [] => @List.Forall_nil node P
            | c :: l' =>
                @List.Forall_cons node P c l'
                  (node_forest_ind P HText HComment HElem c) (all l')
            end) cs)
  end.

Lemma descendants_list_app l1 l2 :
  descendants_list (l1 ++ l2) = (descendants_list l1 ++ descendants_list l2)%list.
Proof. unfold descendants_list. apply flat_map_app. Qed.

(** A test on tags that looks at the name and the attributes only. *)
Definition tag_test (p : node -> bool) : Prop :=
  (forall s, p (Text s) = false)
  /\ (forall s, p (Comment s) = false)
  /\ (forall name attrs cs cs', p (Elem name attrs cs) = p (Elem name attrs cs')).

Lemma named_with_id_tag_test name id : tag_test (named_with_id name id).
Proof. repeat split. Qed.

(** Builders for the examples. *)
Definition el (name : string) (attrs : list (string * string)) (cs : list node) : node :=
  Elem name (List.map (fun kv => (fst kv, AStr (snd kv))) attrs) cs.

Definition td (stat text : string) : node :=
  el "td" [("data-stat", stat)] [Text text].

Definition tr_class (cls : list string) (cs : list node) : node :=
  Elem "tr" [("class", AList cls)] cs.

End Soup.

(** ** Python numbers and the externals *)

(** A numeric dict value: the box-score fields hold an [int] or a [float]. *)
Inductive pynum :=
| PInt (z : Z)
| PFloat (f : float).

(** Exact comparison of a float with an integer, as Python's [==] does it. *)
Definition float_eq_Z (f : float) (z : Z) : bool :=
  match Prim2SF f with
  | S754_zero _ => z =? 0
  | S754_finite s m e =>
      let v := if s then Z.neg m else Z.pos m in
      if 0 <=? e then v * 2 ^ e =? z else v =? z * 2 ^ (- e)
  | _ => false
  end.

(** Python's [a == b] on numbers. *)
Definition py_eq (a b : pynum) : bool :=
  match a, b with
  | PInt x, PInt y => x =? y
  | PFloat x, PFloat y => PrimFloat.eqb x y
  | PInt x, PFloat y => float_eq_Z y x
  | PFloat x, PInt y => float_eq_Z x y
  end.

(** The value SQLite keeps when a number is written to a REAL column. *)
Definition real_affinity (v : pynum) : float :=
  match v with
  | PInt z => SF2Prim (binary_normalize prec emax z 0 false)
  | PFloat f => f
  end.

(** An integer that can be bound to a statement: SQLite integers have 64
    bits, and binding a Python [int] outside them raises OverflowError. *)
Definition fits_int64 (z : Z) : bool := (- 2 ^ 63 <=? z) && (z <? 2 ^ 63).

Definition bindable_num (v : pynum) : bool :=
  match v with
  | PInt z => fits_int64 z
  | PFloat _ => true
  end.

(** What the repository does not define: the transport, the HTML parser and
    Python's [float] on text. [http_get] is [None] when the request raises. *)
Record world := {
  http_get : string -> option string;
  html_parser : string -> Soup.node;
  float_of_str : string -> option float
}.

Section Coercion.
Variable w : world.

(** [int(text or 0)] *)
Definition int_or_zero (text : string) : result Z :=
  if PyStr.is_empty text then Ok 0
  else match PyStr.int_of_str text with
       | Some z => Ok z
       | None => Raise ValueError
       end.

(** [float(text or 0)] *)
Definition float_or_zero (text : string) : result float :=
  if PyStr.is_empty text then Ok 0%float
  else match float_of_str w text with
       | Some f => Ok f
       | None => Raise ValueError
       end.

(** [row.find(attrs={"data-stat": stat})] *)
Definition stat_cell (row : Soup.node) (stat : string) : option Soup.node :=
  Soup.find (Soup.has_attr "data-stat" stat) row.

(** [int(cell.get_text(strip=True) or 0) if cell else 0] *)
Definition int_stat (row : Soup.node) (stat : string) : result Z :=
  match stat_cell row stat with
  | Some cell => int_or_zero (Soup.get_text cell)
  | None => Ok 0
  end.

(** [float(cell.get_text(strip=True) or 0) if cell else 0] *)
Definition float_stat (row : Soup.node) (stat : string) : result pynum :=
  match stat_cell row stat with
  | Some cell => PFloat <$> float_or_zero (Soup.get_text cell)
  | None => Ok (PInt 0)
  end.

(** [cell.get_text(strip=True) if cell else None] *)
Definition text_stat (row : Soup.node) (stat : string) : option string :=
  Soup.get_text <$> stat_cell row stat.

End Coercion.

(** ** Basic box scores ([boxscorescraper.py]) *)

Module BoxScore.

(** The row dict of [parse_box_score_table], one field per key. *)
Record box_row := {
  box_score_link : string;
  team : string;
  player_name : string;
  starter : Z;
  mp : option string;
  fg : Z;
  fga : Z;
  fg_pct : pynum;
  threep : Z;
  threepa : Z;
  threep_pct : pynum;
  ft : Z;
  fta : Z;
  ft_pct : pynum;
  orb : Z;
  drb : Z;
  trb : Z;
  ast : Z;
  stl : Z;
  blk : Z;
  tov : Z;
  pf : Z;
  pts : Z;
  plus_minus : Z
}.

(** The integer fields with the [data-stat] key each is read from. *)
Definition int_fields : list (string * (box_row -> Z)) :=
  [("fg", fg); ("fga", fga); ("fg3", threep); ("fg3a", threepa); ("ft", ft);
   ("fta", fta); ("orb", orb); ("drb", drb); ("trb", trb); ("ast", ast);
   ("stl", stl); ("blk", blk); ("tov", tov); ("pf", pf); ("pts", pts);
   ("plus_minus", plus_minus)].

(** The float fields with their [data-stat] keys. *)
Definition float_fields : list (string * (box_row -> pynum)) :=
  [("fg_pct", fg_pct); ("fg3_pct", threep_pct); ("ft_pct", ft_pct)].

Section Parse.
Variable w : world.

(** The dict literal; its entries are evaluated in source order, so the
    first failing coercion is the one raised. *)
Definition row_dict (link team_name name : string) (row : Soup.node) : result box_row :=
  let starter_v := if Soup.has_class "starter" row then 1 else 0 in
  let mp_v := text_stat row "mp" in
  fg_v ← int_stat row "fg";
  fga_v ← int_stat row "fga";
  fg_pct_v ← float_stat w row "fg_pct";
  threep_v ← int_stat row "fg3";
  threepa_v ← int_stat row "fg3a";
  threep_pct_v ← float_stat w row "fg3_pct";
  ft_v ← int_stat row "ft";
  fta_v ← int_stat row "fta";
  ft_pct_v ← float_stat w row "ft_pct";
  orb_v ← int_stat row "orb";
  drb_v ← int_stat row "drb";
  trb_v ← int_stat row "trb";
  ast_v ← int_stat row "ast";
  stl_v ← int_stat row "stl";
  blk_v ← int_stat row "blk";
  tov_v ← int_stat row "tov";
  pf_v ← int_stat row "pf";
  pts_v ← int_stat row "pts";
  plus_minus_v ← int_stat row "plus_minus";
  Ok {| box_score_link := link; team := team_name; player_name := name;
        starter := starter_v; mp := mp_v; fg := fg_v; fga := fga_v;
        fg_pct := fg_pct_v; threep := threep_v; threepa := threepa_v;
        threep_pct := threep_pct_v; ft := ft_v; fta := fta_v; ft_pct := ft_pct_v;
        orb := orb_v; drb := drb_v; trb := trb_v; ast := ast_v; stl := stl_v;
        blk := blk_v; tov := tov_v; pf := pf_v; pts := pts_v;
        plus_minus := plus_minus_v |}.

(** The text of the [data-stat="player"] cell, when the row has one. *)
Definition player_text (row : Soup.node) : option string :=
  text_stat row "player".

(** The guards of the loop body: [true] when no [continue] is taken. *)
Definition retained (row : Soup.node) : bool :=
  negb (Soup.has_class "thead" row)
  && negb (PyStr.is_nil (Soup.find_all (Soup.named ["th"; "td"]) row))
  && match player_text row with
     | Some name => negb (PyStr.is_empty name) && negb (PyStr.contains "Totals" name)
     | None => false
     end.

(** One iteration of the loop over the body rows: [None] is [continue]. *)
Definition parse_row (link team_name : string) (row : Soup.node) : result (option box_row) :=
  if Soup.has_class "thead" row then Ok None
  else if PyStr.is_nil (Soup.find_all (Soup.named ["th"; "td"]) row) then Ok None
  else match player_text row with
       | None => Ok None
       | Some name =>
           if PyStr.is_empty name || PyStr.contains "Totals" name then Ok None
           else Some <$> row_dict link team_name name row
       end.

Fixpoint parse_rows (link team_name : string) (rows : list Soup.node) : result (list box_row) :=
  match rows with
  | [] => Ok []
  | row :: rest =>
      d ← parse_row link team_name row;
      ds ← parse_rows link team_name rest;
      Ok (match d with Some r => r :: ds | None => ds end)
  end.

(** [tbody.find_all("tr")], or nothing when the table has no [tbody]. *)
Definition body_rows (soup : Soup.node) : list Soup.node :=
  match Soup.find (Soup.named ["tbody"]) soup with
  | Some tbody => Soup.find_all (Soup.named ["tr"]) tbody
  | None => []
  end.

Definition parse_box_score_table (soup : Soup.node) (link team_name : string)
  : result (list box_row) :=
  parse_rows link team_name (body_rows soup).

(** *** Facts about the extractor *)

Lemma row_dict_fields link team_name name row d :
  row_dict link team_name name row = Ok d ->
  box_score_link d = link /\ team d = team_name /\ player_name d = name
  /\ starter d = (if Soup.has_class "starter" row then 1 else 0)
  /\ mp d = text_stat row "mp"
  /\ Forall (fun kp => int_stat row (fst kp) = Ok (snd kp d)) int_fields
  /\ Forall (fun kp => float_stat w row (fst kp) = Ok (snd kp d)) float_fields.
Proof.
  unfold row_dict. intros H. invert_binds H.
  injection H as <-. simpl.
  repeat split; repeat constructor; simpl; assumption.
Qed.

Definition name_ok (d : box_row) : Prop :=
  player_name d <> "" /\ PyStr.contains "Totals" (player_name d) = false.

Lemma parse_row_retained link team_name row :
  parse_row link team_name row =
  if retained row
  then match player_text row with
       | Some name => Some <$> row_dict link team_name name row
       | None => Ok None
       end
  else Ok None.
Proof.
  unfold parse_row, retained.
  destruct (Soup.has_class "thead" row); simpl; [reflexivity|].
  destruct (PyStr.is_nil _); simpl; [reflexivity|].
  destruct (player_text row) as [name|]; [|reflexivity].
  destruct (PyStr.is_empty name); simpl; [reflexivity|].
  destruct (PyStr.contains "Totals" name); reflexivity.
Qed.

Lemma retained_name row :
  retained row = true ->
  exists name, player_text row = Some name /\ name <> ""
               /\ PyStr.contains "Totals" name = false.
Proof.
  unfold retained. intros H.
  apply andb_prop in H as [_ H].
  destruct (player_text row) as [name|]; [|discriminate].
  apply andb_prop in H as [H1 H2].
  exists name. repeat split.
  - intros ->. discriminate.
  - now destruct (PyStr.contains "Totals" name).
Qed.

Lemma parse_rows_spec link team_name rows ds :
  parse_rows link team_name rows = Ok ds ->
  Forall name_ok ds
  /\ List.map player_name ds = omap player_text (List.filter retained rows)
  /\ Forall2 (fun d row => exists name, player_text row = Some name
                                        /\ row_dict link team_name name row = Ok d)
             ds (List.filter retained rows).
Proof.
  revert ds. induction rows as [|row rows IH]; intros ds H; simpl in H.
  - injection H as <-. repeat split; constructor.
  - apply bind_Ok_inv in H as (d & Hd & H).
    apply bind_Ok_inv in H as (ds' & Hds & H).
    injection H as <-.
    destruct (IH _ Hds) as (IH1 & IH2 & IH3).
    rewrite parse_row_retained in Hd. simpl.
    destruct (retained row) eqn:Hret.
    + destruct (retained_name _ Hret) as (name & Hname & Hne & Htot).
      rewrite Hname in Hd.
      destruct (row_dict link team_name name row) as [r|] eqn:Hr; [|discriminate].
      injection Hd as <-.
      destruct (row_dict_fields _ _ _ _ _ Hr) as (_ & _ & Hn & _).
      repeat split.
      * constructor; [|assumption]. unfold name_ok. now rewrite Hn.
      * simpl. rewrite Hname, Hn. simpl. now f_equal.
      * constructor; [|assumption]. eauto.
    + injection Hd as <-. auto.
Qed.

End Parse.
End BoxScore.

(** ** Advanced box scores ([advancedboxscorescraper.py]) *)

Module AdvBoxScore.

(** The row dict of [parse_advanced_box_score_table]. *)
Record adv_row := {
  box_score_link : string;
  team : string;
  player_name : string;
  starter : Z;
  mp : option string;
  ts_pct : pynum;
  efg_pct : pynum;
  fg3a_per_fga_pct : pynum;
  fta_per_fga_pct : pynum;
  orb_pct : pynum;
  drb_pct : pynum;
  trb_pct : pynum;
  ast_pct : pynum;
  stl_pct : pynum;
  blk_pct : pynum;
  tov_pct : pynum;
  usg_pct : pynum;
  ortg : Z;
  drtg : Z
}.

Definition int_fields : list (string * (adv_row -> Z)) :=
  [("off_rtg", ortg); ("def_rtg", drtg)].

Definition float_fields : list (string * (adv_row -> pynum)) :=
  [("ts_pct", ts_pct); ("efg_pct", efg_pct); ("fg3a_per_fga_pct", fg3a_per_fga_pct);
   ("fta_per_fga_pct", fta_per_fga_pct); ("orb_pct", orb_pct); ("drb_pct", drb_pct);
   ("trb_pct", trb_pct); ("ast_pct", ast_pct); ("stl_pct", stl_pct);
   ("blk_pct", blk_pct); ("tov_pct", tov_pct); ("usg_pct", usg_pct)].

Section Parse.
Variable w : world.

Definition row_dict (link team_name name : string) (row : Soup.node) : result adv_row :=
  let starter_v := if Soup.has_class "starter" row then 1 else 0 in
  let mp_v := text_stat row "mp" in
  ts_pct_v ← float_stat w row "ts_pct";
  efg_pct_v ← float_stat w row "efg_pct";
  fg3a_per_fga_pct_v ← float_stat w row "fg3a_per_fga_pct";
  fta_per_fga_pct_v ← float_stat w row "fta_per_fga_pct";
  orb_pct_v ← float_stat w row "orb_pct";
  drb_pct_v ← float_stat w row "drb_pct";
  trb_pct_v ← float_stat w row "trb_pct";
  ast_pct_v ← float_stat w row "ast_pct";
  stl_pct_v ← float_stat w row "stl_pct";
  blk_pct_v ← float_stat w row "blk_pct";
  tov_pct_v ← float_stat w row "tov_pct";
  usg_pct_v ← float_stat w row "usg_pct";
  ortg_v ← int_stat row "off_rtg";
  drtg_v ← int_stat row "def_rtg";
  Ok {| box_score_link := link; team := team_name; player_name := name;
        starter := starter_v; mp := mp_v; ts_pct := ts_pct_v; efg_pct := efg_pct_v;
        fg3a_per_fga_pct := fg3a_per_fga_pct_v; fta_per_fga_pct := fta_per_fga_pct_v;
        orb_pct := orb_pct_v; drb_pct := drb_pct_v; trb_pct := trb_pct_v;
        ast_pct := ast_pct_v; stl_pct := stl_pct_v; blk_pct := blk_pct_v;
        tov_pct := tov_pct_v; usg_pct := usg_pct_v; ortg := ortg_v; drtg := drtg_v |}.

Definition player_text (row : Soup.node) : option string :=
  text_stat row "player".

(** The guards of the loop body: [true] when no [continue] is taken. *)
Definition retained (row : Soup.node) : bool :=
  negb (Soup.has_class "thead" row)
  && match player_text row with
     | Some name => negb (PyStr.is_empty name) && negb (PyStr.contains "Totals" name)
     | None => false
     end.

Definition parse_row (link team_name : string) (row : Soup.node) : result (option adv_row) :=
  if Soup.has_class "thead" row then Ok None
  else match player_text row with
       | None => Ok None
       | Some name =>
           if PyStr.is_empty name || PyStr.contains "Totals" name then Ok None
           else Some <$> row_dict link team_name name row
       end.

Fixpoint parse_rows (link team_name : string) (rows : list Soup.node) : result (list adv_row) :=
  match rows with
  | [] => Ok []
  | row :: rest =>
      d ← parse_row link team_name row;
      ds ← parse_rows link team_name rest;
      Ok (match d with Some r => r :: ds | None => ds end)
  end.

Definition parse_advanced_box_score_table (soup : Soup.node) (link team_name : string)
  : result (list adv_row) :=
  parse_rows link team_name (BoxScore.body_rows soup).

(** *** Facts about the extractor *)

Lemma adv_row_dict_fields link team_name name row d :
  row_dict link team_name name row = Ok d ->
  box_score_link d = link /\ team d = team_name /\ player_name d = name
  /\ starter d = (if Soup.has_class "starter" row then 1 else 0)
  /\ mp d = text_stat row "mp"
  /\ Forall (fun kp => int_stat row (fst kp) = Ok (snd kp d)) int_fields
  /\ Forall (fun kp => float_stat w row (fst kp) = Ok (snd kp d)) float_fields.
Proof.
  unfold row_dict. intros H. invert_binds H.
  injection H as <-. simpl.
  repeat split; repeat constructor; simpl; assumption.
Qed.

Definition name_ok (d : adv_row) : Prop :=
  player_name d <> "" /\ PyStr.contains "Totals" (player_name d) = false.

Lemma adv_parse_row_retained link team_name row :
  parse_row link team_name row =
  if retained row
  then match player_text row with
       | Some name => Some <$> row_dict link team_name name row
       | None => Ok None
       end
  else Ok None.
Proof.
  unfold parse_row, retained.
  destruct (Soup.has_class "thead" row); simpl; [reflexivity|].
  destruct (player_text row) as [name|]; [|reflexivity].
  destruct (PyStr.is_empty name); simpl; [reflexivity|].
  destruct (PyStr.contains "Totals" name); reflexivity.
Qed.

Lemma adv_retained_name row :
  retained row = true ->
  exists name, player_text row = Some name /\ name <> ""
               /\ PyStr.contains "Totals" name = false.
Proof.
  unfold retained. intros H.
  apply andb_prop in H as [_ H].
  destruct (player_text row) as [name|]; [|discriminate].
  apply andb_prop in H as [H1 H2].
  exists name. repeat split.
  - intros ->. discriminate.
  - now destruct (PyStr.contains "Totals" name).
Qed.

Lemma adv_parse_rows_spec link team_name rows ds :
  parse_rows link team_name rows = Ok ds ->
  Forall name_ok ds
  /\ List.map player_name ds = omap player_text (List.filter retained rows)
  /\ Forall2 (fun d row => exists name, player_text row = Some name
                                        /\ row_dict link team_name name row = Ok d)
             ds (List.filter retained rows).
Proof.
  revert ds. induction rows as [|row rows IH]; intros ds H; simpl in H.
  - injection H as <-. repeat split; constructor.
  - apply bind_Ok_inv in H as (d & Hd & H).
    apply bind_Ok_inv in H as (ds' & Hds & H).
    injection H as <-.
    destruct (IH _ Hds) as (IH1 & IH2 & IH3).
    rewrite adv_parse_row_retained in Hd. simpl.
    destruct (retained row) eqn:Hret.
    + destruct (adv_retained_name _ Hret) as (name & Hname & Hne & Htot).
      rewrite Hname in Hd.
      destruct (row_dict link team_name name row) as [r|] eqn:Hr; [|discriminate].
      injection Hd as <-.
      destruct (adv_row_dict_fields _ _ _ _ _ Hr) as (_ & _ & Hn & _).
      repeat split.
      * constructor; [|assumption]. unfold name_ok. now rewrite Hn.
      * simpl. rewrite Hname, Hn. simpl. now f_equal.
      * constructor; [|assumption]. eauto.
    + injection Hd as <-. auto.
Qed.

End Parse.
End AdvBoxScore.

(** ** Worked inputs shared by the examples *)

Module Demo.
Import Soup.

(** A stand-in for Python's [float] that knows the literals of the examples. *)
Definition demo_float (s : string) : option float :=
  if String.eqb s ".500" then Some 0.5%float
  else if String.eqb s "1.000" then Some 1%float
  else if String.eqb s "250" then Some 250%float
  else if String.eqb s "210" then Some 210%float
  else None.

Definition offline : world :=
  {| http_get := fun _ => None;
     html_parser := fun _ => Elem "[document]" [] [];
     float_of_str := demo_float |}.

(** A box-score body: a starter with no [fg3_pct] and no [mp] cell and an
    empty [fg] cell, a repeated header row, a row with a blank name, the
    team totals and a row without a player cell. *)
Definition tatum_row : node :=
  tr_class ["starter"]
    [el "th" [("data-stat", "player")] [el "a" [("href", "/players/t/tatumja01.html")] [Text "Jayson Tatum"]];
     td "fg" ""; td "fga" "18"; td "fg_pct" ".500"; td "pts" "37"].

Definition box_table : node :=
  el "table" [("id", "box-BOS-game-basic")]
    [el "caption" [] [Text "Boston Celtics Basic and Advanced Stats"];
     el "tbody" []
       [tatum_row;
        tr_class ["thead"] [el "th" [("data-stat", "player")] [Text "Reserves"]];
        el "tr" [] [el "th" [("data-stat", "player")] [Text "  "]; td "pts" "3"];
        el "tr" [] [el "th" [("data-stat", "player")] [Text "Team Totals"]; td "pts" "132"];
        el "tr" [] [td "reason" "Did Not Play"]]].

Definition tatum_line : BoxScore.box_row :=
  {| BoxScore.box_score_link := "L"; BoxScore.team := "Boston Celtics";
     BoxScore.player_name := "Jayson Tatum"; BoxScore.starter := 1;
     BoxScore.mp := None; BoxScore.fg := 0; BoxScore.fga := 18;
     BoxScore.fg_pct := PFloat 0.5; BoxScore.threep := 0; BoxScore.threepa := 0;
     BoxScore.threep_pct := PInt 0; BoxScore.ft := 0; BoxScore.fta := 0;
     BoxScore.ft_pct := PInt 0; BoxScore.orb := 0; BoxScore.drb := 0;
     BoxScore.trb := 0; BoxScore.ast := 0; BoxScore.stl := 0; BoxScore.blk := 0;
     BoxScore.tov := 0; BoxScore.pf := 0; BoxScore.pts := 37;
     BoxScore.plus_minus := 0 |}.

Example box_table_parses :
  BoxScore.parse_box_score_table offline box_table "L" "Boston Celtics" = Ok [tatum_line].
Proof. reflexivity. Qed.

Definition adv_table : node :=
  el "table" [("id", "box-BOS-game-advanced")]
    [el "tbody" []
       [tr_class ["starter"]
          [el "th" [("data-stat", "player")] [Text "Jayson Tatum"];
           td "mp" "30:16"; td "ts_pct" ".500"; td "usg_pct" ""; td "off_rtg" "132"];
        el "tr" [] [el "th" [("data-stat", "player")] [Text "Team Totals"]; td "mp" "240"]]].

Definition tatum_adv : AdvBoxScore.adv_row :=
  {| AdvBoxScore.box_score_link := "L"; AdvBoxScore.team := "Boston Celtics";
     AdvBoxScore.player_name := "Jayson Tatum"; AdvBoxScore.starter := 1;
     AdvBoxScore.mp := Some "30:16"; AdvBoxScore.ts_pct := PFloat 0.5;
     AdvBoxScore.efg_pct := PInt 0; AdvBoxScore.fg3a_per_fga_pct := PInt 0;
     AdvBoxScore.fta_per_fga_pct := PInt 0; AdvBoxScore.orb_pct := PInt 0;
     AdvBoxScore.drb_pct := PInt 0; AdvBoxScore.trb_pct := PInt 0;
     AdvBoxScore.ast_pct := PInt 0; AdvBoxScore.stl_pct := PInt 0;
     AdvBoxScore.blk_pct := PInt 0; AdvBoxScore.tov_pct := PInt 0;
     AdvBoxScore.usg_pct := PFloat 0; AdvBoxScore.ortg := 132; AdvBoxScore.drtg := 0 |}.

Example adv_table_parses :
  AdvBoxScore.parse_advanced_box_score_table offline adv_table "L" "Boston Celtics"
  = Ok [tatum_adv].
Proof. reflexivity. Qed.

End Demo.

(** ** The row extractors: excluded rows and zero defaults *)

(** A body row the specification excludes: it carries the [thead] class, or
    its player cell is missing, empty or mentions Totals. *)
Definition excluded (row : Soup.node) : bool :=
  Soup.has_class "thead" row
  || match text_stat row "player" with
     | None => true
     | Some name => PyStr.is_empty name || PyStr.contains "Totals" name
     end.

Lemma excluded_not_retained row :
  excluded row = true ->
  BoxScore.retained row = false /\ AdvBoxScore.retained row = false.
Proof.
  unfold excluded, BoxScore.retained, AdvBoxScore.retained,
    BoxScore.player_text, AdvBoxScore.player_text.
  destruct (Soup.has_class "thead" row); simpl; [auto|].
  destruct (text_stat row "player") as [name|]; simpl.
  - intros H. destruct (PyStr.is_empty name); simpl in *.
    + split; [apply andb_false_r | reflexivity].
    + rewrite H. simpl. split; [apply andb_false_r | reflexivity].
  - intros _. split; [apply andb_false_r | reflexivity].
Qed.

(** C1. The rows returned by [parse_box_score_table] and by
    [parse_advanced_box_score_table] never carry an empty player name nor one
    containing Totals; the names returned are exactly, in document order,
    those of the body rows that pass the guards, and a row with the [thead]
    class or with a missing, empty or Totals player cell passes neither
    extractor's guards. *)
Theorem extractors_exclude_totals (w : world) (tbl : Soup.node) (link team : string) :
  (forall rows,
      BoxScore.parse_box_score_table w tbl link team = Ok rows ->
      Forall (fun d => BoxScore.player_name d <> ""
                       /\ PyStr.contains "Totals" (BoxScore.player_name d) = false) rows
      /\ List.map BoxScore.player_name rows
         = omap BoxScore.player_text (List.filter BoxScore.retained (BoxScore.body_rows tbl)))
  /\ (forall rows,
      AdvBoxScore.parse_advanced_box_score_table w tbl link team = Ok rows ->
      Forall (fun d => AdvBoxScore.player_name d <> ""
                       /\ PyStr.contains "Totals" (AdvBoxScore.player_name d) = false) rows
      /\ List.map AdvBoxScore.player_name rows
         = omap AdvBoxScore.player_text
             (List.filter AdvBoxScore.retained (BoxScore.body_rows tbl)))
  /\ (forall row, excluded row = true ->
                  BoxScore.retained row = false /\ AdvBoxScore.retained row = false).
Proof.
  split; [|split].
  - intros rows H. apply BoxScore.parse_rows_spec in H as (H1 & H2 & _). auto.
  - intros rows H. apply AdvBoxScore.adv_parse_rows_spec in H as (H1 & H2 & _). auto.
  - apply excluded_not_retained.
Qed.

Lemma extractors_exclude_totals_witness :
  (Forall (fun d => BoxScore.player_name d <> ""
                    /\ PyStr.contains "Totals" (BoxScore.player_name d) = false)
          [Demo.tatum_line]
   /\ List.map BoxScore.player_name [Demo.tatum_line]
      = omap BoxScore.player_text
          (List.filter BoxScore.retained (BoxScore.body_rows Demo.box_table)))
  /\ (Forall (fun d => AdvBoxScore.player_name d <> ""
                       /\ PyStr.contains "Totals" (AdvBoxScore.player_name d) = false)
             [Demo.tatum_adv]
      /\ List.map AdvBoxScore.player_name [Demo.tatum_adv]
         = omap AdvBoxScore.player_text
             (List.filter AdvBoxScore.retained (BoxScore.body_rows Demo.adv_table))).
Proof.
  split.
  - apply (extractors_exclude_totals Demo.offline Demo.box_table "L" "Boston Celtics").
    reflexivity.
  - apply (extractors_exclude_totals Demo.offline Demo.adv_table "L" "Boston Celtics").
    reflexivity.
Defined.

(** A stat cell is blank when the row has no such cell or its text is empty. *)
Definition blank (row : Soup.node) (stat : string) : Prop :=
  match stat_cell row stat with
  | None => True
  | Some cell => Soup.get_text cell = ""
  end.

Lemma int_stat_blank row stat : blank row stat -> int_stat row stat = Ok 0.
Proof.
  unfold blank, int_stat. destruct (stat_cell row stat) as [cell|]; [|reflexivity].
  intros ->. reflexivity.
Qed.

Lemma float_stat_blank w row stat :
  blank row stat ->
  float_stat w row stat
  = Ok (match stat_cell row stat with None => PInt 0 | Some _ => PFloat 0 end).
Proof.
  unfold blank, float_stat. destruct (stat_cell row stat) as [cell|]; [|reflexivity].
  intros ->. reflexivity.
Qed.

(** What C2 says of one returned row [d] and the body row it was read from. *)
Definition zero_defaults (w : world) (d : BoxScore.box_row) (row : Soup.node) : Prop :=
  (forall k p, In (k, p) BoxScore.int_fields -> blank row k ->
               int_stat row k = Ok 0 /\ p d = 0)
  /\ (forall k p, In (k, p) BoxScore.float_fields -> blank row k ->
                  float_stat w row k = Ok (p d)
                  /\ py_eq (p d) (PFloat 0) = true
                  /\ real_affinity (p d) = 0%float)
  /\ (stat_cell row "fg3_pct" = None ->
      py_eq (BoxScore.threep_pct d) (PFloat 0) = true)
  /\ BoxScore.mp d = Soup.get_text <$> stat_cell row "mp"
  /\ (stat_cell row "mp" = None -> BoxScore.mp d = None /\ BoxScore.mp d <> Some "").

Lemma zero_defaults_of_rows w tbl link team rows :
  BoxScore.parse_box_score_table w tbl link team = Ok rows ->
  Forall2 (zero_defaults w) rows (List.filter BoxScore.retained (BoxScore.body_rows tbl)).
Proof.
  intros H. apply BoxScore.parse_rows_spec in H as (_ & _ & H).
  eapply Forall2_impl; [exact H|]. clear H.
  intros d row (name & _ & Hd).
  apply BoxScore.row_dict_fields in Hd as (_ & _ & _ & _ & Hmp & Hint & Hfl).
  rewrite List.Forall_forall in Hint, Hfl.
  assert (Hfloat : forall k p, In (k, p) BoxScore.float_fields -> blank row k ->
                     float_stat w row k = Ok (p d)
                     /\ py_eq (p d) (PFloat 0) = true
                     /\ real_affinity (p d) = 0%float).
  { intros k p Hin Hb. specialize (Hfl _ Hin). simpl in Hfl.
    split; [assumption|].
    rewrite (float_stat_blank _ _ _ Hb) in Hfl. injection Hfl as <-.
    destruct (stat_cell row k); split; reflexivity. }
  unfold zero_defaults. split; [|split; [|split; [|split]]].
  - intros k p Hin Hb. split; [now apply int_stat_blank|].
    specialize (Hint _ Hin). simpl in Hint.
    rewrite (int_stat_blank _ _ Hb) in Hint. now injection Hint as <-.
  - exact Hfloat.
  - intros Habs. apply (Hfloat "fg3_pct" BoxScore.threep_pct).
    + simpl. auto.
    + unfold blank. now rewrite Habs.
  - exact Hmp.
  - intros Habs. rewrite Hmp. unfold text_stat. rewrite Habs. split; [reflexivity|discriminate].
Qed.

(** C2. The coercion of a numeric cell that is absent or empty never
    raises: the integer coercion gives 0, the float coercion a value that
    Python compares equal to 0.0 and that a REAL column stores as 0.0.
    Every row [parse_box_score_table] returns was read from a retained body
    row, and against that row: an integer field whose cell is absent or
    empty is 0; a float field whose cell is absent or empty is such a zero
    (so a row without an [fg3_pct] cell has [threep_pct == 0.0]); [mp] is
    the cell's text as extracted, and [None], which is not the empty
    string, when the cell is absent. *)
Theorem blank_cells_default_to_zero (w : world) :
  (forall row k,
      blank row k ->
      int_stat row k = Ok 0
      /\ exists v, float_stat w row k = Ok v
                   /\ py_eq v (PFloat 0) = true /\ real_affinity v = 0%float)
  /\ (forall tbl link team rows,
        BoxScore.parse_box_score_table w tbl link team = Ok rows ->
        Forall2 (zero_defaults w) rows
                (List.filter BoxScore.retained (BoxScore.body_rows tbl))).
Proof.
  split.
  - intros row k Hb. split; [now apply int_stat_blank|].
    rewrite (float_stat_blank _ _ _ Hb). eexists. split; [reflexivity|].
    destruct (stat_cell row k); split; reflexivity.
  - intros tbl link team rows. apply zero_defaults_of_rows.
Qed.

Lemma blank_cells_default_to_zero_witness :
  (int_stat Demo.tatum_row "fg3_pct" = Ok 0
   /\ exists v, float_stat Demo.offline Demo.tatum_row "fg3_pct" = Ok v
                /\ py_eq v (PFloat 0) = true /\ real_affinity v = 0%float)
  /\ Forall2 (zero_defaults Demo.offline) [Demo.tatum_line]
       (List.filter BoxScore.retained (BoxScore.body_rows Demo.box_table)).
Proof.
  split.
  - apply (proj1 (blank_cells_default_to_zero Demo.offline) Demo.tatum_row "fg3_pct").
    exact I.
  - apply (proj2 (blank_cells_default_to_zero Demo.offline)
             Demo.box_table "L" "Boston Celtics").
    reflexivity.
Defined.

(** ** The players table ([init_db]) *)

Module Players.

(** A row of [players]: the key columns the roster drivers write and the
    [url] the allocator fills in.  [name] and [team] are NOT NULL; [weight]
    is REAL (a NaN, which SQLite keeps as NULL, equals nothing, itself
    included).  The season snapshot columns, written only by the stats
    driver, are left out. *)
Record player := {
  id : Z;
  name : string;
  team : string;
  position : option string;
  height : option string;
  weight : float;
  birth_date : option string;
  birth_country : option string;
  experience : option string;
  college : option string;
  url : option string
}.

(** The table with the last value handed out by AUTOINCREMENT. *)
Record table := {
  rows : list player;
  seq : Z
}.

(** [UPDATE players SET url = ? WHERE id = ?] on the rows. *)
Definition set_url (pid : Z) (u : string) (r : player) : player :=
  if id r =? pid
  then {| id := id r; name := name r; team := team r; position := position r;
          height := height r; weight := weight r; birth_date := birth_date r;
          birth_country := birth_country r; experience := experience r;
          college := college r; url := Some u |}
  else r.

Definition update_url (pid : Z) (u : string) (t : list player) : list player :=
  set_url pid u <$> t.

End Players.

(** ** URL allocation ([generate_player_urls], the same text in
    [scrape_bball_ref.py] and [data-base-creator.py]) *)

Module Urls.
Import Players.

Definition origin : string := "https://www.basketball-reference.com".

(** [last_name[0].lower()]; indexing an empty string raises. *)
Definition folder (last_name : string) : result string :=
  match last_name with
  | String c _ => Ok (PyStr.lower (String c ""))
  | EmptyString => Raise IndexError
  end.

Definition last_part (first_name last_name : string) : string :=
  PyStr.lower
    (if (5 <=? String.length last_name)%nat
     then PyStr.take 5 last_name
     else last_name ++ PyStr.take (5 - String.length last_name) first_name).

Definition first_part (first_name : string) : string :=
  PyStr.lower (PyStr.take 2 first_name).

(** The candidate for one value of the counter. *)
Definition candidate (dir stem sfx : string) (suffix : nat) : string :=
  origin ++ "/players/" ++ dir ++ "/" ++ stem ++ sfx ++ PyStr.format_02d suffix ++ ".html".

(** The [while True] loop; it leaves through one of its two [return]s
    within 99 rounds, [fuel] only bounds the recursion. *)
Fixpoint probe (mk : nat -> string) (existing_urls : gset string) (fuel suffix : nat)
  : option string :=
  match fuel with
  | O => None
  | S fuel' =>
      let url := mk suffix in
      if decide (url ∈ existing_urls)
      then (let suffix' := S suffix in
            if (99 <? suffix')%nat then None
            else probe mk existing_urls fuel' suffix')
      else Some url
  end.

Definition construct_url (player_name : string) (existing_urls : gset string)
  : result (option string) :=
  let parts := PyStr.split player_name in
  match parts with
  | first_name :: _ :: _ =>
      let last_name := List.last parts "" in
      dir ← folder last_name;
      Ok (probe (candidate dir (last_part first_name last_name) (first_part first_name))
                existing_urls 99 1)
  | _ => Ok None
  end.

(** The loop state: the table, the set of URLs in use, and the UPDATE
    statements executed so far (oldest first). *)
Record alloc_state := {
  players : list player;
  existing_urls : gset string;
  updates : list (Z * string)
}.

(** One iteration of [for player_id, player_name in players]. *)
Definition assign (st : alloc_state) (p : Z * string) : result alloc_state :=
  url ← construct_url (snd p) (existing_urls st);
  match url with
  | Some u =>
      if PyStr.is_empty u then Ok st
      else Ok {| players := update_url (fst p) u (players st);
                 existing_urls := {[u]} ∪ existing_urls st;
                 updates := updates st ++ [(fst p, u)] |}
  | None => Ok st
  end.

Fixpoint assign_all (st : alloc_state) (ps : list (Z * string)) : result alloc_state :=
  match ps with
  | [] => Ok st
  | p :: rest => st' ← assign st p; assign_all st' rest
  end.

(** [SELECT url FROM players WHERE url IS NOT NULL] *)
Definition assigned_urls (t : list player) : list string := omap url t.

(** [SELECT id, name FROM players WHERE url IS NULL] *)
Definition lacking_url (t : list player) : list (Z * string) :=
  omap (fun r => match url r with None => Some (id r, name r) | Some _ => None end) t.

Definition generate_player_urls (t : list player) : result alloc_state :=
  assign_all {| players := t;
                existing_urls := list_to_set (assigned_urls t);
                updates := [] |}
             (lacking_url t).

Example construct_url_ex :
  construct_url "LeBron James" ∅
  = Ok (Some "https://www.basketball-reference.com/players/j/jamesle01.html")
  /\ construct_url "Yao Ming" {["https://www.basketball-reference.com/players/m/mingyya01.html"]}
     = Ok (Some "https://www.basketball-reference.com/players/m/mingyya02.html")
  /\ construct_url "Nene" ∅ = Ok None.
Proof. split; [|split]; vm_compute; reflexivity. Qed.

(** *** The parts of a name *)

Lemma split_from_nonempty s : forall cur, Forall (fun p => p <> "") (PyStr.split_from cur s).
Proof.
  induction s as [|c s IH]; intros cur; simpl.
  - destruct cur; simpl; repeat constructor. discriminate.
  - destruct (PyStr.is_space c).
    + destruct cur; simpl; [apply IH|]. constructor; [discriminate | apply IH].
    + apply IH.
Qed.

Lemma last_elem_of {A} (l : list A) (d : A) : l <> [] -> List.last l d ∈ l.
Proof.
  induction l as [|x l IH]; [congruence|]. intros _.
  destruct l as [|y l]; simpl; [left|]. right. apply IH. discriminate.
Qed.

Lemma folder_total player_name first_name second rest :
  PyStr.split player_name = first_name :: second :: rest ->
  exists c tl, List.last (first_name :: second :: rest) "" = String c tl
               /\ folder (List.last (first_name :: second :: rest) "")
                  = Ok (PyStr.lower (String c "")).
Proof.
  intros Hs.
  pose proof (split_from_nonempty player_name "") as Hne.
  fold (PyStr.split player_name) in Hne. rewrite Hs in Hne.
  rewrite Forall_forall in Hne.
  assert (Hcons : first_name :: second :: rest <> []) by discriminate.
  specialize (Hne _ (last_elem_of _ "" Hcons)).
  destruct (List.last (first_name :: second :: rest) "") as [|c tl]; [congruence|].
  exists c, tl. split; reflexivity.
Qed.

(** *** The probing loop *)

Lemma probe_fresh mk ex fuel : forall k u, probe mk ex fuel k = Some u -> u ∉ ex.
Proof.
  induction fuel as [|fuel IH]; intros k u; simpl; [discriminate|].
  destruct (decide (mk k ∈ ex)) as [Hin|Hout].
  - destruct (99 <? S k)%nat; [discriminate | apply IH].
  - intros [= <-]. exact Hout.
Qed.

(** With fuel for every counter value up to 99, [probe] returns the first
    free candidate, and [None] only when all of them are taken. *)
Lemma probe_spec mk ex fuel : forall k,
  (k <= 99)%nat -> (100 <= fuel + k)%nat ->
  match probe mk ex fuel k with
  | Some u => exists j, (k <= j <= 99)%nat /\ u = mk j /\ (mk j ∉ ex)
                        /\ (forall i, (k <= i < j)%nat -> mk i ∈ ex)
  | None => forall i, (k <= i <= 99)%nat -> mk i ∈ ex
  end.
Proof.
  induction fuel as [|fuel IH]; intros k Hk Hfuel; [lia|]. simpl.
  destruct (decide (mk k ∈ ex)) as [Hin|Hout].
  - destruct (99 <? S k)%nat eqn:Hlast.
    + apply Nat.ltb_lt in Hlast. intros i Hi.
      replace i with k by lia. exact Hin.
    + apply Nat.ltb_ge in Hlast.
      specialize (IH (S k) ltac:(lia) ltac:(lia)).
      destruct (probe mk ex fuel (S k)) as [u|].
      * destruct IH as (j & Hj & Hu & Hfree & Hbelow).
        exists j. repeat split; try lia; try assumption.
        intros i Hi. destruct (decide (i = k)) as [->|]; [exact Hin|].
        apply Hbelow. lia.
      * intros i Hi. destruct (decide (i = k)) as [->|]; [exact Hin|].
        apply IH. lia.
  - exists k. repeat split; try lia; try assumption.
Qed.

Lemma construct_url_total player_name ex :
  exists o, construct_url player_name ex = Ok o.
Proof.
  unfold construct_url.
  destruct (PyStr.split player_name) as [|first_name [|second rest]] eqn:Hs; eauto.
  destruct (folder_total _ _ _ _ Hs) as (c & tl & _ & ->). eexists. reflexivity.
Qed.

Lemma construct_url_fresh player_name ex u :
  construct_url player_name ex = Ok (Some u) -> u ∉ ex.
Proof.
  unfold construct_url.
  destruct (PyStr.split player_name) as [|first_name [|second rest]]; try discriminate.
  intros H. apply bind_Ok_inv in H as (dir & _ & H).
  remember (probe _ ex 99 1) as o eqn:Ho in H.
  injection H as ->. symmetry in Ho. eapply probe_fresh, Ho.
Qed.

Lemma construct_url_short player_name ex :
  (length (PyStr.split player_name) < 2)%nat -> construct_url player_name ex = Ok None.
Proof.
  unfold construct_url.
  destruct (PyStr.split player_name) as [|first_name [|second rest]]; simpl;
    intros H; try reflexivity. lia.
Qed.

(** *** The allocation loop *)

(** The table after the UPDATE statements of [log]. *)
Definition replay (log : list (Z * string)) (t : list player) : list player :=
  fold_left (fun t e => update_url (fst e) (snd e) t) log t.

Lemma assign_cases st p :
  (assign st p = Ok st
   /\ forall u, construct_url (snd p) (existing_urls st) = Ok (Some u) -> u = "")
  \/ exists u,
       construct_url (snd p) (existing_urls st) = Ok (Some u)
       /\ (u ∉ existing_urls st)
       /\ assign st p
          = Ok {| players := update_url (fst p) u (players st);
                  existing_urls := {[u]} ∪ existing_urls st;
                  updates := updates st ++ [(fst p, u)] |}.
Proof.
  unfold assign.
  destruct (construct_url_total (snd p) (existing_urls st)) as ([u|] & Hu); rewrite Hu; simpl.
  - destruct u as [|c u]; simpl.
    + left. split; [reflexivity|]. now intros u' [= <-].
    + right. eexists. repeat split. now apply construct_url_fresh in Hu.
  - left. split; [reflexivity | discriminate].
Qed.

Lemma assign_all_spec ps : forall st,
  exists st' log,
    assign_all st ps = Ok st'
    /\ players st' = replay log (players st)
    /\ existing_urls st' = list_to_set log.*2 ∪ existing_urls st
    /\ updates st' = (updates st ++ log)%list
    /\ NoDup log.*2
    /\ (forall u, u ∈ log.*2 -> u ∉ existing_urls st)
    /\ sublist log.*1 ps.*1
    /\ Forall (fun e => exists nm ex, (e.1, nm) ∈ ps
                                      /\ construct_url nm ex = Ok (Some e.2)) log.
Proof.
  induction ps as [|p ps IH]; intros st.
  - exists st, []. simpl. rewrite app_nil_r.
    repeat split; try constructor.
    + now rewrite (left_id_L ∅ (∪)).
    + intros u Hu. inversion Hu.
  - simpl. destruct (assign_cases st p) as [[-> _] | (u & Hu & Hfresh & ->)]; simpl.
    + destruct (IH st) as (st' & log & H1 & H2 & H3 & H4 & H5 & H6 & H7 & H8).
      exists st', log. repeat split; try assumption.
      * now apply sublist_cons.
      * eapply Forall_impl; [exact H8|]. intros e (nm & ex & Hin & Hc).
        exists nm, ex. split; [now right | assumption].
    + destruct (IH {| players := update_url (fst p) u (players st);
                      existing_urls := {[u]} ∪ existing_urls st;
                      updates := updates st ++ [(fst p, u)] |})
        as (st' & log & H1 & H2 & H3 & H4 & H5 & H6 & H7 & H8).
      simpl in *.
      exists st', ((fst p, u) :: log). repeat split.
      * assumption.
      * assumption.
      * rewrite H3. simpl.
        now rewrite (assoc_L (∪)), (comm_L (∪) (list_to_set log.*2) {[u]}).
      * rewrite H4, <- app_assoc. reflexivity.
      * simpl. apply NoDup_cons. split; [|assumption].
        intros Hin. apply H6 in Hin. apply Hin.
        apply elem_of_union_l, elem_of_singleton. reflexivity.
      * simpl. intros u' Hu'. apply elem_of_cons in Hu' as [->|Hu']; [assumption|].
        apply H6 in Hu'. intros Hex. apply Hu'. now apply elem_of_union_r.
      * simpl. now apply sublist_skip.
      * constructor.
        -- exists (snd p), (existing_urls st). split; [|assumption].
           destruct p; now left.
        -- eapply Forall_impl; [exact H8|]. intros e (nm & ex & Hin & Hc).
           exists nm, ex. split; [now right | assumption].
Qed.

(** *** What the UPDATE statements do to a row *)

Definition replay_row (log : list (Z * string)) (r : player) : player :=
  fold_left (fun r e => set_url (fst e) (snd e) r) log r.

Lemma replay_rows log : forall t, replay log t = replay_row log <$> t.
Proof.
  induction log as [|e log IH]; intros t; simpl.
  - now rewrite list_fmap_id.
  - unfold replay in *. simpl. rewrite IH. unfold update_url.
    now rewrite <- list_fmap_compose.
Qed.

Lemma set_url_id pid u r : id (set_url pid u r) = id r.
Proof. unfold set_url. now destruct (id r =? pid). Qed.

Lemma set_url_twice pid u u' r :
  set_url (id r) u' (set_url pid u r) = set_url (id r) u' r.
Proof.
  unfold set_url. destruct (id r =? pid) eqn:E; simpl; [|reflexivity].
  now rewrite Z.eqb_refl.
Qed.

Lemma replay_row_spec log : forall r,
  ((id r ∉ log.*1) /\ replay_row log r = r)
  \/ (exists u, (id r, u) ∈ log /\ replay_row log r = set_url (id r) u r).
Proof.
  induction log as [|[pid u] log IH]; intros r; simpl.
  - left. split; [apply not_elem_of_nil | reflexivity].
  - destruct (IH (set_url pid u r)) as [[Hout Heq] | (u' & Hin & Heq)];
      rewrite set_url_id in *.
    + unfold replay_row in *. simpl. rewrite Heq.
      destruct (decide (id r = pid)) as [<-|Hne].
      * right. exists u. split; [left | reflexivity].
      * left. split.
        -- rewrite not_elem_of_cons. split; assumption.
        -- unfold set_url. apply Z.eqb_neq in Hne. now rewrite Hne.
    + right. exists u'. split; [now right|].
      unfold replay_row in *. simpl. rewrite Heq. apply set_url_twice.
Qed.

Lemma lacking_url_elem t pid nm :
  (pid, nm) ∈ lacking_url t -> exists r, r ∈ t /\ url r = None /\ id r = pid /\ name r = nm.
Proof.
  unfold lacking_url. rewrite list_elem_of_omap. intros (r & Hr & Hm).
  exists r. destruct (url r); [discriminate|]. injection Hm as <- <-. auto.
Qed.

Lemma lacking_url_ids t : sublist (lacking_url t).*1 (id <$> t).
Proof.
  induction t as [|r t IH]; simpl; [constructor|].
  unfold lacking_url. simpl. destruct (url r); simpl.
  - now apply sublist_cons.
  - now apply sublist_skip.
Qed.

Lemma id_determines_row (t : list player) r r' :
  NoDup (id <$> t) -> r ∈ t -> r' ∈ t -> id r = id r' -> r = r'.
Proof.
  induction t as [|x t IH]; intros Hnd Hr Hr'; [inversion Hr|].
  simpl in Hnd. apply NoDup_cons in Hnd as [Hx Hnd]. intros Hid.
  apply elem_of_cons in Hr as [->|Hr]; apply elem_of_cons in Hr' as [->|Hr'].
  - reflexivity.
  - exfalso. apply Hx. rewrite Hid. now apply list_elem_of_fmap_2.
  - exfalso. apply Hx. rewrite <- Hid. now apply list_elem_of_fmap_2.
  - now apply IH.
Qed.

(** The whole run, in terms of the UPDATE statements it executes. *)
Lemma generate_player_urls_spec (t : list player) :
  exists st,
    generate_player_urls t = Ok st
    /\ players st = replay_row (updates st) <$> t
    /\ NoDup (updates st).*2
    /\ (forall u, u ∈ (updates st).*2 -> Some u ∉ url <$> t)
    /\ sublist (updates st).*1 (lacking_url t).*1
    /\ Forall (fun e => exists nm ex, (e.1, nm) ∈ lacking_url t
                                      /\ construct_url nm ex = Ok (Some e.2)) (updates st).
Proof.
  unfold generate_player_urls.
  destruct (assign_all_spec (lacking_url t)
              {| players := t; existing_urls := list_to_set (assigned_urls t); updates := [] |})
    as (st & log & H1 & H2 & _ & H4 & H5 & H6 & H7 & H8).
  simpl in *. subst log. exists st. repeat split; try assumption.
  - rewrite H2. apply replay_rows.
  - intros u Hu Hin. apply (H6 u Hu). apply elem_of_list_to_set.
    unfold assigned_urls. apply list_elem_of_omap.
    apply list_elem_of_fmap in Hin as (r & Hr & Hin). exists r. auto.
Qed.

End Urls.

(** ** URL allocation: the slug rule, distinctness, short names *)






Example construct_url_collision :
  Urls.construct_url "LeBron James"
    {["https://www.basketball-reference.com/players/j/jamesle01.html"]}
  = Ok (Some "https://www.basketball-reference.com/players/j/jamesle02.html").
Proof. vm_compute. reflexivity. Qed.


(** What C7 says of a run that started from the rows [t] and ended in [st]:
    [updates st] lists the (player id, URL) pairs written. *)
Definition allocation_ok (t : list Players.player) (st : Urls.alloc_state) : Prop :=
  NoDup (Urls.updates st).*2
  /\ (forall u, u ∈ (Urls.updates st).*2 -> Some u ∉ Players.url <$> t)
  /\ NoDup (Urls.updates st).*1
  /\ (forall pid u, (pid, u) ∈ Urls.updates st ->
        exists r, r ∈ t /\ Players.id r = pid /\ Players.url r = None)
  /\ Forall2 (fun r r' =>
                (Players.url r <> None -> r' = r)
                /\ (Players.url r = None ->
                    r' = r \/ exists u, (Players.id r, u) ∈ Urls.updates st
                                        /\ r' = Players.set_url (Players.id r) u r))
             t (Urls.players st).

(** C7. On a table whose ids are distinct (the primary key),
    [generate_player_urls] returns; the URLs it writes are pairwise distinct
    and none of them was in the table before; every write goes to a row
    whose url was NULL, at most one write per row; a row that had a URL is
    returned as it was, and a row that had none is returned as it was or with
    the URL written for its id. *)
Theorem url_allocation_distinct (t : list Players.player) :
  NoDup (Players.id <$> t) ->
  exists st, Urls.generate_player_urls t = Ok st /\ allocation_ok t st.
Proof.
  intros Hnd.
  destruct (Urls.generate_player_urls_spec t) as (st & Hrun & Hrows & Hnew & Hfresh & Hsub & _).
  assert (Hids : NoDup (Urls.lacking_url t).*1)
    by (eapply sublist_NoDup; [exact Hnd | apply Urls.lacking_url_ids]).
  assert (Hnull : forall pid u, (pid, u) ∈ Urls.updates st ->
            exists r, r ∈ t /\ Players.id r = pid /\ Players.url r = None).
  { intros pid u Hin.
    assert (Hpid : pid ∈ (Urls.lacking_url t).*1).
    { eapply elem_of_sublist; [|exact Hsub].
      apply list_elem_of_fmap. exists (pid, u). auto. }
    apply list_elem_of_fmap in Hpid as ([pid' nm] & -> & Hp).
    apply Urls.lacking_url_elem in Hp as (r & Hr & Hu & Hid & _).
    exists r. auto. }
  exists st. split; [exact Hrun|]. unfold allocation_ok.
  split; [exact Hnew|]. split; [exact Hfresh|].
  split; [eapply sublist_NoDup; eassumption|]. split; [exact Hnull|].
  rewrite Hrows. apply Forall2_fmap_r, Forall_Forall2_diag, Forall_forall.
  intros r Hr. simpl.
  destruct (Urls.replay_row_spec (Urls.updates st) r) as [[_ ->] | (u & Hin & ->)].
  - split; auto.
  - split.
    + intros Hurl. destruct (Hnull _ _ Hin) as (r' & Hr' & Hid & Hnone).
      rewrite (Urls.id_determines_row t r r') in Hurl; auto; congruence.
    + intros _. right. eauto.
Qed.

(** A small players table: one row with a URL, two namesakes without, and a
    single-word name. *)
Definition roster_row (i : Z) (nm tm : string) (u : option string) : Players.player :=
  {| Players.id := i; Players.name := nm; Players.team := tm;
     Players.position := Some "SF"; Players.height := Some "6-9";
     Players.weight := 250; Players.birth_date := Some "December 30, 1984";
     Players.birth_country := Some "us"; Players.experience := Some "21";
     Players.college := Some ""; Players.url := u |}.

Definition four_players : list Players.player :=
  [roster_row 1 "LeBron James" "LAL"
     (Some "https://www.basketball-reference.com/players/j/jamesle01.html");
   roster_row 2 "Leon James" "BOS" None;
   roster_row 3 "Nene" "HOU" None;
   roster_row 4 "Les James" "NYK" None].

Example four_players_run :
  (fun st => (Urls.players st, Urls.updates st)) <$> Urls.generate_player_urls four_players
  = Ok ([roster_row 1 "LeBron James" "LAL"
           (Some "https://www.basketball-reference.com/players/j/jamesle01.html");
         roster_row 2 "Leon James" "BOS"
           (Some "https://www.basketball-reference.com/players/j/jamesle02.html");
         roster_row 3 "Nene" "HOU" None;
         roster_row 4 "Les James" "NYK"
           (Some "https://www.basketball-reference.com/players/j/jamesle03.html")],
        [(2, "https://www.basketball-reference.com/players/j/jamesle02.html");
         (4, "https://www.basketball-reference.com/players/j/jamesle03.html")]).
Proof. vm_compute. reflexivity. Qed.

Lemma four_players_ids : NoDup (Players.id <$> four_players).
Proof. apply (bool_decide_unpack _). vm_compute. exact I. Defined.

Lemma url_allocation_distinct_witness :
  exists st, Urls.generate_player_urls four_players = Ok st /\ allocation_ok four_players st.
Proof. apply (url_allocation_distinct four_players). exact four_players_ids. Defined.

(** What C10 says of a row [r] of the table [t] whose name has fewer than two
    parts. *)
Definition short_name_outcome (t : list Players.player) (r : Players.player) : Prop :=
  (forall ex, Urls.construct_url (Players.name r) ex = Ok None)
  /\ (forall st pid todo,
        Urls.assign st (pid, Players.name r) = Ok st
        /\ Urls.assign_all st ((pid, Players.name r) :: todo) = Urls.assign_all st todo)
  /\ exists st,
       Urls.generate_player_urls t = Ok st
       /\ r ∈ Urls.players st
       /\ (Players.id r ∉ (Urls.updates st).*1)
       /\ (forall r', r' ∈ Urls.players st -> Players.id r' = Players.id r ->
                      Players.url r' = None).

(** C10. For a row without URL whose name splits into fewer than two parts,
    in a table with distinct ids: [construct_url] returns [None] whatever
    URLs are in use; the loop iteration for that name changes nothing and
    the loop goes on with the players that follow; the whole run returns
    without raising, executes no UPDATE for the row's id, and the row is in
    the final table as it was, its url still NULL. *)
Theorem short_names_stay_without_url (t : list Players.player) (r : Players.player) :
  NoDup (Players.id <$> t) ->
  r ∈ t ->
  Players.url r = None ->
  (length (PyStr.split (Players.name r)) < 2)%nat ->
  short_name_outcome t r.
Proof.
  intros Hnd Hr Hurl Hshort.
  assert (Hnone : forall ex, Urls.construct_url (Players.name r) ex = Ok None)
    by (intros ex; now apply Urls.construct_url_short).
  assert (Hstep : forall st pid, Urls.assign st (pid, Players.name r) = Ok st)
    by (intros st pid; unfold Urls.assign; simpl; now rewrite Hnone).
  split; [exact Hnone|]. split.
  { intros st pid todo. split; [apply Hstep|]. simpl. now rewrite Hstep. }
  destruct (Urls.generate_player_urls_spec t) as (st & Hrun & Hrows & _ & _ & _ & Hlog).
  assert (Hout : Players.id r ∉ (Urls.updates st).*1).
  { intros Hin. apply list_elem_of_fmap in Hin as ([pid u] & Hid & Hin). simpl in Hid.
    rewrite Forall_forall in Hlog. destruct (Hlog _ Hin) as (nm & ex & Hp & Hc).
    simpl in Hp, Hc.
    apply Urls.lacking_url_elem in Hp as (r' & Hr' & _ & Hid' & Hnm).
    assert (r' = r) by (apply (Urls.id_determines_row t); auto; congruence).
    subst r'. rewrite <- Hnm, Hnone in Hc. discriminate. }
  assert (Hsame : forall r0, r0 ∈ t -> Players.id r0 = Players.id r ->
                             Urls.replay_row (Urls.updates st) r0 = r).
  { intros r0 Hr0 Hid.
    assert (r0 = r) by (apply (Urls.id_determines_row t); auto). subst r0.
    destruct (Urls.replay_row_spec (Urls.updates st) r) as [[_ ->] | (u & Hin & _)];
      [reflexivity|].
    exfalso. apply Hout. apply list_elem_of_fmap. exists (Players.id r, u). auto. }
  exists st. split; [exact Hrun|]. rewrite Hrows. split; [|split; [exact Hout|]].
  - apply list_elem_of_fmap. exists r. split; [|exact Hr]. symmetry. now apply Hsame.
  - intros r' Hr' Hid. apply list_elem_of_fmap in Hr' as (r0 & -> & Hr0).
    assert (Hid0 : Players.id r0 = Players.id r).
    { rewrite <- Hid. clear. induction (Urls.updates st) as [|e l IH] using rev_ind;
        [reflexivity|].
      unfold Urls.replay_row in *. rewrite fold_left_app. simpl.
      now rewrite Urls.set_url_id. }
    now rewrite (Hsame r0 Hr0 Hid0).
Qed.

Lemma short_names_stay_without_url_witness :
  short_name_outcome four_players (roster_row 3 "Nene" "HOU" None).
Proof.
  apply short_names_stay_without_url.
  - exact four_players_ids.
  - apply (list_elem_of_lookup_2 _ 2%nat). reflexivity.
  - reflexivity.
  - vm_compute. lia.
Defined.

(** ** Locating a table, in the live tree or in the comments *)

Module Locator.
Import Soup.

Section Locate.
Variable w : world.

(** The first hit of a search tried on each item in turn: the value the
    loop variable holds after [for ...: x = search(...); if x: break]. *)
Fixpoint first_some {A B} (f : A -> option B) (l : list A) : option B :=
  match l with
  | [] => None
  | a :: rest => match f a with Some b => Some b | None => first_some f rest end
  end.

(** [BeautifulSoup(comment, "html.parser").find(...)] *)
Definition find_in_comment (p : node -> bool) (c : string) : option node :=
  find p (html_parser w c).

(** The roster and schedule pattern: the live tree first, then every
    comment, re-parsed, in document order. *)
Definition locate (p : node -> bool) (soup : node) : option node :=
  match find p soup with
  | Some t => Some t
  | None => first_some (find_in_comment p) (comments soup)
  end.

Definition roster_table (soup : node) : option node :=
  locate (named_with_id "table" "roster") soup.

Definition schedule_table (soup : node) : option node :=
  locate (named_with_id "table" "schedule") soup.

(** The literal [id="switcher_per_game_stats"] (with its double quotes). *)
Definition switcher_marker : string :=
  "id=" ++ String (ascii_of_nat 34) "switcher_per_game_stats" ++ String (ascii_of_nat 34) "".

(** The per-game container of [get_player_stats]: a comment is re-parsed
    only when its text contains the marker. *)
Definition switcher_div (soup : node) : option node :=
  let p := named_with_id "div" "switcher_per_game_stats" in
  match find p soup with
  | Some d => Some d
  | None =>
      first_some (fun c => if PyStr.contains switcher_marker c
                           then find_in_comment p c else None)
                 (comments soup)
  end.

(** The per-game table: inside [div_per_game_stats] inside the container. *)
Definition per_game_table (soup : node) : option node :=
  match switcher_div soup with
  | None => None
  | Some sw =>
      match find (named_with_id "div" "div_per_game_stats") sw with
      | None => None
      | Some d => find (named_with_id "table" "per_game_stats") d
      end
  end.

(** The box-score pattern: [soup.find_all("table")] filtered on the id; the
    comments are not looked at. *)
Definition box_tables (ending : string) (soup : node) : list node :=
  List.filter (fun tbl => let tbl_id := get_str "id" "" tbl in
                          PyStr.startswith tbl_id "box-" && PyStr.endswith tbl_id ending)
              (find_all (named ["table"]) soup).

Definition basic_tables : node -> list node := box_tables "-game-basic".
Definition advanced_tables : node -> list node := box_tables "-game-advanced".

(** The document with every comment replaced by the markup it holds. *)
Definition contents_of (n : node) : list node :=
  match n with Elem _ _ cs => cs | _ => [] end.

Fixpoint uncomment (n : node) : list node :=
  match n with
  | Text s => [Text s]
  | Comment c => contents_of (html_parser w c)
  | Elem name attrs cs =>
      [Elem name attrs
         ((fix splice (l : list node) : list node :=
             match l with
             | [] => []
             | c :: l' => (uncomment c ++ splice l')%list
             end) cs)]
  end.

Definition uncomment_all (l : list node) : list node := flat_map uncomment l.

Definition uncommented (soup : node) : node :=
  match soup with
  | Elem name attrs cs => Elem name attrs (uncomment_all cs)
  | other => other
  end.

(** *** Comment wrapping is transparent to [locate] *)

Lemma find_app {A} (p : A -> bool) (l1 l2 : list A) :
  List.find p (l1 ++ l2)
  = match List.find p l1 with Some x => Some x | None => List.find p l2 end.
Proof. induction l1 as [|x l1 IH]; simpl; [reflexivity|]. now destruct (p x). Qed.

Lemma first_some_app {A B} (f : A -> option B) (l1 l2 : list A) :
  first_some f (l1 ++ l2)
  = match first_some f l1 with Some x => Some x | None => first_some f l2 end.
Proof. induction l1 as [|x l1 IH]; simpl; [reflexivity|]. now destruct (f x). Qed.

Lemma descendants_contents (n : node) : descendants n = descendants_list (contents_of n).
Proof. destruct n; [reflexivity | reflexivity | apply descendants_Elem]. Qed.

Lemma uncomment_Elem name attrs cs :
  uncomment (Elem name attrs cs) = [Elem name attrs (uncomment_all cs)].
Proof.
  reflexivity.
Qed.

(** The search of the comments under a guard [g] on the comment text. *)
Definition search_comments (g : string -> bool) (p : node -> bool) (l : list node)
  : option node :=
  first_some (fun c => if g c then find_in_comment p c else None)
             (omap comment_text (descendants_list l)).

Lemma descendants_list_single (n : node) : descendants_list [n] = n :: descendants n.
Proof. unfold descendants_list. simpl. now rewrite app_nil_r. Qed.

Lemma descendants_list_cons (n : node) (l : list node) :
  descendants_list (n :: l) = (descendants_list [n] ++ descendants_list l)%list.
Proof. now rewrite <- descendants_list_app. Qed.

Section Transparent.
Variable g : string -> bool.
Variable p : node -> bool.
Hypothesis p_tag_test : tag_test p.

(** The comments of the forest [l], in document order. *)
Definition comments_in (l : list node) : list string :=
  omap comment_text (descendants_list l).

(** The guard lets through every comment of [l] that holds a match. *)
Definition admits (l : list node) : Prop :=
  forall c, c ∈ comments_in l -> find_in_comment p c <> None -> g c = true.

(** The statement for the forest [l]. *)
Definition transparent_on (l : list node) : Prop :=
  admits l ->
  List.find p (descendants_list l) = None ->
  search_comments g p l = List.find p (descendants_list (uncomment_all l)).

Lemma comments_in_cons n l : comments_in (n :: l) = (comments_in [n] ++ comments_in l)%list.
Proof. unfold comments_in. now rewrite descendants_list_cons, omap_app. Qed.

Lemma transparent_forest (l : list node) :
  Forall (fun n => transparent_on [n]) l -> transparent_on l.
Proof.
  induction 1 as [|n l Hn _ IH]; intros Hg Hlive; [reflexivity|].
  assert (Hgn : admits [n]).
  { intros c Hc. apply Hg. rewrite comments_in_cons. apply elem_of_app. now left. }
  assert (Hgl : admits l).
  { intros c Hc. apply Hg. rewrite comments_in_cons. apply elem_of_app. now right. }
  rewrite descendants_list_cons, find_app in Hlive.
  destruct (List.find p (descendants_list [n])) eqn:Hfn; [discriminate|].
  unfold transparent_on, search_comments in *.
  rewrite descendants_list_cons, omap_app, first_some_app.
  change (uncomment_all (n :: l)) with (uncomment n ++ uncomment_all l)%list.
  rewrite descendants_list_app, find_app.
  rewrite (Hn Hgn Hfn), (IH Hgl Hlive).
  unfold uncomment_all. simpl. now rewrite app_nil_r.
Qed.

Lemma transparent_node (n : node) : transparent_on [n].
Proof.
  destruct p_tag_test as (HT & HC & HE).
  induction n as [s|s|name attrs cs IH] using node_forest_ind; intros Hg Hlive.
  - unfold search_comments. simpl. now rewrite HT.
  - assert (Hs : find_in_comment p s <> None -> g s = true).
    { apply Hg. unfold comments_in. simpl. left. }
    unfold search_comments. simpl.
    rewrite app_nil_r, <- descendants_contents. fold (find p (html_parser w s)).
    fold (find_in_comment p s).
    destruct (find_in_comment p s) as [t|] eqn:Hf.
    + assert (g s = true) as -> by (apply Hs; discriminate).
      reflexivity.
    + now destruct (g s).
  - apply transparent_forest in IH.
    assert (Hgc : admits cs).
    { intros c Hc. apply Hg. unfold comments_in in *.
      now rewrite descendants_list_single, descendants_Elem. }
    rewrite descendants_list_single, descendants_Elem in Hlive. simpl in Hlive.
    destruct (p (Elem name attrs cs)) eqn:Hp; [discriminate|].
    unfold transparent_on, search_comments in *.
    rewrite descendants_list_single, descendants_Elem.
    etransitivity; [exact (IH Hgc Hlive)|].
    change (uncomment_all [Elem name attrs cs])
      with (uncomment (Elem name attrs cs) ++ [])%list.
    rewrite app_nil_r, uncomment_Elem, descendants_list_single, descendants_Elem.
    simpl List.find. now rewrite (HE name attrs _ cs), Hp.
Qed.

Lemma search_comments_uncomment (l : list node) : transparent_on l.
Proof. apply transparent_forest, Forall_forall. intros n _. apply transparent_node. Qed.

End Transparent.

Lemma locate_uncommented (p : node -> bool) (soup : node) :
  tag_test p ->
  find p soup = None ->
  locate p soup = find p (uncommented soup).
Proof.
  intros Hp Hlive. unfold locate. rewrite Hlive.
  unfold find in *. rewrite descendants_contents in Hlive.
  rewrite (descendants_contents (uncommented soup)).
  replace (contents_of (uncommented soup)) with (uncomment_all (contents_of soup))
    by (destruct soup; reflexivity).
  rewrite <- (search_comments_uncomment (fun _ => true) p Hp) by (auto; now intros c).
  unfold search_comments, comments. rewrite descendants_contents.
  reflexivity.
Qed.

(** The per-game container is found in a comment as if it were live, when
    every comment of the document that holds it carries the marker. *)
Lemma switcher_uncommented (soup : node) :
  let p := named_with_id "div" "switcher_per_game_stats" in
  find p soup = None ->
  (forall c, c ∈ comments soup -> find_in_comment p c <> None ->
             PyStr.contains switcher_marker c = true) ->
  switcher_div soup = find p (uncommented soup).
Proof.
  intros p Hlive Hmark. unfold switcher_div. fold p. rewrite Hlive.
  unfold find in *. rewrite descendants_contents in Hlive.
  rewrite (descendants_contents (uncommented soup)).
  replace (contents_of (uncommented soup)) with (uncomment_all (contents_of soup))
    by (destruct soup; reflexivity).
  rewrite <- (search_comments_uncomment (PyStr.contains switcher_marker) p
                (named_with_id_tag_test _ _)); [| |exact Hlive].
  - unfold search_comments, comments. rewrite descendants_contents. reflexivity.
  - intros c Hc. apply Hmark. unfold comments. now rewrite descendants_contents.
Qed.

Lemma first_some_guard {A B} (g : A -> bool) (f : A -> option B) (l : list A) :
  first_some (fun a => if g a then f a else None) l = first_some f (List.filter g l).
Proof.
  induction l as [|a l IH]; simpl; [reflexivity|].
  destruct (g a); simpl; [now rewrite IH | exact IH].
Qed.

(** Only the comments that carry the marker are parsed: the container comes
    from the first of them that holds it. *)
Lemma switcher_marked_only (soup : node) :
  let p := named_with_id "div" "switcher_per_game_stats" in
  find p soup = None ->
  switcher_div soup
  = first_some (find_in_comment p)
      (List.filter (PyStr.contains switcher_marker) (comments soup)).
Proof.
  intros p Hlive. unfold switcher_div. fold p. rewrite Hlive. apply first_some_guard.
Qed.

(** The box-score tables returned are nodes of the live tree. *)
Lemma box_tables_live (ending : string) (soup tbl : node) :
  tbl ∈ box_tables ending soup -> tbl ∈ descendants soup /\ named ["table"] tbl = true.
Proof.
  unfold box_tables, find_all. intros H.
  apply list_elem_of_In, filter_In in H as [H _].
  apply filter_In in H as [H1 H2]. split; [now apply list_elem_of_In | exact H2].
Qed.

End Locate.
End Locator.

(** ** The schedule driver ([scrape_bball_ref-game-logs.py]) *)

Module GameLogs.
Import Soup.

(** A row of [gamelogs]; the autoincrement id is only ever selected to test
    that a row exists, and is left out. *)
Record gamelog := {
  season_year : Z;
  month : string;
  game_date : string;
  start_et : string;
  visitor_team : string;
  visitor_pts : Z;
  home_team : string;
  home_pts : Z;
  box_score_link : option string;
  overtime : string;
  attendance : string;
  notes : string
}.

(** The cell texts of one schedule row, the points still text. *)
Record game := {
  g_date : string;
  g_start : string;
  g_visitor : string;
  g_visitor_pts : string;
  g_home : string;
  g_home_pts : string;
  g_link : option string;
  g_overtime : string;
  g_attendance : string;
  g_notes : string
}.

(** [text or "0"] *)
Definition or_zero (text : string) : string :=
  if PyStr.is_empty text then "0" else text.

(** The reading half of the loop body; [None] is [continue]. *)
Definition read_row (row : node) : option game :=
  match find_all (named ["th"; "td"]) row with
  | c0 :: c1 :: c2 :: c3 :: c4 :: c5 :: c6 :: c7 :: c8 :: more =>
      Some {| g_date := get_text c0;
              g_start := get_text c1;
              g_visitor := get_text c2;
              g_visitor_pts := or_zero (get_text c3);
              g_home := get_text c4;
              g_home_pts := or_zero (get_text c5);
              g_link := match find (named ["a"]) c6 with
                        | Some link_tag => Some (Urls.origin ++ get_str "href" "" link_tag)
                        | None => None
                        end;
              g_overtime := get_text c7;
              g_attendance := get_text c8;
              g_notes := match more with c9 :: _ => get_text c9 | [] => "" end |}
  | _ => None
  end.

(** [SELECT id FROM gamelogs WHERE game_date = ? AND visitor_team = ? AND
    home_team = ?] returns a row. *)
Definition same_game (g : game) (r : gamelog) : bool :=
  String.eqb (game_date r) (g_date g)
  && String.eqb (visitor_team r) (g_visitor g)
  && String.eqb (home_team r) (g_home g).

Definition existing (g : game) (t : list gamelog) : bool := existsb (same_game g) t.

(** The writing half: skip a duplicate, else coerce the points and insert.
    The two [int] calls run when the parameters are built; binding a score
    outside 64 bits then raises OverflowError.  (The year is one of the
    driver's 2004..2025.) *)
Definition insert_game (year : nat) (mon : string) (t : list gamelog) (g : game)
  : result (list gamelog) :=
  if existing g t then Ok t
  else
    match PyStr.int_of_str (g_visitor_pts g), PyStr.int_of_str (g_home_pts g) with
    | Some v, Some h =>
        if fits_int64 v && fits_int64 h
        then
          Ok (t ++ [{| season_year := Z.of_nat year; month := PyStr.capitalize mon;
                       game_date := g_date g; start_et := g_start g;
                       visitor_team := g_visitor g; visitor_pts := v;
                       home_team := g_home g; home_pts := h;
                       box_score_link := g_link g; overtime := g_overtime g;
                       attendance := g_attendance g; notes := g_notes g |}])%list
        else Raise OverflowError
    | _, _ => Raise ValueError
    end.

Fixpoint insert_games (year : nat) (mon : string) (t : list gamelog) (gs : list game)
  : result (list gamelog) :=
  match gs with
  | [] => Ok t
  | g :: rest => t' ← insert_game year mon t g; insert_games year mon t' rest
  end.

Section Driver.
Variable w : world.

Definition schedule_url (year : nat) (mon : string) : string :=
  Urls.origin ++ "/leagues/NBA_" ++ PyStr.decimal year ++ "_games-" ++ mon ++ ".html".

(** The rows the loop runs over; [None] when one of the early returns is
    taken (no table, no body, no rows). *)
Definition schedule_rows (soup : node) : option (list node) :=
  match Locator.schedule_table w soup with
  | None => None
  | Some schedule_table =>
      match find (named ["tbody"]) schedule_table with
      | None => None
      | Some tbody =>
          match find_all (fun n => named ["tr"] n && class_differs "thead" n) tbody with
          | [] => None
          | rows => Some rows
          end
      end
  end.

(** One call, from the table as it is to the table after the commit.  A
    raised exception leaves before the commit: nothing of the call is kept. *)
Definition scrape_month_schedule_to_db (year : nat) (mon : string) (t : list gamelog)
  : result (list gamelog) :=
  match http_get w (schedule_url year mon) with
  | None => Ok t
  | Some text =>
      match schedule_rows (html_parser w text) with
      | None => Ok t
      | Some rows => insert_games year mon t (omap read_row rows)
      end
  end.

End Driver.

(** *** A second run inserts nothing *)

Lemma existing_app g t t' : existing g (t ++ t') = existing g t || existing g t'.
Proof. unfold existing. apply existsb_app. Qed.

Lemma insert_game_grows year mon t g t' :
  insert_game year mon t g = Ok t' ->
  existing g t' = true /\ exists added, t' = (t ++ added)%list.
Proof.
  unfold insert_game. destruct (existing g t) eqn:He.
  - intros [= <-]. split; [exact He|]. exists []. now rewrite app_nil_r.
  - destruct (PyStr.int_of_str (g_visitor_pts g)) as [v|]; [|discriminate].
    destruct (PyStr.int_of_str (g_home_pts g)) as [h|]; [|discriminate].
    destruct (fits_int64 v && fits_int64 h); [|discriminate].
    intros [= <-]. split; [|eauto].
    rewrite existing_app. unfold existing at 2, same_game. simpl.
    now rewrite !String.eqb_refl, orb_true_r.
Qed.

Lemma insert_games_grows year mon gs : forall t t',
  insert_games year mon t gs = Ok t' ->
  Forall (fun g => existing g t' = true) gs /\ exists added, t' = (t ++ added)%list.
Proof.
  induction gs as [|g gs IH]; intros t t' H; simpl in H.
  - injection H as <-. split; [constructor|]. exists []. now rewrite app_nil_r.
  - apply bind_Ok_inv in H as (t1 & H1 & H2).
    apply insert_game_grows in H1 as (Hg & added1 & ->).
    apply IH in H2 as (Hall & added2 & ->).
    split.
    + constructor; [|exact Hall]. rewrite existing_app, Hg. reflexivity.
    + exists (added1 ++ added2)%list. now rewrite app_assoc.
Qed.

Lemma insert_games_all_existing year mon gs t :
  Forall (fun g => existing g t = true) gs -> insert_games year mon t gs = Ok t.
Proof.
  induction 1 as [|g gs Hg _ IH]; simpl; [reflexivity|].
  unfold insert_game. rewrite Hg. simpl. exact IH.
Qed.

(** Running the schedule driver again on the table it produced changes
    nothing. *)
Lemma scrape_month_schedule_idempotent w year mon t t' :
  scrape_month_schedule_to_db w year mon t = Ok t' ->
  scrape_month_schedule_to_db w year mon t' = Ok t'.
Proof.
  unfold scrape_month_schedule_to_db.
  destruct (http_get w (schedule_url year mon)) as [text|]; [|now intros [= <-]].
  destruct (schedule_rows w (html_parser w text)) as [rows|]; [|now intros [= <-]].
  intros H. apply insert_games_grows in H as [H _].
  now apply insert_games_all_existing.
Qed.

End GameLogs.

(** ** The opening-night schedule row *)

Module OpeningNight.
Import Soup.

Definition link_cell (stat href text : string) : node :=
  el "td" [("data-stat", stat)] [el "a" [("href", href)] [Text text]].

(** The body row of the scenario, as the site lays it out. *)
Definition schedule_row : node :=
  el "tr" []
    [el "th" [("data-stat", "date_game")]
       [el "a" [("href", "/boxscores/index.cgi?month=10&day=22&year=2024")]
          [Text "Tue, Oct 22, 2024"]];
     td "game_start_time" "7:30p";
     link_cell "visitor_team_name" "/teams/NYK/2025.html" "New York Knicks";
     td "visitor_pts" "109";
     link_cell "home_team_name" "/teams/BOS/2025.html" "Boston Celtics";
     td "home_pts" "132";
     link_cell "box_score_text" "/boxscores/202410220BOS.html" "Box Score";
     td "overtimes" "";
     td "attendance" "19156";
     td "game_remarks" ""].

Definition schedule_page : node :=
  Elem "[document]" []
    [el "div" [("id", "content")]
       [el "table" [("id", "schedule")]
          [el "thead" [] [el "tr" [] [el "th" [] [Text "Date"]]];
           el "tbody" [] [schedule_row]]]].

(** A site that serves this page for October of the 2025 season. *)
Definition site : world :=
  {| http_get := fun url =>
       if String.eqb url "https://www.basketball-reference.com/leagues/NBA_2025_games-october.html"
       then Some "october" else None;
     html_parser := fun _ => schedule_page;
     float_of_str := Demo.demo_float |}.

Definition opening_game : GameLogs.game :=
  {| GameLogs.g_date := "Tue, Oct 22, 2024"; GameLogs.g_start := "7:30p";
     GameLogs.g_visitor := "New York Knicks"; GameLogs.g_visitor_pts := "109";
     GameLogs.g_home := "Boston Celtics"; GameLogs.g_home_pts := "132";
     GameLogs.g_link := Some "https://www.basketball-reference.com/boxscores/202410220BOS.html";
     GameLogs.g_overtime := ""; GameLogs.g_attendance := "19156";
     GameLogs.g_notes := "" |}.

Definition opening_row : GameLogs.gamelog :=
  {| GameLogs.season_year := 2025; GameLogs.month := "October";
     GameLogs.game_date := "Tue, Oct 22, 2024"; GameLogs.start_et := "7:30p";
     GameLogs.visitor_team := "New York Knicks"; GameLogs.visitor_pts := 109;
     GameLogs.home_team := "Boston Celtics"; GameLogs.home_pts := 132;
     GameLogs.box_score_link :=
       Some "https://www.basketball-reference.com/boxscores/202410220BOS.html";
     GameLogs.overtime := ""; GameLogs.attendance := "19156"; GameLogs.notes := "" |}.

Lemma page_rows :
  http_get site (GameLogs.schedule_url 2025 "october") = Some "october"
  /\ match GameLogs.schedule_rows site schedule_page with
     | Some rows => omap GameLogs.read_row rows = [opening_game]
     | None => False
     end.
Proof. split; vm_compute; reflexivity. Qed.

Lemma scrape_is_insert (t : list GameLogs.gamelog) :
  GameLogs.scrape_month_schedule_to_db site 2025 "october" t
  = GameLogs.insert_game 2025 "october" t opening_game.
Proof.
  destruct page_rows as [Hget Hrows].
  unfold GameLogs.scrape_month_schedule_to_db. rewrite Hget.
  change (html_parser site "october") with schedule_page.
  destruct (GameLogs.schedule_rows site schedule_page) as [rows|]; [|contradiction].
  rewrite Hrows. simpl.
  now destruct (GameLogs.insert_game 2025 "october" t opening_game).
Qed.

End OpeningNight.

(** C4. On a table that holds no game of Tue, Oct 22, 2024 between the
    New York Knicks (visitor) and the Boston Celtics (home), ingesting the
    schedule page with the scenario's row appends exactly one row, with
    visitor_pts 109, home_pts 132 and the box-score link made of the site
    origin and the href; ingesting the same page again returns the table
    unchanged. *)
Theorem schedule_row_ingested_once (t : list GameLogs.gamelog) :
  GameLogs.existing OpeningNight.opening_game t = false ->
  let t' := (t ++ [OpeningNight.opening_row])%list in
  GameLogs.scrape_month_schedule_to_db OpeningNight.site 2025 "october" t = Ok t'
  /\ GameLogs.home_pts OpeningNight.opening_row = 132
  /\ GameLogs.visitor_pts OpeningNight.opening_row = 109
  /\ GameLogs.box_score_link OpeningNight.opening_row
     = Some (Urls.origin ++ "/boxscores/202410220BOS.html")
  /\ length t' = S (length t)
  /\ GameLogs.scrape_month_schedule_to_db OpeningNight.site 2025 "october" t' = Ok t'.
Proof.
  intros Hnew t'.
  assert (Hfirst : GameLogs.scrape_month_schedule_to_db OpeningNight.site 2025 "october" t
                   = Ok t').
  { rewrite OpeningNight.scrape_is_insert. unfold GameLogs.insert_game.
    rewrite Hnew. reflexivity. }
  split; [exact Hfirst|]. repeat split.
  - unfold t'. rewrite length_app. simpl. lia.
  - now apply GameLogs.scrape_month_schedule_idempotent in Hfirst.
Qed.

Lemma schedule_row_ingested_once_witness :
  GameLogs.scrape_month_schedule_to_db OpeningNight.site 2025 "october" []
  = Ok [OpeningNight.opening_row]
  /\ GameLogs.home_pts OpeningNight.opening_row = 132
  /\ GameLogs.visitor_pts OpeningNight.opening_row = 109
  /\ GameLogs.box_score_link OpeningNight.opening_row
     = Some (Urls.origin ++ "/boxscores/202410220BOS.html")
  /\ length [OpeningNight.opening_row] = 1%nat
  /\ GameLogs.scrape_month_schedule_to_db OpeningNight.site 2025 "october"
       [OpeningNight.opening_row]
     = Ok [OpeningNight.opening_row].
Proof. apply (schedule_row_ingested_once []). reflexivity. Defined.

(** ** The box-score driver ([scrape_box_scores_for_all_games]) *)

Module BoxDriver.
Import Soup BoxScore.

(** The value the REAL columns keep of a row. *)
Definition stored (r : box_row) : box_row :=
  {| box_score_link := box_score_link r; team := team r; player_name := player_name r;
     starter := starter r; mp := mp r; fg := fg r; fga := fga r;
     fg_pct := PFloat (real_affinity (fg_pct r)); threep := threep r;
     threepa := threepa r; threep_pct := PFloat (real_affinity (threep_pct r));
     ft := ft r; fta := fta r; ft_pct := PFloat (real_affinity (ft_pct r));
     orb := orb r; drb := drb r; trb := trb r; ast := ast r; stl := stl r;
     blk := blk r; tov := tov r; pf := pf r; pts := pts r;
     plus_minus := plus_minus r |}.

(** The conflict test of [UNIQUE(box_score_link, team, player_name)]. *)
Definition same_key (a b : box_row) : bool :=
  String.eqb (box_score_link a) (box_score_link b)
  && String.eqb (team a) (team b)
  && String.eqb (player_name a) (player_name b).

(** The numbers of the row can be bound to the INSERT. *)
Definition bindable (r : box_row) : bool :=
  fits_int64 (starter r)
  && forallb (fun kp => fits_int64 (snd kp r)) int_fields
  && forallb (fun kp => bindable_num (snd kp r)) float_fields.

(** [INSERT OR IGNORE] of one row; the parameters are bound before the
    conflict is looked for. *)
Definition insert_or_ignore (t : list box_row) (r : box_row) : result (list box_row) :=
  if bindable r
  then Ok (if existsb (same_key r) t then t else (t ++ [stored r])%list)
  else Raise OverflowError.

(** The loop up to its commit: an exception leaves before the commit, and
    nothing of the batch is kept. *)
Fixpoint store_box_score_rows (rows : list box_row) (t : list box_row)
  : result (list box_row) :=
  match rows with
  | [] => Ok t
  | r :: rest => t' ← insert_or_ignore t r; store_box_score_rows rest t'
  end.

(** The values not in [seen], each once, in the order they first occur. *)
Fixpoint first_occurrences (seen : list string) (l : list string) : list string :=
  match l with
  | [] => []
  | x :: rest =>
      if existsb (String.eqb x) seen then first_occurrences seen rest
      else x :: first_occurrences (x :: seen) rest
  end.

(** [SELECT DISTINCT box_score_link FROM gamelogs WHERE box_score_link IS NOT
    NULL]: SQLite returns each link where the scan of the table meets it
    first. *)
Definition distinct_links (games : list GameLogs.gamelog) : list string :=
  first_occurrences [] (omap GameLogs.box_score_link games).

Lemma first_occurrences_elem l : forall seen x, In x (first_occurrences seen l) -> In x l.
Proof.
  induction l as [|y l IH]; intros seen x; simpl; [auto|].
  destruct (existsb (String.eqb y) seen).
  - intros H. right. eapply IH. exact H.
  - intros [H|H]; [now left | right; eapply IH; exact H].
Qed.

Section Driver.
Variable w : world.

(** The team label: the caption without its fixed ending, else the id. *)
Definition team_label (ending : string) (tbl : node) : string :=
  match find (named ["caption"]) tbl with
  | Some caption => PyStr.replace (get_text caption) ending ""
  | None => get_str "id" "" tbl
  end.

Fixpoint parse_tables (link : string) (tbls : list node) : result (list box_row) :=
  match tbls with
  | [] => Ok []
  | tbl :: rest =>
      data_rows ← parse_box_score_table w tbl link
                    (team_label " Basic and Advanced Stats" tbl);
      more ← parse_tables link rest;
      Ok (data_rows ++ more)%list
  end.

(** Only the request is inside the [try]. *)
Definition scrape_single_box_score (link : string) : result (list box_row) :=
  if PyStr.is_empty link then Ok []
  else match http_get w link with
       | None => Ok []
       | Some text => parse_tables link (Locator.basic_tables (html_parser w text))
       end.

(** The loop over the links.  Each [store_box_score_rows] commits, so the
    table reached when an exception leaves the loop is what stays stored. *)
Fixpoint process_links (links : list string) (t : list box_row)
  : list box_row * option exn :=
  match links with
  | [] => (t, None)
  | link :: rest =>
      if PyStr.is_empty link then process_links rest t
      else match scrape_single_box_score link with
           | Raise e => (t, Some e)
           | Ok rows =>
               if PyStr.is_nil rows then process_links rest t
               else match store_box_score_rows rows t with
                    | Ok t' => process_links rest t'
                    | Raise e => (t, Some e)
                    end
           end
  end.

Definition scrape_box_scores_for_all_games (games : list GameLogs.gamelog)
    (t : list box_row) : list box_row * option exn :=
  process_links (distinct_links games) t.

(** *** How a coercion failure travels *)

Lemma int_stat_error row k e : int_stat row k = Raise e -> e = ValueError.
Proof.
  unfold int_stat, int_or_zero. destruct (stat_cell row k) as [cell|]; [|discriminate].
  destruct (PyStr.is_empty _); [discriminate|].
  destruct (PyStr.int_of_str _); [discriminate|]. now intros [= <-].
Qed.

Lemma float_stat_error row k e : float_stat w row k = Raise e -> e = ValueError.
Proof.
  unfold float_stat, float_or_zero. destruct (stat_cell row k) as [cell|]; [|discriminate].
  destruct (PyStr.is_empty _); [discriminate|].
  destruct (float_of_str w _); [discriminate|]. now intros [= <-].
Qed.

Ltac next_stat :=
  match goal with
  | |- context [int_stat ?r ?k] =>
      let E := fresh "E" in
      destruct (int_stat r k) eqn:E; cbn [mbind result_bind];
      [| intros [= <-]; exact (int_stat_error _ _ _ E)]
  | |- context [float_stat w ?r ?k] =>
      let E := fresh "E" in
      destruct (float_stat w r k) eqn:E; cbn [mbind result_bind];
      [| intros [= <-]; exact (float_stat_error _ _ _ E)]
  end.

Lemma row_dict_error link team_name name row e :
  row_dict w link team_name name row = Raise e -> e = ValueError.
Proof. unfold row_dict. repeat next_stat. discriminate. Qed.

Lemma parse_row_error link team_name row e :
  parse_row w link team_name row = Raise e -> e = ValueError.
Proof.
  rewrite parse_row_retained. destruct (retained row); [|discriminate].
  destruct (player_text row) as [name|]; [|discriminate].
  destruct (row_dict w link team_name name row) eqn:E; [discriminate|].
  intros [= <-]. exact (row_dict_error _ _ _ _ _ E).
Qed.

Lemma parse_rows_error link team_name rows e :
  parse_rows w link team_name rows = Raise e -> e = ValueError.
Proof.
  induction rows as [|row rows IH]; simpl; [discriminate|].
  destruct (parse_row w link team_name row) eqn:E; cbn [mbind result_bind].
  - destruct (parse_rows w link team_name rows); cbn [mbind result_bind];
      [discriminate|]. intros [= <-]. now apply IH.
  - intros [= <-]. exact (parse_row_error _ _ _ _ E).
Qed.

(** A retained row whose dict cannot be built makes the extractor raise. *)
Lemma parse_table_raises tbl link team_name row name :
  row ∈ body_rows tbl ->
  retained row = true ->
  player_text row = Some name ->
  row_dict w link team_name name row = Raise ValueError ->
  parse_box_score_table w tbl link team_name = Raise ValueError.
Proof.
  intros Hin Hret Hname Hraise. unfold parse_box_score_table.
  destruct (parse_rows w link team_name (body_rows tbl)) as [ds|e] eqn:E.
  - exfalso. apply parse_rows_spec in E as (_ & _ & E).
    assert (Hrow : row ∈ List.filter retained (body_rows tbl)).
    { apply list_elem_of_In, filter_In. split; [now apply list_elem_of_In | exact Hret]. }
    apply list_elem_of_lookup in Hrow as (i & Hi).
    destruct (Forall2_lookup_r _ _ _ _ _ E Hi) as (d & _ & name' & Hname' & Hd).
    congruence.
  - f_equal. exact (parse_rows_error _ _ _ _ E).
Qed.

Lemma parse_tables_error link tbls e :
  parse_tables link tbls = Raise e -> e = ValueError.
Proof.
  induction tbls as [|tbl tbls IH]; simpl; [discriminate|].
  destruct (parse_box_score_table w tbl link _) eqn:E; cbn [mbind result_bind].
  - destruct (parse_tables link tbls); cbn [mbind result_bind]; [discriminate|].
    intros [= <-]. now apply IH.
  - intros [= <-]. exact (parse_rows_error _ _ _ _ E).
Qed.

Lemma parse_tables_raises link tbls tbl :
  tbl ∈ tbls ->
  parse_box_score_table w tbl link (team_label " Basic and Advanced Stats" tbl)
  = Raise ValueError ->
  parse_tables link tbls = Raise ValueError.
Proof.
  intros Hin Hraise.
  destruct (parse_tables link tbls) as [rows|e] eqn:E;
    [|f_equal; exact (parse_tables_error _ _ _ E)].
  exfalso. revert rows E. induction Hin as [tbl tbls | tbl other tbls _ IH];
    intros rows E; simpl in E.
  - rewrite Hraise in E. discriminate.
  - apply bind_Ok_inv in E as (r1 & _ & E). apply bind_Ok_inv in E as (r2 & E & _).
    eapply IH; eassumption.
Qed.

(** The loop stops at the first link whose scrape raises. *)
Lemma process_links_stops pre : forall t t1 link post e,
  process_links pre t = (t1, None) ->
  link <> "" ->
  scrape_single_box_score link = Raise e ->
  process_links (pre ++ link :: post) t = (t1, Some e).
Proof.
  induction pre as [|l pre IH]; intros t t1 link post e Hpre Hne Hraise; simpl in *.
  - injection Hpre as <-. destruct link; [congruence|]. simpl.
    change (scrape_single_box_score (String a link) = Raise e) in Hraise.
    now rewrite Hraise.
  - destruct (PyStr.is_empty l); [now apply IH|].
    destruct (scrape_single_box_score l) as [rows|]; [|discriminate].
    destruct (PyStr.is_nil rows); [now apply IH|].
    destruct (store_box_score_rows rows t); [now apply IH | discriminate].
Qed.

End Driver.
End BoxDriver.

(** ** A malformed numeric cell and the box-score driver *)

(** The text [text] of the cell for [k] is rejected by the coercion of its
    field: [int] for the integer fields, [float] for the float fields. *)
Definition rejected (w : world) (k text : string) : Prop :=
  (In k (List.map fst BoxScore.int_fields) /\ PyStr.int_of_str text = None)
  \/ (In k (List.map fst BoxScore.float_fields) /\ float_of_str w text = None).

Lemma rejected_cell_raises w row k cell link team name :
  stat_cell row k = Some cell ->
  Soup.get_text cell <> "" ->
  rejected w k (Soup.get_text cell) ->
  BoxScore.row_dict w link team name row = Raise ValueError.
Proof.
  intros Hcell Hne Hrej.
  assert (Hnonempty : PyStr.is_empty (Soup.get_text cell) = false)
    by (destruct (Soup.get_text cell); [congruence | reflexivity]).
  destruct (BoxScore.row_dict w link team name row) as [d|e] eqn:E;
    [|f_equal; exact (BoxDriver.row_dict_error _ _ _ _ _ _ E)].
  exfalso. apply BoxScore.row_dict_fields in E as (_ & _ & _ & _ & _ & Hint & Hfl).
  rewrite List.Forall_forall in Hint, Hfl.
  destruct Hrej as [[Hk Hbad] | [Hk Hbad]];
    apply in_map_iff in Hk as ([k' p] & <- & Hin); simpl in Hcell.
  - specialize (Hint _ Hin). simpl in Hint.
    unfold int_stat, int_or_zero in Hint. rewrite Hcell, Hnonempty, Hbad in Hint.
    discriminate.
  - specialize (Hfl _ Hin). simpl in Hfl.
    unfold float_stat, float_or_zero in Hfl. rewrite Hcell, Hnonempty, Hbad in Hfl.
    discriminate.
Qed.

(** C9 (amended). When a retained row of a basic box-score table has a
    numeric cell whose non-empty text the field's coercion rejects, building
    the row raises ValueError instead of storing a zero; nothing catches it,
    so [scrape_single_box_score] raises for that link and the driver ends
    there with the exception: the table is as the links before it left it,
    and neither this link nor any later one is stored. *)
Theorem non_numeric_cell_stops_driver (w : world) (games : list GameLogs.gamelog)
    (t t1 : list BoxScore.box_row) (pre post : list string) (link page : string)
    (tbl row cell : Soup.node) (k : string) :
  BoxDriver.distinct_links games = (pre ++ link :: post)%list ->
  BoxDriver.process_links w pre t = (t1, None) ->
  link <> "" ->
  http_get w link = Some page ->
  tbl ∈ Locator.basic_tables (html_parser w page) ->
  row ∈ BoxScore.body_rows tbl ->
  BoxScore.retained row = true ->
  stat_cell row k = Some cell ->
  Soup.get_text cell <> "" ->
  rejected w k (Soup.get_text cell) ->
  (forall link' team name, BoxScore.row_dict w link' team name row = Raise ValueError)
  /\ BoxDriver.scrape_single_box_score w link = Raise ValueError
  /\ BoxDriver.scrape_box_scores_for_all_games w games t = (t1, Some ValueError).
Proof.
  intros Hlinks Hpre Hlink Hget Htbl Hrow Hret Hcell Hne Hrej.
  assert (Hdict : forall link' team name,
             BoxScore.row_dict w link' team name row = Raise ValueError)
    by (intros; eapply rejected_cell_raises; eassumption).
  assert (Hsingle : BoxDriver.scrape_single_box_score w link = Raise ValueError).
  { unfold BoxDriver.scrape_single_box_score.
    destruct link; [congruence|]. simpl PyStr.is_empty. cbv iota. rewrite Hget.
    destruct (BoxScore.retained_name _ Hret) as (name & Hname & _).
    eapply BoxDriver.parse_tables_raises; [exact Htbl|].
    eapply BoxDriver.parse_table_raises; eauto. }
  split; [exact Hdict|]. split; [exact Hsingle|].
  unfold BoxDriver.scrape_box_scores_for_all_games. rewrite Hlinks.
  now apply BoxDriver.process_links_stops.
Qed.

Module TwoGames.
Import Soup.

Definition celtics_link : string :=
  "https://www.basketball-reference.com/boxscores/202410220BOS.html".
Definition lakers_link : string :=
  "https://www.basketball-reference.com/boxscores/202410220LAL.html".

Definition bad_cell : node := td "fg" "n/a".

Definition bad_row : node :=
  tr_class ["starter"]
    [el "th" [("data-stat", "player")] [Text "Jayson Tatum"]; bad_cell; td "pts" "37"].

Definition bad_table : node :=
  el "table" [("id", "box-BOS-game-basic")] [el "tbody" [] [bad_row]].

Definition good_table : node :=
  el "table" [("id", "box-LAL-game-basic")]
    [el "caption" [] [Text "Los Angeles Lakers Basic and Advanced Stats"];
     el "tbody" []
       [el "tr" [] [el "th" [("data-stat", "player")] [Text "Anthony Davis"];
                    td "mp" "37:26"; td "pts" "36"]]].

Definition site : world :=
  {| http_get := fun url =>
       if String.eqb url celtics_link then Some "celtics"
       else if String.eqb url lakers_link then Some "lakers" else None;
     html_parser := fun text =>
       Elem "[document]" []
         [if String.eqb text "celtics" then bad_table else good_table];
     float_of_str := Demo.demo_float |}.

Definition game (link : string) : GameLogs.gamelog :=
  {| GameLogs.season_year := 2025; GameLogs.month := "October";
     GameLogs.game_date := "Tue, Oct 22, 2024"; GameLogs.start_et := "7:30p";
     GameLogs.visitor_team := "Visitor"; GameLogs.visitor_pts := 100;
     GameLogs.home_team := link; GameLogs.home_pts := 110;
     GameLogs.box_score_link := Some link; GameLogs.overtime := "";
     GameLogs.attendance := ""; GameLogs.notes := "" |}.

(** A game log that lists the Celtics game twice. *)
Definition games : list GameLogs.gamelog :=
  [game celtics_link; game lakers_link; game celtics_link].

Definition davis_line : BoxScore.box_row :=
  {| BoxScore.box_score_link := lakers_link; BoxScore.team := "Los Angeles Lakers";
     BoxScore.player_name := "Anthony Davis"; BoxScore.starter := 0;
     BoxScore.mp := Some "37:26"; BoxScore.fg := 0; BoxScore.fga := 0;
     BoxScore.fg_pct := PInt 0; BoxScore.threep := 0; BoxScore.threepa := 0;
     BoxScore.threep_pct := PInt 0; BoxScore.ft := 0; BoxScore.fta := 0;
     BoxScore.ft_pct := PInt 0; BoxScore.orb := 0; BoxScore.drb := 0;
     BoxScore.trb := 0; BoxScore.ast := 0; BoxScore.stl := 0; BoxScore.blk := 0;
     BoxScore.tov := 0; BoxScore.pf := 0; BoxScore.pts := 36;
     BoxScore.plus_minus := 0 |}.

Example lakers_alone :
  BoxDriver.scrape_box_scores_for_all_games site [game lakers_link] []
  = ([BoxDriver.stored davis_line], None).
Proof. vm_compute. reflexivity. Qed.

End TwoGames.

Lemma non_numeric_cell_stops_driver_witness :
  (forall link' team name,
      BoxScore.row_dict TwoGames.site link' team name TwoGames.bad_row = Raise ValueError)
  /\ BoxDriver.scrape_single_box_score TwoGames.site TwoGames.celtics_link
     = Raise ValueError
  /\ BoxDriver.scrape_box_scores_for_all_games TwoGames.site TwoGames.games []
     = ([], Some ValueError).
Proof.
  apply (non_numeric_cell_stops_driver TwoGames.site TwoGames.games [] [] []
           [TwoGames.lakers_link] TwoGames.celtics_link "celtics"
           TwoGames.bad_table TwoGames.bad_row TwoGames.bad_cell "fg").
  - vm_compute. reflexivity.
  - reflexivity.
  - discriminate.
  - reflexivity.
  - apply (list_elem_of_lookup_2 _ 0%nat). reflexivity.
  - apply (list_elem_of_lookup_2 _ 0%nat). reflexivity.
  - reflexivity.
  - reflexivity.
  - discriminate.
  - left. split; [simpl; auto | reflexivity].
Defined.

(** C9 as stated fails: with the Celtics link first and its page holding the
    cell n/a for [fg], the driver returns with ValueError and an empty
    table, although the Lakers link that follows scrapes to one line. *)
Lemma driver_aborts_on_bad_cell :
  BoxDriver.distinct_links TwoGames.games = [TwoGames.celtics_link; TwoGames.lakers_link]
  /\ BoxDriver.scrape_single_box_score TwoGames.site TwoGames.celtics_link
     = Raise ValueError
  /\ BoxDriver.scrape_single_box_score TwoGames.site TwoGames.lakers_link
     = Ok [TwoGames.davis_line]
  /\ BoxDriver.scrape_box_scores_for_all_games TwoGames.site TwoGames.games []
     = ([], Some ValueError).
Proof. split; [|split; [|split]]; vm_compute; reflexivity. Qed.

(** ** Tables inside comments *)

Module Commented.
Import Soup.

Definition roster_markup : node :=
  el "table" [("id", "roster")]
    [el "thead" [] [el "tr" [] [el "th" [] [Text "Player"]]];
     el "tbody" [] [el "tr" [] [el "td" [] [Text "Jayson Tatum"]]]].

Definition switcher_markup : node :=
  el "div" [("id", "switcher_per_game_stats")]
    [el "div" [("id", "div_per_game_stats")]
       [el "table" [("id", "per_game_stats")] []]].

Definition switcher_text : string :=
  "<div " ++ Locator.switcher_marker ++ ">".

(** The same container written with single quotes around the id. *)
Definition quoted_text : string := "<div id='switcher_per_game_stats'>".

(** A parser that knows the comment texts of the examples. *)
Definition site : world :=
  {| http_get := fun url =>
       if String.eqb url TwoGames.lakers_link then Some "lakers" else None;
     html_parser := fun text =>
       Elem "[document]" []
         (if String.eqb text "roster" then [roster_markup]
          else if String.eqb text switcher_text then [switcher_markup]
          else if String.eqb text quoted_text then [switcher_markup]
          else if String.eqb text "box" then [TwoGames.good_table]
          else if String.eqb text "lakers"
               then [el "div" [("id", "all_box")] [Comment "box"]]
          else []);
     float_of_str := Demo.demo_float |}.

(** A team page whose roster and per-game container sit in comments. *)
Definition team_page : node :=
  Elem "[document]" []
    [el "div" [("id", "all_roster")] [Text "  "; Comment "roster"];
     el "div" [("id", "all_per_game")] [Comment switcher_text]].

(** A player page whose per-game container sits in a comment that does not
    carry the marker. *)
Definition quoted_page : node :=
  Elem "[document]" [] [el "div" [("id", "all_per_game")] [Comment quoted_text]].

(** A box-score page whose only basic table sits in a comment, and the same
    page with the table live. *)
Definition box_page : node := html_parser site "lakers".
Definition box_page_live : node :=
  Elem "[document]" [] [el "div" [("id", "all_box")] [TwoGames.good_table]].

Example team_page_roster : Locator.roster_table site team_page = Some roster_markup.
Proof. vm_compute. reflexivity. Qed.

End Commented.

(** C5 (amended). The roster and schedule locators find a table that is
    absent from the live tree in the comments, with the result the live
    search gives on the document whose comments are replaced by the markup
    they hold.  The per-game locator parses only the comments whose text
    contains the literal id="switcher_per_game_stats": a container absent
    from the live tree is taken from the first such comment that holds it,
    which is the result of the live search on the uncommented document when
    every comment that holds the container carries the literal, and no
    container is found when no comment carries it.  The box-score locators
    return nodes of the live tree only. *)
Theorem comment_wrapped_tables (w : world) (soup : Soup.node) :
  (Soup.find (Soup.named_with_id "table" "roster") soup = None ->
   Locator.roster_table w soup
   = Soup.find (Soup.named_with_id "table" "roster") (Locator.uncommented w soup))
  /\ (Soup.find (Soup.named_with_id "table" "schedule") soup = None ->
      Locator.schedule_table w soup
      = Soup.find (Soup.named_with_id "table" "schedule") (Locator.uncommented w soup))
  /\ (Soup.find (Soup.named_with_id "div" "switcher_per_game_stats") soup = None ->
      (forall c, c ∈ Soup.comments soup ->
                 Locator.find_in_comment w
                   (Soup.named_with_id "div" "switcher_per_game_stats") c <> None ->
                 PyStr.contains Locator.switcher_marker c = true) ->
      Locator.switcher_div w soup
      = Soup.find (Soup.named_with_id "div" "switcher_per_game_stats")
          (Locator.uncommented w soup))
  /\ (Soup.find (Soup.named_with_id "div" "switcher_per_game_stats") soup = None ->
      Locator.switcher_div w soup
      = Locator.first_some
          (Locator.find_in_comment w (Soup.named_with_id "div" "switcher_per_game_stats"))
          (List.filter (PyStr.contains Locator.switcher_marker) (Soup.comments soup))
      /\ ((forall c, c ∈ Soup.comments soup ->
                     PyStr.contains Locator.switcher_marker c = false) ->
          Locator.switcher_div w soup = None))
  /\ (forall tbl, tbl ∈ Locator.basic_tables soup \/ tbl ∈ Locator.advanced_tables soup ->
                  tbl ∈ Soup.descendants soup).
Proof.
  split; [|split; [|split; [|split]]].
  - apply Locator.locate_uncommented, Soup.named_with_id_tag_test.
  - apply Locator.locate_uncommented, Soup.named_with_id_tag_test.
  - apply Locator.switcher_uncommented.
  - intros Hlive. pose proof (Locator.switcher_marked_only w soup) as Hsw.
    cbv zeta in Hsw. specialize (Hsw Hlive).
    split; [exact Hsw|]. intros Hnone. rewrite Hsw.
    assert (Hfil : forall l : list string,
               (forall c, c ∈ l -> PyStr.contains Locator.switcher_marker c = false) ->
               List.filter (PyStr.contains Locator.switcher_marker) l = []).
    { induction l as [|c l IH]; intros Hl; [reflexivity|]. simpl.
      rewrite (Hl c) by left. apply IH. intros c' Hc'. apply Hl. now right. }
    now rewrite (Hfil _ Hnone).
  - intros tbl [H|H]; now apply Locator.box_tables_live in H.
Qed.

Lemma comment_wrapped_tables_witness :
  Locator.roster_table Commented.site Commented.team_page
  = Soup.find (Soup.named_with_id "table" "roster")
      (Locator.uncommented Commented.site Commented.team_page)
  /\ Locator.switcher_div Commented.site Commented.team_page
     = Soup.find (Soup.named_with_id "div" "switcher_per_game_stats")
         (Locator.uncommented Commented.site Commented.team_page)
  /\ Locator.switcher_div Commented.site Commented.team_page
     = Some Commented.switcher_markup
  /\ Locator.switcher_div Commented.site Commented.quoted_page = None
  /\ Soup.find (Soup.named_with_id "div" "switcher_per_game_stats")
       (Locator.uncommented Commented.site Commented.quoted_page)
     = Some Commented.switcher_markup.
Proof.
  split; [|split; [|split; [|split]]].
  - refine (proj1 (comment_wrapped_tables Commented.site Commented.team_page) _).
    reflexivity.
  - refine (proj1 (proj2 (proj2
              (comment_wrapped_tables Commented.site Commented.team_page))) _ _).
    + reflexivity.
    + intros c Hc Hholds. vm_compute in Hc.
      apply elem_of_cons in Hc as [->|Hc];
        [exfalso; apply Hholds; vm_compute; reflexivity|].
      apply elem_of_cons in Hc as [->|Hc]; [vm_compute; reflexivity|]. inversion Hc.
  - vm_compute. reflexivity.
  - refine (proj2 (proj1 (proj2 (proj2 (proj2
              (comment_wrapped_tables Commented.site Commented.quoted_page)))) _) _).
    + reflexivity.
    + intros c Hc. vm_compute in Hc.
      apply elem_of_cons in Hc as [->|Hc]; [vm_compute; reflexivity | inversion Hc].
  - vm_compute. reflexivity.
Defined.

(** C5 as stated fails for the box-score pattern: the Lakers page holds its
    basic table inside a comment; the locator returns no table and the
    scrape no line, while the same page with the table live yields the
    table and its line. *)
Lemma commented_box_table_not_found :
  Soup.comments Commented.box_page = ["box"]
  /\ Locator.uncommented Commented.site Commented.box_page = Commented.box_page_live
  /\ Locator.basic_tables Commented.box_page = []
  /\ Locator.basic_tables Commented.box_page_live = [TwoGames.good_table]
  /\ BoxDriver.scrape_single_box_score Commented.site TwoGames.lakers_link = Ok []
  /\ BoxDriver.parse_tables Commented.site TwoGames.lakers_link
       (Locator.basic_tables Commented.box_page_live)
     = Ok [TwoGames.davis_line].
Proof. split; [|split; [|split; [|split; [|split]]]]; vm_compute; reflexivity. Qed.

(** ** The roster drivers ([scrape_all_teams_roster] in [scrape_bball_ref.py]
    and in [data-base-creator.py]) *)

Module Roster.
Import Soup Players.

Definition TEAM_ABBRS : list string :=
  ["ATL"; "BOS"; "BRK"; "CHO"; "CHI"; "CLE"; "DAL"; "DEN"; "DET"; "GSW";
   "HOU"; "IND"; "LAC"; "LAL"; "MEM"; "MIA"; "MIL"; "MIN"; "NOP"; "NYK";
   "OKC"; "ORL"; "PHI"; "PHO"; "POR"; "SAC"; "SAS"; "TOR"; "UTA"; "WAS"].

Definition team_url (team : string) : string :=
  Urls.origin ++ "/teams/" ++ team ++ "/2025.html".

(** The values bound to the key columns, [None] for a missing dict key. *)
Record candidate := {
  c_name : option string;
  c_team : string;
  c_position : option string;
  c_height : option string;
  c_weight : float;
  c_birth_date : option string;
  c_birth_country : option string;
  c_experience : option string;
  c_college : option string
}.

(** [dict(zip(headers, row_data))] followed by [player_data["Team"] = team]:
    of two cells under the same header the later one stays. *)
Definition player_data (headers row_data : list string) (team : string)
  : gmap string string :=
  <["Team" := team]> (list_to_map (reverse (zip headers row_data))).

(** SQL [column = ?]: a NULL on either side matches nothing. *)
Definition sql_eq (column param : option string) : bool :=
  match column, param with
  | Some a, Some b => String.eqb a b
  | _, _ => false
  end.

(** The WHERE clause of [scrape_bball_ref.py]: all nine columns. *)
Definition matches_nine (c : candidate) (r : player) : bool :=
  sql_eq (Some (name r)) (c_name c)
  && String.eqb (team r) (c_team c)
  && sql_eq (position r) (c_position c)
  && sql_eq (height r) (c_height c)
  && PrimFloat.eqb (weight r) (c_weight c)
  && sql_eq (birth_date r) (c_birth_date c)
  && sql_eq (birth_country r) (c_birth_country c)
  && sql_eq (experience r) (c_experience c)
  && sql_eq (college r) (c_college c).

(** The WHERE clause of [data-base-creator.py]: name, height, college and
    experience. *)
Definition matches_four (nm ht col ex : option string) (r : player) : bool :=
  sql_eq (Some (name r)) nm
  && sql_eq (height r) ht
  && sql_eq (college r) col
  && sql_eq (experience r) ex.

(** The row an INSERT makes of a candidate with a name. *)
Definition new_row (i : Z) (nm : string) (c : candidate) : player :=
  {| id := i; name := nm; team := c_team c; position := c_position c;
     height := c_height c; weight := c_weight c; birth_date := c_birth_date c;
     birth_country := c_birth_country c; experience := c_experience c;
     college := c_college c; url := None |}.

(** [INSERT INTO players (...)]: [name] is NOT NULL. *)
Definition insert_player (t : table) (c : candidate) : result table :=
  match c_name c with
  | None => Raise IntegrityError
  | Some nm => Ok {| rows := (rows t ++ [new_row (seq t + 1) nm c])%list;
                     seq := seq t + 1 |}
  end.

Section Driver.
Variable w : world.

(** [float(player_data.get("Wt", 0) or 0)] *)
Definition weight_of (d : gmap string string) : result float :=
  match d !! "Wt" with
  | Some text => float_or_zero w text
  | None => Ok 0%float
  end.

Definition candidate_of (d : gmap string string) (team : string) (wt : float) : candidate :=
  {| c_name := d !! "Player"; c_team := team; c_position := d !! "Pos";
     c_height := d !! "Ht"; c_weight := wt; c_birth_date := d !! "Birth Date";
     c_birth_country := d !! "Birth"; c_experience := d !! "Exp";
     c_college := d !! "College" |}.

Definition row_texts (row : node) : list string :=
  get_text <$> find_all (named ["th"; "td"]) row.

(** The loop body of [scrape_bball_ref.py]: the weight is coerced for the
    SELECT, before the duplicate check. *)
Definition ingest_row_nine (team : string) (headers : list string) (t : table) (row : node)
  : result table :=
  let row_data := row_texts row in
  if PyStr.is_nil row_data then Ok t
  else
    let d := player_data headers row_data team in
    wt ← weight_of d;
    let c := candidate_of d team wt in
    if existsb (matches_nine c) (rows t) then Ok t else insert_player t c.

(** The loop body of [data-base-creator.py]: the weight is coerced for the
    INSERT only. *)
Definition ingest_row_four (team : string) (headers : list string) (t : table) (row : node)
  : result table :=
  let row_data := row_texts row in
  if PyStr.is_nil row_data then Ok t
  else
    let d := player_data headers row_data team in
    if existsb (matches_four (d !! "Player") (d !! "Ht") (d !! "College") (d !! "Exp"))
               (rows t)
    then Ok t
    else wt ← weight_of d; insert_player t (candidate_of d team wt).

Section Variant.
Variable ingest_row : string -> list string -> table -> node -> result table.

Fixpoint ingest_rows (team : string) (headers : list string) (t : table) (rs : list node)
  : result table :=
  match rs with
  | [] => Ok t
  | row :: rest => t' ← ingest_row team headers t row; ingest_rows team headers t' rest
  end.

(** One team, up to its [conn.commit()].  A missing [thead], header row or
    [tbody] makes [.find] be called on [None]. *)
Definition ingest_team (t : table) (team : string) : result table :=
  match http_get w (team_url team) with
  | None => Ok t
  | Some text =>
      match Locator.roster_table w (html_parser w text) with
      | None => Ok t
      | Some roster_table =>
          match find (named ["thead"]) roster_table with
          | None => Raise AttributeError
          | Some thead =>
              match find (named ["tr"]) thead with
              | None => Raise AttributeError
              | Some header_row =>
                  let headers := get_text <$> find_all (named ["th"]) header_row in
                  match find (named ["tbody"]) roster_table with
                  | None => Raise AttributeError
                  | Some tbody =>
                      ingest_rows team headers t (find_all (named ["tr"]) tbody)
                  end
              end
          end
      end
  end.

(** The loop over the teams: an exception ends the run, and what the
    current team inserted, not committed yet, is lost. *)
Fixpoint ingest_teams (teams : list string) (t : table) : table * option exn :=
  match teams with
  | [] => (t, None)
  | team :: rest =>
      match ingest_team t team with
      | Ok t' => ingest_teams rest t'
      | Raise e => (t, Some e)
      end
  end.

End Variant.
End Driver.
End Roster.

Module ScrapeBballRef.
Definition scrape_all_teams_roster (w : world) (t : Players.table)
  : Players.table * option exn :=
  Roster.ingest_teams w (Roster.ingest_row_nine w) Roster.TEAM_ABBRS t.
End ScrapeBballRef.

Module DataBaseCreator.
Definition scrape_all_teams_roster (w : world) (t : Players.table)
  : Players.table * option exn :=
  Roster.ingest_teams w (Roster.ingest_row_four w) Roster.TEAM_ABBRS t.
End DataBaseCreator.

(** ** A roster page without a College column *)

Module NoCollege.
Import Soup.

Definition th (text : string) : node := el "th" [] [Text text].
Definition cell (text : string) : node := el "td" [] [Text text].

Definition roster_table (headers : list string) (cells : list string) : node :=
  el "table" [("id", "roster")]
    [el "thead" [] [el "tr" [] (th <$> headers)];
     el "tbody" [] [el "tr" [] (cell <$> cells)]].

Definition tatum_cells : list string :=
  ["0"; "Jayson Tatum"; "SF"; "6-8"; "210"; "March 3, 1998"; "us"; "7"].

(** The Boston page lists the columns up to Exp; no other team page can be
    fetched. *)
Definition site : world :=
  {| http_get := fun url => if String.eqb url (Roster.team_url "BOS") then Some "BOS" else None;
     html_parser := fun _ =>
       Elem "[document]" []
         [roster_table ["No."; "Player"; "Pos"; "Ht"; "Wt"; "Birth Date"; "Birth"; "Exp"]
                       tatum_cells];
     float_of_str := Demo.demo_float |}.

Definition empty : Players.table := {| Players.rows := []; Players.seq := 0 |}.

Definition tatum (i : Z) : Players.player :=
  {| Players.id := i; Players.name := "Jayson Tatum"; Players.team := "BOS";
     Players.position := Some "SF"; Players.height := Some "6-8";
     Players.weight := 210; Players.birth_date := Some "March 3, 1998";
     Players.birth_country := Some "us"; Players.experience := Some "7";
     Players.college := None; Players.url := None |}.

End NoCollege.

(** C3, players driver of [scrape_bball_ref.py]: on a roster page without a
    College column the first run stores Jayson Tatum once, and a second run
    over the same page stores him again: the college bound to the SELECT is
    NULL, which equals no stored value. *)
Lemma roster_rerun_inserts_again :
  ScrapeBballRef.scrape_all_teams_roster NoCollege.site NoCollege.empty
  = ({| Players.rows := [NoCollege.tatum 1]; Players.seq := 1 |}, None)
  /\ ScrapeBballRef.scrape_all_teams_roster NoCollege.site
       {| Players.rows := [NoCollege.tatum 1]; Players.seq := 1 |}
     = ({| Players.rows := [NoCollege.tatum 1; NoCollege.tatum 2]; Players.seq := 2 |}, None).
Proof. split; vm_compute; reflexivity. Qed.

(** ** The key the roster drivers de-duplicate on *)

Module RosterKeys.
Import Players Roster.

(** Every key value of the candidate is present. *)
Definition complete (c : candidate) : Prop :=
  is_Some (c_name c) /\ is_Some (c_position c) /\ is_Some (c_height c)
  /\ is_Some (c_birth_date c) /\ is_Some (c_birth_country c)
  /\ is_Some (c_experience c) /\ is_Some (c_college c).

(** The stored row has the candidate's nine values. *)
Definition same_nine (c : candidate) (r : player) : Prop :=
  c_name c = Some (name r) /\ c_team c = team r /\ c_position c = position r
  /\ c_height c = height r /\ PrimFloat.eqb (weight r) (c_weight c) = true
  /\ c_birth_date c = birth_date r /\ c_birth_country c = birth_country r
  /\ c_experience c = experience r /\ c_college c = college r.

(** The stored row has the candidate's name, height, college and experience. *)
Definition same_four (c : candidate) (r : player) : Prop :=
  c_name c = Some (name r) /\ c_height c = height r
  /\ c_college c = college r /\ c_experience c = experience r.

Definition four_of (c : candidate) : player -> bool :=
  matches_four (c_name c) (c_height c) (c_college c) (c_experience c).

Lemma sql_eq_true col x : sql_eq col (Some x) = true <-> Some x = col.
Proof.
  destruct col as [y|]; simpl; [|split; discriminate].
  rewrite String.eqb_eq. split; [now intros -> | now intros [= ->]].
Qed.

Lemma matches_nine_same c r : complete c -> matches_nine c r = true <-> same_nine c r.
Proof.
  intros ([nm Hn] & [po Hp] & [ht Hh] & [bd Hb] & [bc Hc] & [ex He] & [co Ho]).
  unfold matches_nine, same_nine. rewrite Hn, Hp, Hh, Hb, Hc, He, Ho.
  rewrite !andb_true_iff, !sql_eq_true, String.eqb_eq.
  split.
  - intros ((((((((H1 & H2) & H3) & H4) & H5) & H6) & H7) & H8) & H9).
    injection H1 as <-. repeat split; auto.
  - intros (H1 & H2 & H3 & H4 & H5 & H6 & H7 & H8 & H9).
    injection H1 as <-. repeat split; auto.
Qed.

Lemma matches_four_same c r : complete c -> four_of c r = true <-> same_four c r.
Proof.
  intros ([nm Hn] & _ & [ht Hh] & _ & _ & [ex He] & [co Ho]).
  unfold four_of, matches_four, same_four. rewrite Hn, Hh, He, Ho.
  rewrite !andb_true_iff, !sql_eq_true.
  split.
  - intros (((H1 & H2) & H3) & H4). injection H1 as <-. repeat split; auto.
  - intros (H1 & H2 & H3 & H4). injection H1 as <-. repeat split; auto.
Qed.

Lemma nine_implies_four c r : matches_nine c r = true -> four_of c r = true.
Proof.
  unfold matches_nine, four_of, matches_four. rewrite !andb_true_iff.
  intros ((((((((H1 & H2) & H3) & H4) & H5) & H6) & H7) & H8) & H9). auto.
Qed.

(** The table after the INSERT of [c] under the name [nm]. *)
Definition appended (t : table) (nm : string) (c : candidate) : table :=
  {| rows := (rows t ++ [new_row (seq t + 1) nm c])%list; seq := seq t + 1 |}.

(** The key values of a stored row, as a candidate. *)
Definition row_key (r : player) : candidate :=
  {| c_name := Some (name r); c_team := team r; c_position := position r;
     c_height := height r; c_weight := weight r; c_birth_date := birth_date r;
     c_birth_country := birth_country r; c_experience := experience r;
     c_college := college r |}.

(** No row matches an earlier row on all nine columns, as the SELECT of
    [scrape_bball_ref.py] compares them. *)
Definition no_shared_key (l : list player) : Prop :=
  forall i j r r', (i < j)%nat -> l !! i = Some r -> l !! j = Some r' ->
                   matches_nine (row_key r') r = false.

(** None of the six key columns that can be NULL is NULL in the row. *)
Definition whole (r : player) : Prop :=
  is_Some (position r) /\ is_Some (height r) /\ is_Some (birth_date r)
  /\ is_Some (birth_country r) /\ is_Some (experience r) /\ is_Some (college r).

(** The two rows hold the same nine values; the weights are equal numbers
    (a NaN, stored as NULL, is no number). *)
Definition same_values (r r' : player) : Prop :=
  name r = name r' /\ team r = team r' /\ position r = position r'
  /\ height r = height r' /\ PrimFloat.eqb (weight r) (weight r') = true
  /\ birth_date r = birth_date r' /\ birth_country r = birth_country r'
  /\ experience r = experience r' /\ college r = college r'.

(** No row without a NULL among its key columns holds the nine values of an
    earlier row. *)
Definition no_repeated_key (l : list player) : Prop :=
  forall i j r r', (i < j)%nat -> l !! i = Some r -> l !! j = Some r' ->
                   whole r' -> ~ same_values r r'.

Lemma sql_eq_values column param :
  sql_eq column param = true <-> is_Some param /\ column = param.
Proof.
  destruct column as [a|], param as [b|]; simpl; rewrite ?String.eqb_eq.
  - split; [intros ->; split; [eauto | reflexivity] | intros [_ [= ->]]; reflexivity].
  - split; [discriminate | intros [[x Hx] _]; discriminate].
  - split; [discriminate | intros [_ H]; discriminate].
  - split; [discriminate | intros [[x Hx] _]; discriminate].
Qed.

Lemma matches_row_key r r' :
  matches_nine (row_key r') r = true <-> whole r' /\ same_values r r'.
Proof.
  unfold matches_nine, row_key, whole, same_values. cbn [c_name c_team c_position c_height
    c_weight c_birth_date c_birth_country c_experience c_college].
  rewrite !andb_true_iff, !sql_eq_values, String.eqb_eq.
  split.
  - intros (((((((((_ & [= Hn]) & Ht) & (Hp1 & Hp2)) & (Hh1 & Hh2)) & Hw) & (Hb1 & Hb2))
              & (Hc1 & Hc2)) & (He1 & He2)) & (Ho1 & Ho2)).
    repeat split; assumption.
  - intros ((Hp1 & Hh1 & Hb1 & Hc1 & He1 & Ho1)
            & Hn & Ht & Hp2 & Hh2 & Hw & Hb2 & Hc2 & He2 & Ho2).
    rewrite Hn. repeat split; eauto.
Qed.

Lemma no_shared_key_values l : no_shared_key l <-> no_repeated_key l.
Proof.
  split; intros H i j r r' Hij Hi Hj.
  - intros Hw Hs. specialize (H i j r r' Hij Hi Hj).
    assert (matches_nine (row_key r') r = true) by (apply matches_row_key; auto).
    congruence.
  - destruct (matches_nine (row_key r') r) eqn:Hm; [|reflexivity].
    apply matches_row_key in Hm as [Hw Hs]. destruct (H i j r r' Hij Hi Hj Hw Hs).
Qed.

Lemma row_key_new_row i nm c : c_name c = Some nm -> row_key (new_row i nm c) = c.
Proof. destruct c; simpl. now intros ->. Qed.

Lemma no_shared_key_append l i nm c :
  no_shared_key l ->
  c_name c = Some nm ->
  existsb (matches_nine c) l = false ->
  no_shared_key (l ++ [new_row i nm c]).
Proof.
  intros Hinv Hnm Hfresh a b r r' Hab Ha Hb.
  assert (Hlen : (b < length (l ++ [new_row i nm c]))%nat)
    by (eapply lookup_lt_Some; exact Hb).
  rewrite length_app in Hlen. simpl in Hlen.
  rewrite lookup_app_l in Ha by lia.
  destruct (decide (b < length l)%nat) as [Hlt|Hge].
  - rewrite lookup_app_l in Hb by lia. exact (Hinv _ _ _ _ Hab Ha Hb).
  - rewrite lookup_app_r in Hb by lia.
    replace (b - length l)%nat with 0%nat in Hb by lia. injection Hb as <-.
    rewrite (row_key_new_row _ _ _ Hnm).
    destruct (matches_nine c r) eqn:Hm; [|reflexivity].
    assert (Hex : existsb (matches_nine c) l = true).
    { apply existsb_exists. exists r. split; [|exact Hm].
      apply list_elem_of_In. eapply list_elem_of_lookup_2. exact Ha. }
    congruence.
Qed.

(** A loop body that returns the table as it was, or with one row appended
    that matched no stored row on the nine columns. *)
Definition appends_fresh (step : string -> list string -> table -> Soup.node -> result table)
  : Prop :=
  forall team headers t row t',
    step team headers t row = Ok t' ->
    t' = t \/ exists c nm, c_name c = Some nm
                           /\ existsb (matches_nine c) (rows t) = false
                           /\ t' = appended t nm c.

Lemma insert_player_appended t c t' :
  insert_player t c = Ok t' -> exists nm, c_name c = Some nm /\ t' = appended t nm c.
Proof.
  unfold insert_player. destruct (c_name c) as [nm|]; [|discriminate].
  intros [= <-]. eauto.
Qed.

Lemma ingest_row_nine_fresh w : appends_fresh (ingest_row_nine w).
Proof.
  intros team headers t row t'. unfold ingest_row_nine.
  destruct (PyStr.is_nil (row_texts row)); [intros [= <-]; now left|].
  intros H. apply bind_Ok_inv in H as (wt & _ & H).
  destruct (existsb _ (rows t)) eqn:Hex; [injection H as <-; now left|].
  apply insert_player_appended in H as (nm & Hnm & ->). right. eauto.
Qed.

Lemma ingest_row_four_fresh w : appends_fresh (ingest_row_four w).
Proof.
  intros team headers t row t'. unfold ingest_row_four.
  destruct (PyStr.is_nil (row_texts row)); [intros [= <-]; now left|].
  destruct (existsb _ (rows t)) eqn:Hex; [intros [= <-]; now left|].
  intros H. apply bind_Ok_inv in H as (wt & _ & H).
  apply insert_player_appended in H as (nm & Hnm & ->). right.
  eexists _, nm. split; [exact Hnm|]. split; [|reflexivity].
  destruct (existsb (matches_nine _) (rows t)) eqn:H9; [|reflexivity].
  apply existsb_exists in H9 as (r & Hr & Hm). apply nine_implies_four in Hm.
  assert (existsb (four_of (candidate_of (player_data headers (row_texts row) team) team wt))
                  (rows t) = true) by (apply existsb_exists; eauto).
  unfold four_of in *. simpl in *. congruence.
Qed.

Section Invariant.
Variable w : world.
Variable step : string -> list string -> table -> Soup.node -> result table.
Hypothesis step_fresh : appends_fresh step.

Lemma ingest_rows_keeps team headers rs : forall t t',
  ingest_rows step team headers t rs = Ok t' ->
  no_shared_key (rows t) -> no_shared_key (rows t').
Proof.
  induction rs as [|row rs IH]; intros t t' H Hinv; simpl in H.
  - now injection H as <-.
  - apply bind_Ok_inv in H as (t1 & H1 & H2). apply (IH _ _ H2).
    apply step_fresh in H1 as [->|(c & nm & Hnm & Hfresh & ->)]; [exact Hinv|].
    simpl. now apply no_shared_key_append.
Qed.

Lemma ingest_team_keeps t team t' :
  ingest_team w step t team = Ok t' ->
  no_shared_key (rows t) -> no_shared_key (rows t').
Proof.
  unfold ingest_team.
  destruct (http_get w (team_url team)) as [text|]; [|now intros [= <-]].
  destruct (Locator.roster_table w _) as [tbl|]; [|now intros [= <-]].
  destruct (Soup.find _ tbl) as [thead|]; [|discriminate].
  destruct (Soup.find _ thead) as [header_row|]; [|discriminate].
  destruct (Soup.find _ tbl) as [tbody|]; [|discriminate].
  apply ingest_rows_keeps.
Qed.

Lemma ingest_teams_keeps teams : forall t,
  no_shared_key (rows t) -> no_shared_key (rows (ingest_teams w step teams t).1).
Proof.
  induction teams as [|team teams IH]; intros t Hinv; simpl; [exact Hinv|].
  destruct (ingest_team w step t team) as [t'|e] eqn:E; [|exact Hinv].
  apply IH. eapply ingest_team_keeps; eassumption.
Qed.

End Invariant.
End RosterKeys.

(** What C8 (amended) says of one roster row with a complete candidate:
    [wt] is the coerced weight and [nm] the player's name. *)
Definition dedup_step (w : world) (team : string) (headers : list string)
    (t : Players.table) (row : Soup.node) (wt : float) (nm : string) : Prop :=
  let c := Roster.candidate_of
             (Roster.player_data headers (Roster.row_texts row) team) team wt in
  (forall r, Roster.matches_nine c r = true <-> RosterKeys.same_nine c r)
  /\ (forall r, RosterKeys.four_of c r = true <-> RosterKeys.same_four c r)
  /\ Roster.ingest_row_nine w team headers t row
     = Ok (if existsb (Roster.matches_nine c) (Players.rows t) then t
           else RosterKeys.appended t nm c)
  /\ Roster.ingest_row_four w team headers t row
     = Ok (if existsb (RosterKeys.four_of c) (Players.rows t) then t
           else RosterKeys.appended t nm c).

(** C8 (amended). For a roster row whose candidate has all its key values,
    the loop body of [scrape_bball_ref.py] inserts the candidate exactly when
    no stored row has its nine key values, and the loop body of
    [data-base-creator.py] inserts it exactly when no stored row has its
    name, height, college and experience.  A stored row matches the nine
    values of another row, as the SELECT compares them, exactly when that
    other row has no NULL among position, height, birth date, birth country,
    experience and college, the two rows agree on the eight text columns and
    their weights are equal numbers (a weight stored as NULL equals
    nothing).  So a run of either driver on a table in which no row without
    such a NULL holds the nine values of an earlier row ends in such a
    table; rows with a NULL key column are not covered, and do repeat. *)
Theorem roster_dedup_keys (w : world) :
  (forall team headers t row wt nm,
      Roster.row_texts row <> [] ->
      Roster.weight_of w (Roster.player_data headers (Roster.row_texts row) team) = Ok wt ->
      RosterKeys.complete
        (Roster.candidate_of (Roster.player_data headers (Roster.row_texts row) team) team wt) ->
      Roster.player_data headers (Roster.row_texts row) team !! "Player" = Some nm ->
      dedup_step w team headers t row wt nm)
  /\ (forall r r',
        Roster.matches_nine (RosterKeys.row_key r') r = true
        <-> RosterKeys.whole r' /\ RosterKeys.same_values r r')
  /\ (forall t,
        RosterKeys.no_repeated_key (Players.rows t) ->
        RosterKeys.no_repeated_key
          (Players.rows (ScrapeBballRef.scrape_all_teams_roster w t).1)
        /\ RosterKeys.no_repeated_key
             (Players.rows (DataBaseCreator.scrape_all_teams_roster w t).1)).
Proof.
  split; [|split; [exact RosterKeys.matches_row_key|]].
  - intros team headers t row wt nm Hcells Hwt Hc Hnm. unfold dedup_step.
    split; [intros r; now apply RosterKeys.matches_nine_same|].
    split; [intros r; now apply RosterKeys.matches_four_same|].
    assert (Hnil : PyStr.is_nil (Roster.row_texts row) = false)
      by (destruct (Roster.row_texts row); [congruence | reflexivity]).
    split.
    + unfold Roster.ingest_row_nine. rewrite Hnil, Hwt. cbn [mbind result_bind].
      destruct (existsb _ (Players.rows t)); [reflexivity|].
      unfold Roster.insert_player. simpl Roster.c_name. now rewrite Hnm.
    + unfold Roster.ingest_row_four, RosterKeys.four_of. rewrite Hnil.
      simpl Roster.c_name. simpl Roster.c_height. simpl Roster.c_college.
      simpl Roster.c_experience.
      destruct (existsb _ (Players.rows t)); [reflexivity|].
      rewrite Hwt. cbn [mbind result_bind].
      unfold Roster.insert_player. simpl Roster.c_name. now rewrite Hnm.
  - intros t Hinv. apply RosterKeys.no_shared_key_values in Hinv.
    split; apply RosterKeys.no_shared_key_values.
    + apply RosterKeys.ingest_teams_keeps; [apply RosterKeys.ingest_row_nine_fresh | exact Hinv].
    + apply RosterKeys.ingest_teams_keeps; [apply RosterKeys.ingest_row_four_fresh | exact Hinv].
Qed.

(** LeBron James, stored for Cleveland, listed again on the Lakers page. *)
Module Traded.
Import Soup.

Definition headers : list string :=
  ["No."; "Player"; "Pos"; "Ht"; "Wt"; "Birth Date"; "Birth"; "Exp"; "College"].

Definition lebron_cells : list string :=
  ["23"; "LeBron James"; "SF"; "6-9"; "250"; "December 30, 1984"; "us"; "21"; "none"].

Definition lebron_row : node := el "tr" [] (NoCollege.cell <$> lebron_cells).

Definition lebron (i : Z) (tm : string) : Players.player :=
  {| Players.id := i; Players.name := "LeBron James"; Players.team := tm;
     Players.position := Some "SF"; Players.height := Some "6-9";
     Players.weight := 250; Players.birth_date := Some "December 30, 1984";
     Players.birth_country := Some "us"; Players.experience := Some "21";
     Players.college := Some "none"; Players.url := None |}.

Definition cavaliers : Players.table :=
  {| Players.rows := [lebron 1 "CLE"]; Players.seq := 1 |}.

Definition lakers_candidate : Roster.candidate :=
  Roster.candidate_of
    (Roster.player_data headers (Roster.row_texts lebron_row) "LAL") "LAL" 250.

(** The Lakers page is the only one served. *)
Definition site : world :=
  {| http_get := fun url => if String.eqb url (Roster.team_url "LAL") then Some "LAL" else None;
     html_parser := fun _ =>
       Elem "[document]" [] [NoCollege.roster_table headers lebron_cells];
     float_of_str := Demo.demo_float |}.

End Traded.

Lemma cavaliers_no_repeated_key : RosterKeys.no_repeated_key (Players.rows Traded.cavaliers).
Proof.
  intros i j r r' Hij Hi Hj. destruct i, j; try lia; destruct j; discriminate.
Defined.

Lemma roster_dedup_keys_witness :
  dedup_step Traded.site "LAL" Traded.headers Traded.cavaliers Traded.lebron_row 250
    "LeBron James"
  /\ RosterKeys.no_repeated_key
       (Players.rows (ScrapeBballRef.scrape_all_teams_roster Traded.site Traded.cavaliers).1).
Proof.
  split.
  - refine (proj1 (roster_dedup_keys Traded.site) "LAL" Traded.headers Traded.cavaliers
              Traded.lebron_row 250%float "LeBron James" _ _ _ _).
    + discriminate.
    + vm_compute. reflexivity.
    + repeat split; vm_compute; eexists; reflexivity.
    + vm_compute. reflexivity.
  - exact (proj1 (proj2 (proj2 (roster_dedup_keys Traded.site)) Traded.cavaliers
                    cavaliers_no_repeated_key)).
Defined.

(** C8 as stated fails twice.  For [data-base-creator.py]: no stored row has
    the nine key values of LeBron James of the Lakers (the stored row is for
    Cleveland), yet the driver does not insert him, while the driver of
    [scrape_bball_ref.py] does.  For [scrape_bball_ref.py]: on a roster page
    without a College column the college bound to the SELECT is NULL, which
    matches no stored row, so a run on a table that holds Jayson Tatum
    stores him again; the two rows hold the same nine values, and the table
    still has no row that matches an earlier one as the SELECT compares
    them. *)
Lemma roster_keys_differ_and_null_key_repeats :
  existsb (Roster.matches_nine Traded.lakers_candidate) (Players.rows Traded.cavaliers) = false
  /\ Roster.ingest_row_four Traded.site "LAL" Traded.headers Traded.cavaliers Traded.lebron_row
     = Ok Traded.cavaliers
  /\ DataBaseCreator.scrape_all_teams_roster Traded.site Traded.cavaliers
     = (Traded.cavaliers, None)
  /\ ScrapeBballRef.scrape_all_teams_roster Traded.site Traded.cavaliers
     = ({| Players.rows := [Traded.lebron 1 "CLE"; Traded.lebron 2 "LAL"];
           Players.seq := 2 |}, None)
  /\ ScrapeBballRef.scrape_all_teams_roster NoCollege.site
       {| Players.rows := [NoCollege.tatum 1]; Players.seq := 1 |}
     = ({| Players.rows := [NoCollege.tatum 1; NoCollege.tatum 2]; Players.seq := 2 |}, None)
  /\ RosterKeys.same_values (NoCollege.tatum 1) (NoCollege.tatum 2)
  /\ ~ RosterKeys.whole (NoCollege.tatum 2)
  /\ RosterKeys.no_shared_key [NoCollege.tatum 1; NoCollege.tatum 2]
  /\ RosterKeys.no_repeated_key [NoCollege.tatum 1; NoCollege.tatum 2].
Proof.
  assert (Hk : RosterKeys.no_shared_key [NoCollege.tatum 1; NoCollege.tatum 2]).
  { intros i j r r' Hij Hi Hj.
    destruct i as [|[|i]], j as [|[|[|j]]]; try lia; try discriminate.
    injection Hi as <-. injection Hj as <-. vm_compute. reflexivity. }
  split; [vm_compute; reflexivity|]. split; [vm_compute; reflexivity|].
  split; [vm_compute; reflexivity|]. split; [vm_compute; reflexivity|].
  split; [vm_compute; reflexivity|].
  split; [repeat split; vm_compute; reflexivity|].
  split; [intros (_ & _ & _ & _ & _ & [x Hx]); discriminate|].
  split; [exact Hk | now apply RosterKeys.no_shared_key_values].
Qed.

(** * Further properties of the pipeline *)

(** ** INSERT OR IGNORE under a UNIQUE key, and a loop over work items *)

Module Upsert.

Section InsertOrIgnore.
Context {R : Type}.
Variable same : R -> R -> bool.
Variable kept : R -> R.
Variable fits : R -> bool.
Hypothesis same_kept_l : forall r x, same (kept r) x = same r x.
Hypothesis same_kept_self : forall r, same r (kept r) = true.

(** The table after a statement that went through. *)
Definition put (t : list R) (r : R) : list R :=
  if existsb (same r) t then t else (t ++ [kept r])%list.

(** One statement: binding a row that does not fit raises. *)
Definition insert (t : list R) (r : R) : result (list R) :=
  if fits r then Ok (put t r) else Raise OverflowError.

(** The statements of a batch, up to the commit. *)
Fixpoint store (rows : list R) (t : list R) : result (list R) :=
  match rows with
  | [] => Ok t
  | r :: rest => t' ← insert t r; store rest t'
  end.

(** No row has the key of an earlier row. *)
Definition unique (t : list R) : Prop :=
  forall i j r r', (i < j)%nat -> t !! i = Some r -> t !! j = Some r' -> same r' r = false.

Lemma unique_nil : unique [].
Proof. intros i j r r' _ Hi. destruct i; discriminate Hi. Qed.

Lemma unique_one r : unique [r].
Proof.
  intros i j x y Hij _ Hj. destruct j as [|j]; [lia|]. destruct j; discriminate Hj.
Qed.

Lemma upsert_unique_snoc t r :
  unique t -> existsb (same r) t = false -> unique (t ++ [kept r]).
Proof.
  intros Hu Hnew a b x y Hab Ha Hb.
  assert (Hlen : (b < length (t ++ [kept r]))%nat) by (eapply lookup_lt_Some; exact Hb).
  rewrite length_app in Hlen. simpl in Hlen.
  rewrite lookup_app_l in Ha by lia.
  destruct (decide (b < length t)%nat) as [Hlt|Hge].
  - rewrite lookup_app_l in Hb by lia. exact (Hu _ _ _ _ Hab Ha Hb).
  - rewrite lookup_app_r in Hb by lia.
    replace (b - length t)%nat with 0%nat in Hb by lia. injection Hb as <-.
    rewrite same_kept_l. destruct (same r x) eqn:Hs; [|reflexivity].
    assert (existsb (same r) t = true).
    { apply existsb_exists. exists x. split; [|exact Hs].
      apply list_elem_of_In. eapply list_elem_of_lookup_2. exact Ha. }
    congruence.
Qed.

Lemma put_unique t r : unique t -> unique (put t r).
Proof.
  intros Hu. unfold put. destruct (existsb (same r) t) eqn:E; [exact Hu|].
  now apply upsert_unique_snoc.
Qed.

Lemma put_extends t r :
  exists added, put t r = (t ++ added)%list /\ Forall (fun a => a = kept r) added.
Proof.
  unfold put. destruct (existsb (same r) t).
  - exists []. now rewrite app_nil_r.
  - exists [kept r]. split; [reflexivity|]. now constructor.
Qed.

Lemma puts_unique rows : forall t, unique t -> unique (fold_left put rows t).
Proof.
  induction rows as [|r rows IH]; intros t Hu; [exact Hu|].
  apply IH. now apply put_unique.
Qed.

Lemma puts_extends rows : forall t,
  exists added, fold_left put rows t = (t ++ added)%list
                /\ Forall (fun a => exists r, In r rows /\ a = kept r) added.
Proof.
  induction rows as [|r rows IH]; intros t.
  - exists []. now rewrite app_nil_r.
  - destruct (put_extends t r) as (a1 & H1 & F1).
    destruct (IH (put t r)) as (a2 & H2 & F2).
    exists (a1 ++ a2)%list. split.
    + change (fold_left put (r :: rows) t) with (fold_left put rows (put t r)).
      now rewrite H2, H1, app_assoc.
    + apply Forall_app. split.
      * eapply Forall_impl; [exact F1|]. intros a ->. exists r. split; [now left | reflexivity].
      * eapply Forall_impl; [exact F2|]. intros a (r' & Hin & ->).
        exists r'. split; [now right | reflexivity].
Qed.

Definition has (r : R) (t : list R) : bool := existsb (same r) t.

Lemma upsert_has_app r t t' : has r (t ++ t') = has r t || has r t'.
Proof. apply existsb_app. Qed.

Lemma puts_has rows : forall t r, In r rows -> has r (fold_left put rows t) = true.
Proof.
  induction rows as [|r0 rows IH]; intros t r Hin; [destruct Hin|].
  change (fold_left put (r0 :: rows) t) with (fold_left put rows (put t r0)).
  destruct Hin as [->|Hin]; [|now apply IH].
  destruct (puts_extends rows (put t r)) as (a & -> & _).
  rewrite upsert_has_app. unfold put, has.
  destruct (existsb (same r) t) eqn:E; [now rewrite E|].
  now rewrite existsb_app; simpl; rewrite same_kept_self, !orb_true_r.
Qed.

Lemma puts_noop rows : forall t,
  (forall r, In r rows -> has r t = true) -> fold_left put rows t = t.
Proof.
  induction rows as [|r rows IH]; intros t H; [reflexivity|].
  change (fold_left put (r :: rows) t) with (fold_left put rows (put t r)).
  assert (Hr : put t r = t).
  { unfold put. change (existsb (same r) t) with (has r t).
    now rewrite (H r (or_introl eq_refl)). }
  rewrite Hr. apply IH. intros r' Hr'. apply H. now right.
Qed.

(** A batch goes through exactly when every row of it fits. *)
Lemma upsert_store_fold rows : forall t,
  store rows t
  = if forallb fits rows then Ok (fold_left put rows t) else Raise OverflowError.
Proof.
  induction rows as [|r rows IH]; intros t; [reflexivity|].
  cbn [store forallb]. unfold insert. destruct (fits r); [|reflexivity].
  cbn [mbind result_bind andb]. apply IH.
Qed.

Lemma upsert_store_ok rows t t' :
  store rows t = Ok t' -> forallb fits rows = true /\ t' = fold_left put rows t.
Proof.
  rewrite upsert_store_fold. destruct (forallb fits rows); [|discriminate].
  intros [= <-]. auto.
Qed.

Lemma upsert_store_raise rows t e :
  store rows t = Raise e -> e = OverflowError /\ forallb fits rows = false.
Proof.
  rewrite upsert_store_fold. destruct (forallb fits rows); [discriminate|].
  intros [= <-]. auto.
Qed.

Lemma upsert_store_unique rows t t' : store rows t = Ok t' -> unique t -> unique t'.
Proof. intros H Hu. apply upsert_store_ok in H as (_ & ->). now apply puts_unique. Qed.

Lemma upsert_store_extends rows t t' :
  store rows t = Ok t' ->
  exists added, t' = (t ++ added)%list
                /\ Forall (fun a => exists r, In r rows /\ a = kept r) added.
Proof. intros H. apply upsert_store_ok in H as (_ & ->). apply puts_extends. Qed.

Lemma upsert_store_has rows t t' r :
  store rows t = Ok t' -> In r rows -> has r t' = true.
Proof. intros H Hin. apply upsert_store_ok in H as (_ & ->). now apply puts_has. Qed.

Lemma upsert_store_noop rows t :
  forallb fits rows = true -> (forall r, In r rows -> has r t = true) ->
  store rows t = Ok t.
Proof.
  intros Hfits H. rewrite upsert_store_fold, Hfits. f_equal. now apply puts_noop.
Qed.

End InsertOrIgnore.

(** A driver loop: each work item is scraped, which may raise, and what it
    yields is stored, which may raise; an exception ends the loop with the
    table reached. *)
Section Loop.
Context {R : Type}.
Variable same : R -> R -> bool.
Variable kept : R -> R.
Variable fits : R -> bool.
Hypothesis same_kept_l : forall r x, same (kept r) x = same r x.
Hypothesis same_kept_self : forall r, same r (kept r) = true.
Variable scrape : string -> result (list R).

Fixpoint process (links : list string) (t : list R) : list R * option exn :=
  match links with
  | [] => (t, None)
  | link :: rest =>
      if PyStr.is_empty link then process rest t
      else match scrape link with
           | Raise e => (t, Some e)
           | Ok rows =>
               if PyStr.is_nil rows then process rest t
               else match store same kept fits rows t with
                    | Ok t' => process rest t'
                    | Raise e => (t, Some e)
                    end
           end
  end.

Lemma upsert_process_unique links : forall t, unique same t -> unique same (process links t).1.
Proof.
  induction links as [|link links IH]; intros t Hu; simpl; [exact Hu|].
  destruct (PyStr.is_empty link); [now apply IH|].
  destruct (scrape link) as [rows|e]; [|exact Hu].
  destruct (PyStr.is_nil rows); [now apply IH|].
  destruct (store same kept fits rows t) as [t1|e] eqn:E; [|exact Hu].
  apply IH. eapply upsert_store_unique; eassumption.
Qed.

Lemma upsert_process_extends links : forall t, exists added, (process links t).1 = (t ++ added)%list.
Proof.
  induction links as [|link links IH]; intros t; simpl.
  - exists []. now rewrite app_nil_r.
  - destruct (PyStr.is_empty link); [apply IH|].
    destruct (scrape link) as [rows|e]; [|exists []; now rewrite app_nil_r].
    destruct (PyStr.is_nil rows); [apply IH|].
    destruct (store same kept fits rows t) as [t1|e] eqn:E;
      [|exists []; now rewrite app_nil_r].
    destruct (upsert_store_extends same kept fits rows t t1 E) as (a1 & H1 & _).
    destruct (IH t1) as (a2 & H2).
    exists (a1 ++ a2)%list. now rewrite H2, H1, app_assoc.
Qed.

Lemma upsert_process_rerun links : forall t t',
  process links t = (t', None) -> process links t' = (t', None).
Proof.
  induction links as [|link links IH]; intros t t' H; simpl in *.
  - now injection H as <-.
  - destruct (PyStr.is_empty link); [eapply IH; eassumption|].
    destruct (scrape link) as [rows|e]; [|discriminate].
    destruct (PyStr.is_nil rows); [eapply IH; eassumption|].
    destruct (store same kept fits rows t) as [t1|e] eqn:E; [|discriminate].
    assert (Hkeep : store same kept fits rows t' = Ok t').
    { apply upsert_store_noop; [now apply (upsert_store_ok _ _ _ _ _ _ E)|].
      intros r' Hr'.
      destruct (upsert_process_extends links t1) as (a & Ha).
      rewrite H in Ha. cbn [fst] in Ha. rewrite Ha, upsert_has_app.
      now rewrite (upsert_store_has same kept fits same_kept_self rows t t1 r' E Hr'). }
    rewrite Hkeep. eapply IH. exact H.
Qed.

End Loop.
End Upsert.

(** ** The box-score table under its UNIQUE key *)

Module BoxKeys.
Import BoxScore BoxDriver.

(** No stored line has the (link, team, player) key of an earlier line. *)
Definition unique_lines : list box_row -> Prop := Upsert.unique same_key.

Lemma same_key_stored_l r x : same_key (stored r) x = same_key r x.
Proof. reflexivity. Qed.

Lemma same_key_self r : same_key r (stored r) = true.
Proof. unfold same_key. simpl. now rewrite !String.eqb_refl. Qed.

Lemma store_is_upsert rows : forall t,
  store_box_score_rows rows t = Upsert.store same_key stored bindable rows t.
Proof.
  induction rows as [|r rows IH]; intros t; [reflexivity|].
  cbn [store_box_score_rows Upsert.store].
  change (insert_or_ignore t r) with (Upsert.insert same_key stored bindable t r).
  destruct (Upsert.insert same_key stored bindable t r); [apply IH | reflexivity].
Qed.

Lemma process_links_is_loop w links : forall t,
  process_links w links t
  = Upsert.process same_key stored bindable (scrape_single_box_score w) links t.
Proof.
  induction links as [|link links IH]; intros t; simpl; [reflexivity|].
  destruct (PyStr.is_empty link); [apply IH|].
  destruct (scrape_single_box_score w link) as [rows|]; [|reflexivity].
  destruct (PyStr.is_nil rows); [apply IH|]. rewrite store_is_upsert.
  destruct (Upsert.store same_key stored bindable rows t); [apply IH | reflexivity].
Qed.

(** A line with a score no 64-bit integer holds. *)
Definition huge_line : box_row :=
  {| box_score_link := "L"; team := "Boston Celtics"; player_name := "Al Horford";
     starter := 0; mp := None; fg := 0; fga := 0; fg_pct := PInt 0; threep := 0;
     threepa := 0; threep_pct := PInt 0; ft := 0; fta := 0; ft_pct := PInt 0;
     orb := 0; drb := 0; trb := 0; ast := 0; stl := 0; blk := 0; tov := 0; pf := 0;
     pts := 2 ^ 63; plus_minus := 0 |}.

End BoxKeys.

(** X1. [store_box_score_rows] goes through exactly when every number of
    every row it is given fits a 64-bit integer, and otherwise raises
    OverflowError before its commit, so that nothing of the batch is kept.
    When it goes through it only appends: the table it leaves starts with
    the table it found, each line it adds is the stored form of a row it was
    given, every row it was given has its key in the table afterwards, and a
    table in which no two lines share (box_score_link, team, player_name)
    stays so. *)
Theorem store_box_score_rows_upsert (rows t : list BoxScore.box_row) :
  BoxKeys.unique_lines t ->
  match BoxDriver.store_box_score_rows rows t with
  | Ok t' =>
      forallb BoxDriver.bindable rows = true
      /\ BoxKeys.unique_lines t'
      /\ (exists added, t' = (t ++ added)%list
            /\ Forall (fun a => exists r, In r rows /\ a = BoxDriver.stored r) added)
      /\ (forall r, In r rows -> existsb (BoxDriver.same_key r) t' = true)
  | Raise e => e = OverflowError /\ forallb BoxDriver.bindable rows = false
  end.
Proof.
  intros Hu. rewrite BoxKeys.store_is_upsert.
  destruct (Upsert.store BoxDriver.same_key BoxDriver.stored BoxDriver.bindable rows t)
    as [t'|e] eqn:E.
  - split; [now apply (Upsert.upsert_store_ok _ _ _ _ _ _ E)|]. split; [|split].
    + eapply Upsert.upsert_store_unique; [apply BoxKeys.same_key_stored_l | exact E | exact Hu].
    + eapply Upsert.upsert_store_extends. exact E.
    + intros r Hr.
      exact (Upsert.upsert_store_has _ _ _ BoxKeys.same_key_self rows t t' r E Hr).
  - now apply Upsert.upsert_store_raise in E.
Qed.

Lemma store_box_score_rows_upsert_witness :
  BoxKeys.unique_lines [BoxDriver.stored TwoGames.davis_line]
  /\ BoxDriver.store_box_score_rows
       [TwoGames.davis_line; Demo.tatum_line; Demo.tatum_line]
       [BoxDriver.stored TwoGames.davis_line]
     = Ok [BoxDriver.stored TwoGames.davis_line; BoxDriver.stored Demo.tatum_line]
  /\ BoxDriver.store_box_score_rows [Demo.tatum_line; BoxKeys.huge_line]
       [BoxDriver.stored TwoGames.davis_line]
     = Raise OverflowError.
Proof.
  pose proof (Upsert.unique_one BoxDriver.same_key (BoxDriver.stored TwoGames.davis_line))
    as H0.
  split; [exact H0|]. split.
  - vm_compute. reflexivity.
  - pose proof (store_box_score_rows_upsert [Demo.tatum_line; BoxKeys.huge_line]
                  [BoxDriver.stored TwoGames.davis_line] H0) as H.
    destruct (BoxDriver.store_box_score_rows [Demo.tatum_line; BoxKeys.huge_line]
                [BoxDriver.stored TwoGames.davis_line]) as [t'|e].
    + destruct H as (Hfits & _). vm_compute in Hfits. discriminate Hfits.
    + destruct H as (-> & _). reflexivity.
Defined.

(** X2. Whatever [scrape_box_scores_for_all_games] meets, an exception
    included, the table it leaves starts with the table it found, and a table
    in which no two lines share (box_score_link, team, player_name) stays
    so. *)
Theorem box_driver_keeps_unique_key (w : world) (games : list GameLogs.gamelog)
    (t : list BoxScore.box_row) :
  BoxKeys.unique_lines t ->
  let t' := (BoxDriver.scrape_box_scores_for_all_games w games t).1 in
  BoxKeys.unique_lines t' /\ exists added, t' = (t ++ added)%list.
Proof.
  intros Hu t'. subst t'. unfold BoxDriver.scrape_box_scores_for_all_games.
  rewrite BoxKeys.process_links_is_loop. split.
  - apply Upsert.upsert_process_unique; [apply BoxKeys.same_key_stored_l | exact Hu].
  - apply Upsert.upsert_process_extends.
Qed.

Lemma box_driver_keeps_unique_key_witness :
  BoxKeys.unique_lines [BoxDriver.stored Demo.tatum_line]
  /\ BoxDriver.scrape_box_scores_for_all_games TwoGames.site
       [TwoGames.game TwoGames.lakers_link; TwoGames.game TwoGames.celtics_link]
       [BoxDriver.stored Demo.tatum_line]
     = ([BoxDriver.stored Demo.tatum_line; BoxDriver.stored TwoGames.davis_line],
        Some ValueError)
  /\ BoxKeys.unique_lines
       (BoxDriver.scrape_box_scores_for_all_games TwoGames.site
          [TwoGames.game TwoGames.lakers_link; TwoGames.game TwoGames.celtics_link]
          [BoxDriver.stored Demo.tatum_line]).1.
Proof.
  pose proof (Upsert.unique_one BoxDriver.same_key (BoxDriver.stored Demo.tatum_line)) as H0.
  split; [exact H0|]. split; [vm_compute; reflexivity|].
  exact (proj1 (box_driver_keeps_unique_key TwoGames.site
                  [TwoGames.game TwoGames.lakers_link; TwoGames.game TwoGames.celtics_link]
                  [BoxDriver.stored Demo.tatum_line] H0)).
Defined.

(** X3. A run of [scrape_box_scores_for_all_games] that ends without an
    exception is a fixed point: run again on the table it left, over the same
    game log and the same pages, the driver ends without an exception and
    leaves that table as it is. *)
Theorem box_driver_rerun_changes_nothing (w : world) (games : list GameLogs.gamelog)
    (t t' : list BoxScore.box_row) :
  BoxDriver.scrape_box_scores_for_all_games w games t = (t', None) ->
  BoxDriver.scrape_box_scores_for_all_games w games t' = (t', None).
Proof.
  unfold BoxDriver.scrape_box_scores_for_all_games.
  rewrite !BoxKeys.process_links_is_loop.
  apply Upsert.upsert_process_rerun; [apply BoxKeys.same_key_self].
Qed.

Lemma box_driver_rerun_changes_nothing_witness :
  BoxDriver.scrape_box_scores_for_all_games TwoGames.site
    [TwoGames.game TwoGames.lakers_link] []
  = ([BoxDriver.stored TwoGames.davis_line], None)
  /\ BoxDriver.scrape_box_scores_for_all_games TwoGames.site
       [TwoGames.game TwoGames.lakers_link] [BoxDriver.stored TwoGames.davis_line]
     = ([BoxDriver.stored TwoGames.davis_line], None).
Proof.
  assert (H : BoxDriver.scrape_box_scores_for_all_games TwoGames.site
                [TwoGames.game TwoGames.lakers_link] []
              = ([BoxDriver.stored TwoGames.davis_line], None))
    by (vm_compute; reflexivity).
  split; [exact H|].
  exact (box_driver_rerun_changes_nothing TwoGames.site
           [TwoGames.game TwoGames.lakers_link] [] _ H).
Defined.

(** ** The advanced box-score driver *)

Module AdvDriver.
Import Soup AdvBoxScore.

(** The value the REAL columns keep of a row. *)
Definition stored (r : adv_row) : adv_row :=
  {| box_score_link := box_score_link r; team := team r; player_name := player_name r;
     starter := starter r; mp := mp r;
     ts_pct := PFloat (real_affinity (ts_pct r));
     efg_pct := PFloat (real_affinity (efg_pct r));
     fg3a_per_fga_pct := PFloat (real_affinity (fg3a_per_fga_pct r));
     fta_per_fga_pct := PFloat (real_affinity (fta_per_fga_pct r));
     orb_pct := PFloat (real_affinity (orb_pct r));
     drb_pct := PFloat (real_affinity (drb_pct r));
     trb_pct := PFloat (real_affinity (trb_pct r));
     ast_pct := PFloat (real_affinity (ast_pct r));
     stl_pct := PFloat (real_affinity (stl_pct r));
     blk_pct := PFloat (real_affinity (blk_pct r));
     tov_pct := PFloat (real_affinity (tov_pct r));
     usg_pct := PFloat (real_affinity (usg_pct r));
     ortg := ortg r; drtg := drtg r |}.

(** The conflict test of [UNIQUE(box_score_link, team, player_name)]. *)
Definition same_key (a b : adv_row) : bool :=
  String.eqb (box_score_link a) (box_score_link b)
  && String.eqb (team a) (team b)
  && String.eqb (player_name a) (player_name b).

(** The numbers of the row can be bound to the INSERT. *)
Definition bindable (r : adv_row) : bool :=
  fits_int64 (starter r)
  && forallb (fun kp => fits_int64 (snd kp r)) int_fields
  && forallb (fun kp => bindable_num (snd kp r)) float_fields.

Definition insert_or_ignore (t : list adv_row) (r : adv_row) : result (list adv_row) :=
  if bindable r
  then Ok (if existsb (same_key r) t then t else (t ++ [stored r])%list)
  else Raise OverflowError.

(** The loop up to its commit: an exception leaves before the commit, and
    nothing of the batch is kept. *)
Fixpoint store_advanced_box_score_rows (rows : list adv_row) (t : list adv_row)
  : result (list adv_row) :=
  match rows with
  | [] => Ok t
  | r :: rest => t' ← insert_or_ignore t r; store_advanced_box_score_rows rest t'
  end.

Section Driver.
Variable w : world.

Fixpoint parse_tables (link : string) (tbls : list node) : result (list adv_row) :=
  match tbls with
  | [] => Ok []
  | tbl :: rest =>
      data_rows ← parse_advanced_box_score_table w tbl link
                    (BoxDriver.team_label " Advanced Stats" tbl);
      more ← parse_tables link rest;
      Ok (data_rows ++ more)%list
  end.

Definition scrape_single_box_score_advanced (link : string) : result (list adv_row) :=
  if PyStr.is_empty link then Ok []
  else match http_get w link with
       | None => Ok []
       | Some text => parse_tables link (Locator.advanced_tables (html_parser w text))
       end.

Fixpoint process_links (links : list string) (t : list adv_row)
  : list adv_row * option exn :=
  match links with
  | [] => (t, None)
  | link :: rest =>
      if PyStr.is_empty link then process_links rest t
      else match scrape_single_box_score_advanced link with
           | Raise e => (t, Some e)
           | Ok rows =>
               if PyStr.is_nil rows then process_links rest t
               else match store_advanced_box_score_rows rows t with
                    | Ok t' => process_links rest t'
                    | Raise e => (t, Some e)
                    end
           end
  end.

Definition scrape_advanced_box_scores_for_all_games (games : list GameLogs.gamelog)
    (t : list adv_row) : list adv_row * option exn :=
  process_links (BoxDriver.distinct_links games) t.

End Driver.

Definition unique_lines : list adv_row -> Prop := Upsert.unique same_key.

Lemma adv_same_key_stored_l r x : same_key (stored r) x = same_key r x.
Proof. reflexivity. Qed.

Lemma adv_same_key_self r : same_key r (stored r) = true.
Proof. unfold same_key. simpl. now rewrite !String.eqb_refl. Qed.

Lemma adv_store_is_upsert rows : forall t,
  store_advanced_box_score_rows rows t = Upsert.store same_key stored bindable rows t.
Proof.
  induction rows as [|r rows IH]; intros t; [reflexivity|].
  cbn [store_advanced_box_score_rows Upsert.store].
  change (insert_or_ignore t r) with (Upsert.insert same_key stored bindable t r).
  destruct (Upsert.insert same_key stored bindable t r); [apply IH | reflexivity].
Qed.

Lemma adv_process_links_is_loop w links : forall t,
  process_links w links t
  = Upsert.process same_key stored bindable (scrape_single_box_score_advanced w) links t.
Proof.
  induction links as [|link links IH]; intros t; simpl; [reflexivity|].
  destruct (PyStr.is_empty link); [apply IH|].
  destruct (scrape_single_box_score_advanced w link) as [rows|]; [|reflexivity].
  destruct (PyStr.is_nil rows); [apply IH|]. rewrite adv_store_is_upsert.
  destruct (Upsert.store same_key stored bindable rows t); [apply IH | reflexivity].
Qed.

End AdvDriver.

Module AdvGame.
Import Soup.

Definition link : string :=
  "https://www.basketball-reference.com/boxscores/202410220BOS.html".

Definition table : node :=
  el "table" [("id", "box-BOS-game-advanced")]
    [el "caption" [] [Text "Boston Celtics Advanced Stats"];
     el "tbody" []
       [tr_class ["starter"]
          [el "th" [("data-stat", "player")] [Text "Jayson Tatum"];
           td "mp" "30:16"; td "ts_pct" ".500"; td "usg_pct" ""; td "off_rtg" "132"];
        el "tr" [] [el "th" [("data-stat", "player")] [Text "Team Totals"]; td "mp" "240"]]].

Definition site : world :=
  {| http_get := fun url => if String.eqb url link then Some "celtics" else None;
     html_parser := fun _ => Elem "[document]" [] [TwoGames.good_table; table];
     float_of_str := Demo.demo_float |}.

Definition tatum : AdvBoxScore.adv_row :=
  {| AdvBoxScore.box_score_link := link; AdvBoxScore.team := "Boston Celtics";
     AdvBoxScore.player_name := "Jayson Tatum"; AdvBoxScore.starter := 1;
     AdvBoxScore.mp := Some "30:16"; AdvBoxScore.ts_pct := PFloat 0.5;
     AdvBoxScore.efg_pct := PFloat 0; AdvBoxScore.fg3a_per_fga_pct := PFloat 0;
     AdvBoxScore.fta_per_fga_pct := PFloat 0; AdvBoxScore.orb_pct := PFloat 0;
     AdvBoxScore.drb_pct := PFloat 0; AdvBoxScore.trb_pct := PFloat 0;
     AdvBoxScore.ast_pct := PFloat 0; AdvBoxScore.stl_pct := PFloat 0;
     AdvBoxScore.blk_pct := PFloat 0; AdvBoxScore.tov_pct := PFloat 0;
     AdvBoxScore.usg_pct := PFloat 0; AdvBoxScore.ortg := 132; AdvBoxScore.drtg := 0 |}.

Definition games : list GameLogs.gamelog :=
  [TwoGames.game link; TwoGames.game TwoGames.lakers_link; TwoGames.game link].

Example advanced_run :
  AdvDriver.scrape_advanced_box_scores_for_all_games site games [] = ([tatum], None).
Proof. vm_compute. reflexivity. Qed.

End AdvGame.

(** X4. Whatever [scrape_advanced_box_scores_for_all_games] meets, an
    exception included, the table it leaves starts with the table it found,
    and a table in which no two lines share (box_score_link, team,
    player_name) stays so. *)
Theorem advanced_driver_keeps_unique_key (w : world) (games : list GameLogs.gamelog)
    (t : list AdvBoxScore.adv_row) :
  AdvDriver.unique_lines t ->
  let t' := (AdvDriver.scrape_advanced_box_scores_for_all_games w games t).1 in
  AdvDriver.unique_lines t' /\ exists added, t' = (t ++ added)%list.
Proof.
  intros Hu t'. subst t'. unfold AdvDriver.scrape_advanced_box_scores_for_all_games.
  rewrite AdvDriver.adv_process_links_is_loop. split.
  - apply Upsert.upsert_process_unique; [apply AdvDriver.adv_same_key_stored_l | exact Hu].
  - apply Upsert.upsert_process_extends.
Qed.

Lemma advanced_driver_keeps_unique_key_witness :
  AdvDriver.unique_lines [AdvDriver.stored Demo.tatum_adv]
  /\ AdvDriver.scrape_advanced_box_scores_for_all_games AdvGame.site AdvGame.games
       [AdvDriver.stored Demo.tatum_adv]
     = ([AdvDriver.stored Demo.tatum_adv; AdvGame.tatum], None)
  /\ AdvDriver.unique_lines
       (AdvDriver.scrape_advanced_box_scores_for_all_games AdvGame.site AdvGame.games
          [AdvDriver.stored Demo.tatum_adv]).1.
Proof.
  pose proof (Upsert.unique_one AdvDriver.same_key (AdvDriver.stored Demo.tatum_adv)) as H0.
  split; [exact H0|]. split; [vm_compute; reflexivity|].
  exact (proj1 (advanced_driver_keeps_unique_key AdvGame.site AdvGame.games
                  [AdvDriver.stored Demo.tatum_adv] H0)).
Defined.

(** X5. A run of [scrape_advanced_box_scores_for_all_games] that ends without
    an exception is a fixed point: run again on the table it left, over the
    same game log and the same pages, the driver ends without an exception
    and leaves that table as it is. *)
Theorem advanced_driver_rerun_changes_nothing (w : world) (games : list GameLogs.gamelog)
    (t t' : list AdvBoxScore.adv_row) :
  AdvDriver.scrape_advanced_box_scores_for_all_games w games t = (t', None) ->
  AdvDriver.scrape_advanced_box_scores_for_all_games w games t' = (t', None).
Proof.
  unfold AdvDriver.scrape_advanced_box_scores_for_all_games.
  rewrite !AdvDriver.adv_process_links_is_loop.
  apply Upsert.upsert_process_rerun; [apply AdvDriver.adv_same_key_self].
Qed.

Lemma advanced_driver_rerun_changes_nothing_witness :
  AdvDriver.scrape_advanced_box_scores_for_all_games AdvGame.site AdvGame.games []
  = ([AdvGame.tatum], None)
  /\ AdvDriver.scrape_advanced_box_scores_for_all_games AdvGame.site AdvGame.games
       [AdvGame.tatum]
     = ([AdvGame.tatum], None).
Proof.
  split; [exact AdvGame.advanced_run|].
  exact (advanced_driver_rerun_changes_nothing AdvGame.site AdvGame.games [] _
           AdvGame.advanced_run).
Defined.

(** ** The schedule table and the season driver *)

Module Season.
Import Soup GameLogs.

(** The columns the duplicate check compares, on two stored rows. *)
Definition same_date_teams (a b : gamelog) : bool :=
  String.eqb (game_date b) (game_date a)
  && String.eqb (visitor_team b) (visitor_team a)
  && String.eqb (home_team b) (home_team a).

(** No stored game has the date and the two teams of an earlier one. *)
Definition unique_games : list gamelog -> Prop := Upsert.unique same_date_teams.

(** The rows a call for [year] and [mon] writes carry that year and the
    capitalised month. *)
Definition labelled (year : nat) (mon : string) (r : gamelog) : Prop :=
  season_year r = Z.of_nat year /\ month r = PyStr.capitalize mon.

Definition months : list string :=
  ["october"; "november"; "december"; "january"; "february"; "march"; "april"].

(** [range(2004, 2026)] *)
Definition years : list nat := seq 2004 22.

Section Driver.
Variable w : world.

(** The inner loop; an exception of a call leaves both loops, with the table
    as the calls before it committed it. *)
Fixpoint scrape_months (year : nat) (ms : list string) (t : list gamelog)
  : list gamelog * option exn :=
  match ms with
  | [] => (t, None)
  | m :: rest =>
      match scrape_month_schedule_to_db w year m t with
      | Ok t' => scrape_months year rest t'
      | Raise e => (t, Some e)
      end
  end.

Fixpoint scrape_years (ys : list nat) (t : list gamelog) : list gamelog * option exn :=
  match ys with
  | [] => (t, None)
  | year :: rest =>
      match scrape_months year months t with
      | (t', None) => scrape_years rest t'
      | (t', Some e) => (t', Some e)
      end
  end.

Definition scrape_season_schedule_to_db (t : list gamelog) : list gamelog * option exn :=
  scrape_years years t.

End Driver.

(** *** One call *)

Lemma insert_game_step year mon t g t' :
  insert_game year mon t g = Ok t' ->
  (exists added, t' = (t ++ added)%list /\ Forall (labelled year mon) added)
  /\ (unique_games t -> unique_games t').
Proof.
  unfold insert_game. destruct (existing g t) eqn:He.
  - intros [= <-]. split; [|auto]. exists []. now rewrite app_nil_r.
  - destruct (PyStr.int_of_str (g_visitor_pts g)) as [v|]; [|discriminate].
    destruct (PyStr.int_of_str (g_home_pts g)) as [h|]; [|discriminate].
    destruct (fits_int64 v && fits_int64 h); [|discriminate].
    intros [= <-]. split.
    + eexists. split; [reflexivity|]. constructor; [|constructor]. now split.
    + intros Hu.
      apply (Upsert.upsert_unique_snoc same_date_teams (fun r => r) (fun _ _ => eq_refl));
        [exact Hu | exact He].
Qed.

Lemma insert_games_step year mon gs : forall t t',
  insert_games year mon t gs = Ok t' ->
  (exists added, t' = (t ++ added)%list /\ Forall (labelled year mon) added)
  /\ (unique_games t -> unique_games t').
Proof.
  induction gs as [|g gs IH]; intros t t' H; simpl in H.
  - injection H as <-. split; [|auto]. exists []. now rewrite app_nil_r.
  - apply bind_Ok_inv in H as (t1 & H1 & H2).
    apply insert_game_step in H1 as ((a1 & -> & F1) & U1).
    apply IH in H2 as ((a2 & -> & F2) & U2). split; [|auto].
    exists (a1 ++ a2)%list. split; [now rewrite app_assoc|].
    apply Forall_app. now split.
Qed.

Lemma month_step w year mon t t' :
  scrape_month_schedule_to_db w year mon t = Ok t' ->
  (exists added, t' = (t ++ added)%list /\ Forall (labelled year mon) added)
  /\ (unique_games t -> unique_games t').
Proof.
  unfold scrape_month_schedule_to_db.
  assert (Hsame : (exists added, t = (t ++ added)%list /\ Forall (labelled year mon) added)
                  /\ (unique_games t -> unique_games t)).
  { split; [|auto]. exists []. now rewrite app_nil_r. }
  destruct (http_get w (schedule_url year mon)) as [text|]; [|now intros [= <-]].
  destruct (schedule_rows w (html_parser w text)) as [rows|]; [|now intros [= <-]].
  apply insert_games_step.
Qed.

(** A call that went through goes through again, and writes nothing, on any
    table that starts with the one it left. *)
Lemma month_settled w year mon t t' ext :
  scrape_month_schedule_to_db w year mon t = Ok t' ->
  scrape_month_schedule_to_db w year mon (t' ++ ext) = Ok (t' ++ ext)%list.
Proof.
  unfold scrape_month_schedule_to_db.
  destruct (http_get w (schedule_url year mon)) as [text|]; [|reflexivity].
  destruct (schedule_rows w (html_parser w text)) as [rows|]; [|reflexivity].
  intros H. apply insert_games_grows in H as [H _].
  apply insert_games_all_existing.
  eapply Forall_impl; [exact H|]. intros g Hg. simpl in Hg.
  now rewrite existing_app, Hg.
Qed.

(** *** The loops *)

Lemma months_step w year ms : forall t,
  (exists added, (scrape_months w year ms t).1 = (t ++ added)%list)
  /\ (unique_games t -> unique_games (scrape_months w year ms t).1).
Proof.
  induction ms as [|m ms IH]; intros t; simpl.
  - split; [|auto]. exists []. now rewrite app_nil_r.
  - destruct (scrape_month_schedule_to_db w year m t) as [t1|e] eqn:E.
    + apply month_step in E as ((a1 & -> & _) & U1).
      destruct (IH (t ++ a1)%list) as ((a2 & H2) & U2). split; [|auto].
      exists (a1 ++ a2)%list. now rewrite H2, app_assoc.
    + split; [|auto]. exists []. now rewrite app_nil_r.
Qed.

Lemma months_settled w year ms : forall t t' ext,
  scrape_months w year ms t = (t', None) ->
  scrape_months w year ms (t' ++ ext) = ((t' ++ ext)%list, None).
Proof.
  induction ms as [|m ms IH]; intros t t' ext H; simpl in *.
  - reflexivity.
  - destruct (scrape_month_schedule_to_db w year m t) as [t1|e] eqn:E; [|discriminate].
    destruct (months_step w year ms t1) as ((a & Ha) & _).
    rewrite H in Ha. simpl in Ha. subst t'.
    rewrite <- app_assoc, (month_settled _ _ _ _ _ (a ++ ext) E), app_assoc.
    now apply (IH t1).
Qed.

Lemma years_step w ys : forall t,
  (exists added, (scrape_years w ys t).1 = (t ++ added)%list)
  /\ (unique_games t -> unique_games (scrape_years w ys t).1).
Proof.
  induction ys as [|y ys IH]; intros t; cbn [scrape_years].
  - split; [|auto]. exists []. now rewrite app_nil_r.
  - destruct (months_step w y months t) as ((a1 & H1) & U1).
    destruct (scrape_months w y months t) as [t1 [e|]]; cbn [fst] in H1, U1 |- *.
    + split; [|auto]. now exists a1.
    + destruct (IH t1) as ((a2 & H2) & U2). split; [|auto].
      exists (a1 ++ a2)%list. now rewrite H2, H1, app_assoc.
Qed.

Lemma years_settled w ys : forall t t' ext,
  scrape_years w ys t = (t', None) ->
  scrape_years w ys (t' ++ ext) = ((t' ++ ext)%list, None).
Proof.
  induction ys as [|y ys IH]; intros t t' ext H; cbn [scrape_years] in *.
  - reflexivity.
  - destruct (scrape_months w y months t) as [t1 [e|]] eqn:E; [discriminate|].
    destruct (years_step w ys t1) as ((a & Ha) & _).
    rewrite H in Ha. cbn [fst] in Ha. subst t'.
    rewrite <- app_assoc, (months_settled _ _ _ _ _ (a ++ ext) E), app_assoc.
    now apply (IH t1).
Qed.

End Season.

Module Season2025.
Import Soup.

(** A game of April that has not been played: no points, no box-score
    anchor, no remarks cell. *)
Definition unplayed_row : node :=
  el "tr" []
    [el "th" [("data-stat", "date_game")] [Text "Sun, Apr 13, 2025"];
     td "game_start_time" "1:00p";
     td "visitor_team_name" "Charlotte Hornets";
     td "visitor_pts" "";
     td "home_team_name" "Boston Celtics";
     td "home_pts" "";
     td "box_score_text" "";
     td "overtimes" "";
     td "attendance" ""].

Definition april_page : node :=
  Elem "[document]" []
    [el "table" [("id", "schedule")]
       [el "tbody" []
          [tr_class ["thead"] [el "th" [] [Text "Date"]];
           el "tr" [] [el "th" [("colspan", "10")] [Text "Playoffs"]];
           unplayed_row]]].

Definition site : world :=
  {| http_get := fun url =>
       if String.eqb url (GameLogs.schedule_url 2025 "october") then Some "october"
       else if String.eqb url (GameLogs.schedule_url 2025 "april") then Some "april"
       else None;
     html_parser := fun text =>
       if String.eqb text "october" then OpeningNight.schedule_page else april_page;
     float_of_str := Demo.demo_float |}.

Definition unplayed : GameLogs.gamelog :=
  {| GameLogs.season_year := 2025; GameLogs.month := "April";
     GameLogs.game_date := "Sun, Apr 13, 2025"; GameLogs.start_et := "1:00p";
     GameLogs.visitor_team := "Charlotte Hornets"; GameLogs.visitor_pts := 0;
     GameLogs.home_team := "Boston Celtics"; GameLogs.home_pts := 0;
     GameLogs.box_score_link := None; GameLogs.overtime := "";
     GameLogs.attendance := ""; GameLogs.notes := "" |}.

Example season_run :
  Season.scrape_season_schedule_to_db site []
  = ([OpeningNight.opening_row; unplayed], None).
Proof. vm_compute. reflexivity. Qed.

End Season2025.

(** X6. A call of [scrape_month_schedule_to_db] that returns only appends:
    the table it leaves starts with the table it found, so a stored game is
    never rewritten; each row it adds carries the call's year and the
    capitalised month; and a table in which no two games share (game_date,
    visitor_team, home_team) stays so. *)
Theorem month_call_only_appends (w : world) (year : nat) (mon : string)
    (t t' : list GameLogs.gamelog) :
  GameLogs.scrape_month_schedule_to_db w year mon t = Ok t' ->
  (exists added, t' = (t ++ added)%list /\ Forall (Season.labelled year mon) added)
  /\ (Season.unique_games t -> Season.unique_games t').
Proof. apply Season.month_step. Qed.

Lemma month_call_only_appends_witness :
  (exists added,
      [OpeningNight.opening_row; Season2025.unplayed]
      = ([OpeningNight.opening_row] ++ added)%list
      /\ Forall (Season.labelled 2025 "april") added)
  /\ (Season.unique_games [OpeningNight.opening_row] ->
      Season.unique_games [OpeningNight.opening_row; Season2025.unplayed]).
Proof.
  apply (month_call_only_appends Season2025.site 2025 "april" [OpeningNight.opening_row]).
  vm_compute. reflexivity.
Defined.

(** X7. Whatever [scrape_season_schedule_to_db] meets, an exception included,
    the table it leaves starts with the table it found, and a table in which
    no two games share (game_date, visitor_team, home_team) stays so. *)
Theorem season_keeps_unique_games (w : world) (t : list GameLogs.gamelog) :
  Season.unique_games t ->
  let t' := (Season.scrape_season_schedule_to_db w t).1 in
  Season.unique_games t' /\ exists added, t' = (t ++ added)%list.
Proof.
  intros Hu t'. subst t'. unfold Season.scrape_season_schedule_to_db.
  destruct (Season.years_step w Season.years t) as (Hext & Huniq). auto.
Qed.

Lemma season_keeps_unique_games_witness :
  Season.unique_games [Season2025.unplayed]
  /\ Season.scrape_season_schedule_to_db Season2025.site [Season2025.unplayed]
     = ([Season2025.unplayed; OpeningNight.opening_row], None)
  /\ Season.unique_games
       (Season.scrape_season_schedule_to_db Season2025.site [Season2025.unplayed]).1.
Proof.
  pose proof (Upsert.unique_one Season.same_date_teams Season2025.unplayed) as H0.
  split; [exact H0|]. split; [vm_compute; reflexivity|].
  exact (proj1 (season_keeps_unique_games Season2025.site [Season2025.unplayed] H0)).
Defined.

(** X8. A run of [scrape_season_schedule_to_db] that ends without an
    exception is a fixed point: run again on the table it left, against the
    same pages, all the calls for the years 2004 to 2025 and the months
    October to April go through and the table stays as it is. *)
Theorem season_rerun_changes_nothing (w : world) (t t' : list GameLogs.gamelog) :
  Season.scrape_season_schedule_to_db w t = (t', None) ->
  Season.scrape_season_schedule_to_db w t' = (t', None).
Proof.
  unfold Season.scrape_season_schedule_to_db. intros H.
  pose proof (Season.years_settled w Season.years t t' [] H) as H'.
  now rewrite app_nil_r in H'.
Qed.

Lemma season_rerun_changes_nothing_witness :
  Season.scrape_season_schedule_to_db Season2025.site []
  = ([OpeningNight.opening_row; Season2025.unplayed], None)
  /\ Season.scrape_season_schedule_to_db Season2025.site
       [OpeningNight.opening_row; Season2025.unplayed]
     = ([OpeningNight.opening_row; Season2025.unplayed], None).
Proof.
  split; [exact Season2025.season_run|].
  exact (season_rerun_changes_nothing Season2025.site [] _ Season2025.season_run).
Defined.

(** X9. The schedule loop skips a row with fewer than nine cells.  A row
    whose two score cells are empty and whose box-score cell holds no anchor
    (a game not yet played) raises nothing: if no stored game has its date
    and teams it is stored with 0 points on both sides and a NULL link, so
    the box-score drivers get no new link from it; if one has, the table is
    left as it is. *)
Theorem unplayed_game_stored_with_zero_points (row : Soup.node) :
  let cells := Soup.find_all (Soup.named ["th"; "td"]) row in
  ((length cells < 9)%nat -> GameLogs.read_row row = None)
  /\ (forall c0 c1 c2 c3 c4 c5 c6 c7 c8 more,
        cells = c0 :: c1 :: c2 :: c3 :: c4 :: c5 :: c6 :: c7 :: c8 :: more ->
        Soup.get_text c3 = "" ->
        Soup.get_text c5 = "" ->
        Soup.find (Soup.named ["a"]) c6 = None ->
        exists g, GameLogs.read_row row = Some g
          /\ forall year mon t,
               if GameLogs.existing g t
               then GameLogs.insert_game year mon t g = Ok t
               else exists r,
                   GameLogs.insert_game year mon t g = Ok (t ++ [r])%list
                   /\ GameLogs.visitor_pts r = 0 /\ GameLogs.home_pts r = 0
                   /\ GameLogs.box_score_link r = None
                   /\ BoxDriver.distinct_links (t ++ [r]) = BoxDriver.distinct_links t).
Proof.
  intros cells. subst cells. unfold GameLogs.read_row. split.
  - intros Hlen.
    destruct (Soup.find_all (Soup.named ["th"; "td"]) row)
      as [|c0 [|c1 [|c2 [|c3 [|c4 [|c5 [|c6 [|c7 [|c8 more]]]]]]]]];
      try reflexivity.
    simpl in Hlen. lia.
  - intros c0 c1 c2 c3 c4 c5 c6 c7 c8 more -> H3 H5 H6.
    rewrite H3, H5, H6. eexists. split; [reflexivity|].
    intros year mon t. unfold GameLogs.insert_game.
    destruct (GameLogs.existing _ t); [reflexivity|].
    cbn [GameLogs.g_visitor_pts GameLogs.g_home_pts GameLogs.or_zero PyStr.is_empty].
    change (PyStr.int_of_str "0") with (Some 0).
    change (fits_int64 0 && fits_int64 0) with true. cbv iota.
    eexists. split; [reflexivity|]. repeat split.
    unfold BoxDriver.distinct_links. rewrite omap_app. simpl. now rewrite app_nil_r.
Qed.

Lemma unplayed_game_stored_with_zero_points_witness :
  GameLogs.read_row (Soup.el "tr" [] [Soup.el "th" [("colspan", "10")] [Soup.Text "Playoffs"]])
  = None
  /\ exists g, GameLogs.read_row Season2025.unplayed_row = Some g
       /\ GameLogs.insert_game 2025 "april" [OpeningNight.opening_row] g
          = Ok [OpeningNight.opening_row; Season2025.unplayed].
Proof.
  split.
  - apply (proj1 (unplayed_game_stored_with_zero_points
                    (Soup.el "tr" [] [Soup.el "th" [("colspan", "10")] [Soup.Text "Playoffs"]]))).
    vm_compute. lia.
  - destruct (proj2 (unplayed_game_stored_with_zero_points Season2025.unplayed_row)
                _ _ _ _ _ _ _ _ _ _ eq_refl eq_refl eq_refl eq_refl) as (g & Hg & Hins).
    exists g. split; [exact Hg|].
    injection Hg as <-. vm_compute. reflexivity.
Defined.

(** ** Removing duplicate players ([organize_db.py]) *)

Module OrganizeDb.
Import Players.

(** Python's [==] on two fetched TEXT values: [None] equals [None]. *)
Definition text_eqb (a b : option string) : bool :=
  match a, b with
  | Some x, Some y => String.eqb x y
  | None, None => true
  | _, _ => false
  end.

(** Python's [==] on two fetched REAL values: a NULL comes back as [None],
    which equals [None]. *)
Definition real_eqb (a b : float) : bool :=
  PrimFloat.eqb a b || (PrimFloat.is_nan a && PrimFloat.is_nan b).

(** Equality of the nine-column key tuples of two rows. *)
Definition key_eqb (a b : player) : bool :=
  String.eqb (name b) (name a)
  && String.eqb (team b) (team a)
  && text_eqb (position b) (position a)
  && text_eqb (height b) (height a)
  && real_eqb (weight b) (weight a)
  && text_eqb (birth_date b) (birth_date a)
  && text_eqb (birth_country b) (birth_country a)
  && text_eqb (experience b) (experience a)
  && text_eqb (college b) (college a).

(** [ORDER BY id] *)
Fixpoint insert_by_id (r : player) (l : list player) : list player :=
  match l with
  | [] => [r]
  | x :: l' => if id r <? id x then r :: x :: l' else x :: insert_by_id r l'
  end.

Definition order_by_id (l : list player) : list player := foldr insert_by_id [] l.

(** The scan: [unique_map] holds the first row of each key met so far; the
    result is [to_delete]. *)
Fixpoint scan (unique_map : list player) (fetched : list player) : list Z :=
  match fetched with
  | [] => []
  | row :: rest =>
      if existsb (key_eqb row) unique_map then id row :: scan unique_map rest
      else scan (unique_map ++ [row]) rest
  end.

(** [DELETE FROM players WHERE id = ?] *)
Definition delete_id (l : list player) (del_id : Z) : list player :=
  List.filter (fun r => negb (id r =? del_id)) l.

Definition remove_duplicates (t : table) : table :=
  {| rows := fold_left delete_id (scan [] (order_by_id (rows t))) (rows t);
     seq := seq t |}.

(** *** The rows that stay *)

(** The ids grow along the table, as AUTOINCREMENT hands them out. *)
Definition increasing_ids (l : list player) : Prop :=
  forall i j a b, (i < j)%nat -> l !! i = Some a -> l !! j = Some b -> id a < id b.

Fixpoint survivors (seen : list player) (l : list player) : list player :=
  match l with
  | [] => []
  | r :: rest =>
      if existsb (key_eqb r) seen then survivors seen rest
      else r :: survivors (seen ++ [r]) rest
  end.

Fixpoint fresh_chain (seen : list player) (l : list player) : Prop :=
  match l with
  | [] => True
  | r :: rest => existsb (key_eqb r) seen = false /\ fresh_chain (seen ++ [r]) rest
  end.

Lemma increasing_cons x l :
  increasing_ids (x :: l) <-> (forall y, y ∈ l -> id x < id y) /\ increasing_ids l.
Proof.
  split.
  - intros H. split.
    + intros y Hy. apply list_elem_of_lookup in Hy as (j & Hj).
      apply (H 0%nat (S j) x y); [lia | reflexivity | exact Hj].
    + intros i j a b Hij Ha Hb. apply (H (S i) (S j) a b); [lia | exact Ha | exact Hb].
  - intros (Hx & Hl) i j a b Hij Ha Hb.
    destruct j as [|j]; [lia|]. simpl in Hb.
    destruct i as [|i]; simpl in Ha.
    + injection Ha as <-. apply Hx. eapply list_elem_of_lookup_2. exact Hb.
    + apply (Hl i j a b); [lia | exact Ha | exact Hb].
Qed.

Lemma order_by_id_increasing l : increasing_ids l -> order_by_id l = l.
Proof.
  induction l as [|x l IH]; intros H; [reflexivity|].
  apply increasing_cons in H as (Hx & Hl).
  unfold order_by_id in *. simpl. rewrite (IH Hl).
  destruct l as [|y l']; [reflexivity|]. simpl.
  assert (id x < id y) by (apply Hx; left).
  destruct (Z.ltb_spec (id x) (id y)); [reflexivity | lia].
Qed.

Lemma survivors_subset seen l : forall r, r ∈ survivors seen l -> r ∈ l.
Proof.
  revert seen. induction l as [|x l IH]; intros seen r; simpl; [auto|].
  destruct (existsb (key_eqb x) seen).
  - intros H. right. eapply IH. exact H.
  - intros H. apply elem_of_cons in H as [->|H]; [left | right; eapply IH; exact H].
Qed.

Lemma survivors_sublist l : forall seen, sublist (survivors seen l) l.
Proof.
  induction l as [|x l IH]; intros seen; simpl; [constructor|].
  destruct (existsb (key_eqb x) seen); [apply sublist_cons | apply sublist_skip]; apply IH.
Qed.

Lemma survivors_increasing l : forall seen,
  increasing_ids l -> increasing_ids (survivors seen l).
Proof.
  induction l as [|x l IH]; intros seen H; simpl; [exact H|].
  apply increasing_cons in H as (Hx & Hl).
  destruct (existsb (key_eqb x) seen); [now apply IH|].
  apply increasing_cons. split; [|now apply IH].
  intros y Hy. apply Hx. eapply survivors_subset. exact Hy.
Qed.

Lemma scan_ids seen l : forall i, In i (scan seen l) -> exists r, r ∈ l /\ id r = i.
Proof.
  revert seen. induction l as [|x l IH]; intros seen i; simpl; [intros []|].
  destruct (existsb (key_eqb x) seen).
  - intros [<-|H]; [exists x; split; [left | reflexivity]|].
    destruct (IH _ _ H) as (r & Hr & <-). exists r. split; [now right | reflexivity].
  - intros H. destruct (IH _ _ H) as (r & Hr & <-). exists r. split; [now right | reflexivity].
Qed.

Definition listed (ids : list Z) (r : player) : bool := existsb (Z.eqb (id r)) ids.

Lemma fold_delete ids : forall l,
  fold_left delete_id ids l = List.filter (fun r => negb (listed ids r)) l.
Proof.
  induction ids as [|i ids IH]; intros l; simpl.
  - induction l as [|x l IHl]; simpl; [reflexivity | now rewrite <- IHl].
  - rewrite IH. unfold delete_id. induction l as [|x l IHl]; simpl; [reflexivity|].
    unfold listed at 2. simpl. destruct (id x =? i); simpl; [exact IHl|].
    fold (listed ids x). destruct (listed ids x); simpl; [exact IHl | now rewrite IHl].
Qed.

Lemma filter_skip_head i ids l :
  (forall r, r ∈ l -> id r <> i) ->
  List.filter (fun r => negb (listed (i :: ids) r)) l
  = List.filter (fun r => negb (listed ids r)) l.
Proof.
  induction l as [|x l IH]; intros H; [reflexivity|].
  cbn [List.filter]. rewrite IH by (intros r Hr; apply H; now right).
  assert (Hx : (id x =? i) = false) by (apply Z.eqb_neq, H; left).
  unfold listed at 1. cbn [existsb]. now rewrite Hx.
Qed.

Lemma scan_unlisted seen x l :
  (forall y, y ∈ l -> id x < id y) -> listed (scan seen l) x = false.
Proof.
  intros Hx. unfold listed. destruct (existsb _ _) eqn:E; [|reflexivity].
  apply existsb_exists in E as (i & Hi & Heq). apply Z.eqb_eq in Heq.
  destruct (scan_ids _ _ _ Hi) as (r & Hr & Hid). specialize (Hx r Hr). lia.
Qed.

Lemma delete_scan l : forall seen,
  increasing_ids l ->
  List.filter (fun r => negb (listed (scan seen l) r)) l = survivors seen l.
Proof.
  induction l as [|x l IH]; intros seen H; [reflexivity|].
  apply increasing_cons in H as (Hx & Hl).
  cbn [scan survivors]. destruct (existsb (key_eqb x) seen).
  - cbn [List.filter].
    assert (Hh : listed (id x :: scan seen l) x = true)
      by (unfold listed; cbn [existsb]; now rewrite Z.eqb_refl).
    rewrite Hh. cbn [negb].
    rewrite filter_skip_head; [now apply IH|].
    intros r Hr. specialize (Hx r Hr). lia.
  - cbn [List.filter]. rewrite (scan_unlisted _ _ _ Hx). cbn [negb]. now rewrite IH.
Qed.

Lemma survivors_fresh l : forall seen, fresh_chain seen (survivors seen l).
Proof.
  induction l as [|x l IH]; intros seen; simpl; [exact I|].
  destruct (existsb (key_eqb x) seen) eqn:E; [apply IH|]. simpl. split; [exact E | apply IH].
Qed.

Lemma fresh_survivors l : forall seen, fresh_chain seen l -> survivors seen l = l.
Proof.
  induction l as [|x l IH]; intros seen; simpl; [reflexivity|].
  intros (E & H). rewrite E. f_equal. now apply IH.
Qed.

Lemma fresh_unique l : forall seen,
  fresh_chain seen l ->
  (forall r x, r ∈ l -> x ∈ seen -> key_eqb r x = false) /\ Upsert.unique key_eqb l.
Proof.
  induction l as [|y l IH]; intros seen; simpl.
  - intros _. split; [intros r x Hr; inversion Hr | apply Upsert.unique_nil].
  - intros (E & H). destruct (IH _ H) as (Hseen & Hu).
    assert (Hy : forall x, x ∈ seen -> key_eqb y x = false).
    { intros x Hx. destruct (key_eqb y x) eqn:K; [|reflexivity].
      assert (existsb (key_eqb y) seen = true)
        by (apply existsb_exists; exists x; split; [now apply list_elem_of_In | exact K]).
      congruence. }
    split.
    + intros r x Hr Hx. apply elem_of_cons in Hr as [->|Hr]; [now apply Hy|].
      apply Hseen; [exact Hr|]. apply elem_of_app. now left.
    + intros i j a b Hij Ha Hb. destruct j as [|j]; [lia|]. simpl in Hb.
      destruct i as [|i]; simpl in Ha.
      * injection Ha as <-. apply Hseen.
        -- eapply list_elem_of_lookup_2. exact Hb.
        -- apply elem_of_app. right. left.
      * apply (Hu i j a b); [lia | exact Ha | exact Hb].
Qed.

Lemma real_eqb_refl a : real_eqb a a = true.
Proof. unfold real_eqb, PrimFloat.is_nan. now destruct (PrimFloat.eqb a a). Qed.

Lemma text_eqb_refl a : text_eqb a a = true.
Proof. destruct a; simpl; [apply String.eqb_refl | reflexivity]. Qed.

Lemma key_eqb_refl r : key_eqb r r = true.
Proof.
  unfold key_eqb. now rewrite !String.eqb_refl, !text_eqb_refl, real_eqb_refl.
Qed.

(** Every fetched row has the key of a row that stays, itself or one with a
    smaller id. *)
Lemma survivors_cover l : forall seen r,
  increasing_ids l ->
  r ∈ l ->
  (exists k, k ∈ seen /\ key_eqb r k = true)
  \/ (exists k, k ∈ survivors seen l /\ key_eqb r k = true /\ id k <= id r).
Proof.
  induction l as [|x l IH]; intros seen r H Hr; [inversion Hr|].
  apply increasing_cons in H as (Hx & Hl). simpl.
  apply elem_of_cons in Hr as [->|Hr].
  - destruct (existsb (key_eqb x) seen) eqn:E.
    + left. apply existsb_exists in E as (k & Hk & E). exists k.
      split; [now apply list_elem_of_In | exact E].
    + right. exists x. split; [left|]. split; [apply key_eqb_refl | lia].
  - destruct (existsb (key_eqb x) seen) eqn:E; [now apply IH|].
    destruct (IH (seen ++ [x])%list r Hl Hr) as [(k & Hk & K)|(k & Hk & K & Hid)].
    + apply elem_of_app in Hk as [Hk|Hk]; [left; eauto|].
      apply list_elem_of_singleton in Hk as ->. right. exists x.
      split; [left|]. split; [exact K|]. specialize (Hx r Hr). lia.
    + right. exists k. split; [now right|]. auto.
Qed.

Lemma remove_duplicates_rows t :
  increasing_ids (rows t) -> rows (remove_duplicates t) = survivors [] (rows t).
Proof.
  intros H. unfold remove_duplicates. simpl.
  rewrite (order_by_id_increasing _ H), fold_delete. now apply delete_scan.
Qed.

(** A match of the roster's nine-column SELECT is an equality of keys. *)
Lemma matches_nine_key r' r :
  Roster.matches_nine (RosterKeys.row_key r') r = true -> key_eqb r' r = true.
Proof.
  unfold Roster.matches_nine, key_eqb, real_eqb. simpl. rewrite !andb_true_iff.
  assert (Hsql : forall a b, Roster.sql_eq a b = true -> text_eqb a b = true)
    by (intros [a|] [b|]; simpl; congruence).
  intros ((((((((H1 & H2) & H3) & H4) & H5) & H6) & H7) & H8) & H9).
  rewrite H1, H2, H5. repeat split; auto.
Qed.

End OrganizeDb.

Module Duplicated.

(** The table the two runs of the roster driver leave on the page without a
    College column, with a third player. *)
Definition before : Players.table :=
  {| Players.rows := [NoCollege.tatum 1; NoCollege.tatum 2; Traded.lebron 3 "CLE"];
     Players.seq := 3 |}.

Definition after : Players.table :=
  {| Players.rows := [NoCollege.tatum 1; Traded.lebron 3 "CLE"]; Players.seq := 3 |}.

Fixpoint ascending (l : list Players.player) : bool :=
  match l with
  | x :: l' =>
      match l' with
      | y :: _ => (Players.id x <? Players.id y) && ascending l'
      | [] => true
      end
  | [] => true
  end.

Lemma ascending_increasing l : ascending l = true -> OrganizeDb.increasing_ids l.
Proof.
  induction l as [|x l IH]; [intros _ i j a b _ Hi; destruct i; discriminate Hi|].
  cbn [ascending]. destruct l as [|y l'].
  - intros _. apply OrganizeDb.increasing_cons. split; [intros z Hz; inversion Hz|].
    intros i j a b _ Hi. destruct i; discriminate Hi.
  - intros H. apply andb_true_iff in H as (Hxy & Hl). apply Z.ltb_lt in Hxy.
    specialize (IH Hl). apply OrganizeDb.increasing_cons. split; [|exact IH].
    apply OrganizeDb.increasing_cons in IH as (Hy & _).
    intros z Hz. apply elem_of_cons in Hz as [->|Hz]; [exact Hxy|].
    specialize (Hy z Hz). lia.
Qed.

Example remove_duplicates_run : OrganizeDb.remove_duplicates before = after.
Proof. vm_compute. reflexivity. Qed.

End Duplicated.

(** X10. On a table whose ids grow along its rows, [remove_duplicates] only
    deletes: the rows it leaves are a sublist of the rows it found and the
    AUTOINCREMENT counter is untouched; no row it leaves has the nine-column
    key of an earlier one, NULLs counting as equal; every row it found has
    the key of a row it leaves whose id is not larger (the first of each key
    stays); and the table it leaves satisfies the no-shared-key condition of
    the roster drivers. *)
Theorem remove_duplicates_keeps_first (t : Players.table) :
  OrganizeDb.increasing_ids (Players.rows t) ->
  let t' := OrganizeDb.remove_duplicates t in
  sublist (Players.rows t') (Players.rows t)
  /\ Players.seq t' = Players.seq t
  /\ Upsert.unique OrganizeDb.key_eqb (Players.rows t')
  /\ (forall r, r ∈ Players.rows t ->
        exists k, k ∈ Players.rows t' /\ OrganizeDb.key_eqb r k = true
                  /\ Players.id k <= Players.id r)
  /\ RosterKeys.no_shared_key (Players.rows t').
Proof.
  intros Hinc t'. subst t'. rewrite (OrganizeDb.remove_duplicates_rows t Hinc).
  pose proof (OrganizeDb.fresh_unique _ _ (OrganizeDb.survivors_fresh (Players.rows t) []))
    as (_ & Hu).
  split; [apply OrganizeDb.survivors_sublist|]. split; [reflexivity|].
  split; [exact Hu|]. split.
  - intros r Hr.
    destruct (OrganizeDb.survivors_cover (Players.rows t) [] r Hinc Hr)
      as [(k & Hk & _)|H]; [inversion Hk | exact H].
  - intros i j r r' Hij Hi Hj.
    destruct (Roster.matches_nine (RosterKeys.row_key r') r) eqn:E; [|reflexivity].
    apply OrganizeDb.matches_nine_key in E. rewrite (Hu i j r r' Hij Hi Hj) in E.
    discriminate E.
Qed.

Lemma remove_duplicates_keeps_first_witness :
  OrganizeDb.remove_duplicates Duplicated.before = Duplicated.after
  /\ sublist (Players.rows (OrganizeDb.remove_duplicates Duplicated.before))
       (Players.rows Duplicated.before)
  /\ Upsert.unique OrganizeDb.key_eqb
       (Players.rows (OrganizeDb.remove_duplicates Duplicated.before)).
Proof.
  split; [exact Duplicated.remove_duplicates_run|].
  assert (H : OrganizeDb.increasing_ids (Players.rows Duplicated.before))
    by (apply Duplicated.ascending_increasing; reflexivity).
  split.
  - exact (proj1 (remove_duplicates_keeps_first Duplicated.before H)).
  - exact (proj1 (proj2 (proj2 (remove_duplicates_keeps_first Duplicated.before H)))).
Defined.

(** X11. On a table whose ids grow along its rows, running
    [remove_duplicates] a second time deletes nothing. *)
Theorem remove_duplicates_twice (t : Players.table) :
  OrganizeDb.increasing_ids (Players.rows t) ->
  OrganizeDb.remove_duplicates (OrganizeDb.remove_duplicates t)
  = OrganizeDb.remove_duplicates t.
Proof.
  intros Hinc.
  assert (Hrows : Players.rows (OrganizeDb.remove_duplicates t)
                  = OrganizeDb.survivors [] (Players.rows t))
    by now apply OrganizeDb.remove_duplicates_rows.
  assert (Hinc' : OrganizeDb.increasing_ids (Players.rows (OrganizeDb.remove_duplicates t)))
    by (rewrite Hrows; now apply OrganizeDb.survivors_increasing).
  pose proof (OrganizeDb.remove_duplicates_rows _ Hinc') as H2.
  rewrite Hrows in H2.
  rewrite (OrganizeDb.fresh_survivors _ _ (OrganizeDb.survivors_fresh (Players.rows t) []))
    in H2.
  destruct (OrganizeDb.remove_duplicates (OrganizeDb.remove_duplicates t)) as [r2 s2] eqn:E2.
  destruct (OrganizeDb.remove_duplicates t) as [r1 s1] eqn:E1.
  simpl in *. subst r2 r1.
  assert (s2 = s1) by (unfold OrganizeDb.remove_duplicates in E2; now injection E2).
  now subst.
Qed.

Lemma remove_duplicates_twice_witness :
  OrganizeDb.remove_duplicates Duplicated.after = Duplicated.after.
Proof.
  pose proof (remove_duplicates_twice Duplicated.before
                (Duplicated.ascending_increasing (Players.rows Duplicated.before) eq_refl))
    as H.
  rewrite Duplicated.remove_duplicates_run in H. exact H.
Defined.

(** ** Runs of the URL generator *)

Module UrlRuns.
Import Players Urls.

Lemma NoDup_omap_pairs {A B} (f : A -> option B) (l : list A) :
  NoDup (omap f l)
  <-> forall i j a b u, (i < j)%nat -> l !! i = Some a -> l !! j = Some b ->
                        f a = Some u -> f b = Some u -> False.
Proof.
  induction l as [|x l IH]; cbn [omap list_omap].
  - split; [intros _ i j a b u _ Hi; destruct i; discriminate Hi | intros _; constructor].
  - split.
    + intros Hnd i j a b u Hij Hi Hj Ha Hb.
      destruct j as [|j]; [lia|]. cbn in Hj.
      destruct i as [|i]; cbn in Hi.
      * injection Hi as <-. rewrite Ha in Hnd. apply NoDup_cons in Hnd as (Hnot & _).
        apply Hnot. apply list_elem_of_omap. exists b.
        split; [eapply list_elem_of_lookup_2; exact Hj | exact Hb].
      * assert (Hnd' : NoDup (omap f l))
          by (destruct (f x); [now apply NoDup_cons in Hnd | exact Hnd]).
        apply (proj1 IH Hnd' i j a b u); auto. lia.
    + intros H.
      assert (Hnd' : NoDup (omap f l)).
      { apply IH. intros i j a b u Hij Hi Hj. apply (H (S i) (S j) a b u); auto. lia. }
      destruct (f x) as [y|] eqn:Hx; [|exact Hnd'].
      apply NoDup_cons. split; [|exact Hnd'].
      intros Hin. apply list_elem_of_omap in Hin as (b & Hb & Hfb).
      apply list_elem_of_lookup in Hb as (j & Hj).
      apply (H 0%nat (S j) x b y); auto. lia.
Qed.

Lemma fst_determines {A B} (l : list (A * B)) a b b' :
  NoDup l.*1 -> (a, b) ∈ l -> (a, b') ∈ l -> b = b'.
Proof.
  induction l as [|[a0 b0] l IH]; intros Hnd H1 H2; [inversion H1|].
  cbn in Hnd. apply NoDup_cons in Hnd as (Hnot & Hnd).
  apply elem_of_cons in H1 as [H1|H1]; apply elem_of_cons in H2 as [H2|H2].
  - congruence.
  - injection H1 as -> ->. exfalso. apply Hnot. apply list_elem_of_fmap.
    exists (a0, b'). split; [reflexivity | exact H2].
  - injection H2 as -> ->. exfalso. apply Hnot. apply list_elem_of_fmap.
    exists (a0, b). split; [reflexivity | exact H1].
  - now apply IH.
Qed.

Lemma snd_determines {A B} (l : list (A * B)) a a' b :
  NoDup l.*2 -> (a, b) ∈ l -> (a', b) ∈ l -> a = a'.
Proof.
  induction l as [|[a0 b0] l IH]; intros Hnd H1 H2; [inversion H1|].
  cbn in Hnd. apply NoDup_cons in Hnd as (Hnot & Hnd).
  apply elem_of_cons in H1 as [H1|H1]; apply elem_of_cons in H2 as [H2|H2].
  - congruence.
  - injection H1 as -> ->. exfalso. apply Hnot. apply list_elem_of_fmap.
    exists (a', b0). split; [reflexivity | exact H2].
  - injection H2 as -> ->. exfalso. apply Hnot. apply list_elem_of_fmap.
    exists (a, b0). split; [reflexivity | exact H1].
  - now apply IH.
Qed.

(** The UPDATE statements of a run go to rows that had no URL, one per row. *)
Definition targets_null (t : list player) (log : list (Z * string)) : Prop :=
  NoDup log.*1
  /\ forall pid u, (pid, u) ∈ log -> exists r, r ∈ t /\ id r = pid /\ url r = None.

Lemma lacking_url_intro t r : r ∈ t -> url r = None -> (id r, name r) ∈ lacking_url t.
Proof.
  intros Hr Hu. unfold lacking_url. apply list_elem_of_omap. exists r.
  split; [exact Hr|]. now rewrite Hu.
Qed.

Lemma run_targets_null t st :
  NoDup (id <$> t) ->
  sublist (updates st).*1 (lacking_url t).*1 ->
  targets_null t (updates st).
Proof.
  intros Hnd Hsub.
  assert (Hids : NoDup (lacking_url t).*1)
    by (eapply sublist_NoDup; [exact Hnd | apply lacking_url_ids]).
  split; [eapply sublist_NoDup; eassumption|].
  intros pid u Hin.
  assert (Hpid : pid ∈ (lacking_url t).*1).
  { eapply elem_of_sublist; [|exact Hsub]. apply list_elem_of_fmap. exists (pid, u). auto. }
  apply list_elem_of_fmap in Hpid as ([pid' nm] & -> & Hp).
  apply lacking_url_elem in Hp as (r & Hr & Hu & Hid & _). exists r. auto.
Qed.

Lemma set_url_hit r u : url (set_url (id r) u r) = Some u.
Proof. unfold set_url. now rewrite Z.eqb_refl. Qed.

(** The url of a row after the UPDATE statements of [log]. *)
Lemma url_after t log r u :
  NoDup (id <$> t) ->
  targets_null t log ->
  r ∈ t ->
  url (replay_row log r) = Some u <-> url r = Some u \/ (id r, u) ∈ log.
Proof.
  intros Hnd (Hlog & Hnull) Hr.
  destruct (replay_row_spec log r) as [[Hout ->] | (u' & Hin & ->)].
  - split; [auto|]. intros [H|H]; [exact H|]. exfalso. apply Hout.
    apply list_elem_of_fmap. exists (id r, u). auto.
  - rewrite set_url_hit. split.
    + intros [= <-]. now right.
    + intros [H|H].
      * destruct (Hnull _ _ Hin) as (r' & Hr' & Hid & Hnone).
        rewrite (id_determines_row t r r') in H; auto; congruence.
      * f_equal. exact (fst_determines log _ _ _ Hlog Hin H).
Qed.

Lemma replay_row_id log : forall r, id (replay_row log r) = id r.
Proof.
  induction log as [|[pid u] log IH]; intros r; [reflexivity|].
  unfold replay_row in *. simpl. now rewrite IH, set_url_id.
Qed.

Lemma set_url_name pid u r : name (set_url pid u r) = name r.
Proof. unfold set_url. now destruct (id r =? pid). Qed.

Lemma replay_row_name log : forall r, name (replay_row log r) = name r.
Proof.
  induction log as [|[pid u] log IH]; intros r; [reflexivity|].
  unfold replay_row in *. simpl. now rewrite IH, set_url_name.
Qed.

(** *** URLs stay distinct *)

Lemma omap_after_fmap {A B C} (f : A -> B) (g : B -> option C) (l : list A) :
  omap g (f <$> l) = omap (fun x => g (f x)) l.
Proof.
  induction l as [|x l IH]; [reflexivity|]. cbn. rewrite <- IH. reflexivity.
Qed.

Lemma run_urls_distinct t log :
  NoDup (id <$> t) ->
  NoDup (assigned_urls t) ->
  targets_null t log ->
  NoDup log.*2 ->
  (forall u, u ∈ log.*2 -> Some u ∉ url <$> t) ->
  NoDup (assigned_urls (replay_row log <$> t)).
Proof.
  intros Hnd Hurls Hnull Hlog Hfresh. unfold assigned_urls.
  rewrite omap_after_fmap. apply NoDup_omap_pairs.
  intros i j a b u Hij Hi Hj Ha Hb. cbn in Ha, Hb.
  assert (Hain : a ∈ t) by (eapply list_elem_of_lookup_2; exact Hi).
  assert (Hbin : b ∈ t) by (eapply list_elem_of_lookup_2; exact Hj).
  apply (url_after t log a u Hnd Hnull Hain) in Ha.
  apply (url_after t log b u Hnd Hnull Hbin) in Hb.
  assert (Hold : forall r pid, r ∈ t -> url r = Some u -> (pid, u) ∈ log -> False).
  { intros r pid Hr Hu Hin. apply (Hfresh u).
    - apply list_elem_of_fmap. exists (pid, u). auto.
    - apply list_elem_of_fmap. exists r. auto. }
  destruct Ha as [Ha|Ha], Hb as [Hb|Hb]; eauto.
  - exact (proj1 (NoDup_omap_pairs url t) Hurls i j a b u Hij Hi Hj Ha Hb).
  - assert (Hid : id a = id b) by exact (snd_determines log _ _ _ Hlog Ha Hb).
    assert (i = j); [|lia].
    apply (NoDup_lookup (id <$> t) i j (id a)); [exact Hnd | |].
    + now rewrite list_lookup_fmap, Hi.
    + now rewrite list_lookup_fmap, Hj, Hid.
Qed.

(** *** A name that got no URL gets none later *)

Lemma candidate_nonempty dir stem sfx k : candidate dir stem sfx k <> "".
Proof. unfold candidate, origin. discriminate. Qed.

Lemma construct_url_nonempty player_name ex u :
  construct_url player_name ex = Ok (Some u) -> u <> "".
Proof.
  unfold construct_url.
  destruct (PyStr.split player_name) as [|first_name [|second rest]]; try discriminate.
  intros H. apply bind_Ok_inv in H as (dir & _ & H).
  pose proof (probe_spec
                (candidate dir (last_part first_name (List.last (first_name :: second :: rest) ""))
                           (first_part first_name)) ex 99 1 ltac:(lia) ltac:(lia)) as Hp.
  remember (probe _ ex 99 1) as o eqn:Ho in H, Hp.
  injection H as ->. destruct Hp as (j & _ & -> & _). apply candidate_nonempty.
Qed.

Lemma construct_url_none_mono player_name (ex ex' : gset string) :
  ex ⊆ ex' ->
  construct_url player_name ex = Ok None ->
  construct_url player_name ex' = Ok None.
Proof.
  intros Hsub. unfold construct_url.
  destruct (PyStr.split player_name) as [|first_name [|second rest]]; try reflexivity.
  destruct (folder _) as [dir|e]; cbn [mbind result_bind]; [|discriminate].
  set (mk := candidate dir _ _).
  pose proof (probe_spec mk ex 99 1 ltac:(lia) ltac:(lia)) as Hp.
  pose proof (probe_spec mk ex' 99 1 ltac:(lia) ltac:(lia)) as Hp'.
  remember (probe mk ex 99 1) as o eqn:Ho.
  remember (probe mk ex' 99 1) as o' eqn:Ho'.
  clear Ho Ho'. intros [= ->]. destruct o' as [u|]; [|reflexivity].
  destruct Hp' as (j & Hj & _ & Hfree & _). exfalso. apply Hfree, Hsub, Hp. lia.
Qed.

Lemma assign_skip st p :
  construct_url (snd p) (existing_urls st) = Ok None -> assign st p = Ok st.
Proof. unfold assign. now intros ->. Qed.

(** The players a run leaves without a write get no URL against any larger
    set of URLs in use. *)
Lemma assign_all_skips ps : forall st st',
  assign_all st ps = Ok st' ->
  exists log,
    updates st' = (updates st ++ log)%list
    /\ existing_urls st ⊆ existing_urls st'
    /\ forall p, p ∈ ps -> (fst p ∉ log.*1) ->
                 forall ex, existing_urls st' ⊆ ex -> construct_url (snd p) ex = Ok None.
Proof.
  induction ps as [|p ps IH]; intros st st' H; simpl in H.
  - injection H as <-. exists []. rewrite app_nil_r. split; [reflexivity|].
    split; [reflexivity|]. intros p Hp. inversion Hp.
  - apply bind_Ok_inv in H as (st1 & H1 & H2).
    destruct (IH _ _ H2) as (log2 & Hup & Hex & Hskip).
    destruct (assign_cases st p) as [(Hsame & Hempty) | (u & Hu & Hfree & Hstep)].
    + rewrite Hsame in H1. injection H1 as <-.
      exists log2. split; [exact Hup|]. split; [exact Hex|].
      intros q Hq Hout ex Hsub. apply elem_of_cons in Hq as [->|Hq]; [|now apply Hskip].
      apply (construct_url_none_mono _ (existing_urls st)); [etransitivity; eassumption|].
      destruct (construct_url_total (snd p) (existing_urls st)) as ([u|] & Ho);
        [|exact Ho].
      exfalso. apply (construct_url_nonempty _ _ _ Ho). now apply Hempty.
    + rewrite Hstep in H1. injection H1 as <-. cbn in Hup, Hex.
      exists ((fst p, u) :: log2). split; [now rewrite Hup, <- app_assoc|].
      split; [etransitivity; [|exact Hex]; apply union_subseteq_r|].
      intros q Hq Hout ex Hsub. cbn in Hout. apply not_elem_of_cons in Hout as (Hne & Hout).
      apply elem_of_cons in Hq as [->|Hq]; [congruence|]. now apply Hskip.
Qed.

Lemma assign_all_idle ps : forall st,
  Forall (fun p => construct_url (snd p) (existing_urls st) = Ok None) ps ->
  assign_all st ps = Ok st.
Proof.
  induction ps as [|p ps IH]; intros st H; [reflexivity|].
  apply Forall_cons in H as (Hp & Hps). simpl.
  rewrite (assign_skip _ _ Hp). cbn [mbind result_bind]. now apply IH.
Qed.

End UrlRuns.

(** X12. On a table whose ids are distinct and whose URLs are pairwise
    distinct, [generate_player_urls] returns a table whose URLs are still
    pairwise distinct: they are the URLs it found and the URLs it wrote, and
    the rows keep their ids and their order. *)
Theorem url_generation_keeps_urls_distinct (t : list Players.player) :
  NoDup (Players.id <$> t) ->
  NoDup (Urls.assigned_urls t) ->
  exists st,
    Urls.generate_player_urls t = Ok st
    /\ NoDup (Urls.assigned_urls (Urls.players st))
    /\ (forall u, u ∈ Urls.assigned_urls (Urls.players st)
                  <-> u ∈ Urls.assigned_urls t \/ u ∈ (Urls.updates st).*2)
    /\ Players.id <$> Urls.players st = Players.id <$> t.
Proof.
  intros Hnd Hurls.
  destruct (Urls.generate_player_urls_spec t)
    as (st & Hrun & Hrows & Hnew & Hfresh & Hsub & _).
  pose proof (UrlRuns.run_targets_null t st Hnd Hsub) as Hnull.
  exists st. split; [exact Hrun|]. rewrite Hrows. split; [|split].
  - now apply UrlRuns.run_urls_distinct.
  - intros u. unfold Urls.assigned_urls. rewrite UrlRuns.omap_after_fmap.
    rewrite !list_elem_of_omap. split.
    + intros (r & Hr & Hu). apply (UrlRuns.url_after t _ r u Hnd Hnull Hr) in Hu.
      destruct Hu as [Hu|Hu]; [left; eauto|].
      right. apply list_elem_of_fmap. exists (Players.id r, u). auto.
    + intros [(r & Hr & Hu)|Hu].
      * exists r. split; [exact Hr|].
        apply (UrlRuns.url_after t _ r u Hnd Hnull Hr). now left.
      * apply list_elem_of_fmap in Hu as ([pid u'] & -> & Hin).
        destruct (proj2 Hnull _ _ Hin) as (r & Hr & <- & _).
        exists r. split; [exact Hr|].
        apply (UrlRuns.url_after t _ r u' Hnd Hnull Hr). now right.
  - rewrite <- list_fmap_compose. apply list_fmap_ext. intros i r _. cbn.
    apply UrlRuns.replay_row_id.
Qed.

Lemma url_generation_keeps_urls_distinct_witness :
  exists st,
    Urls.generate_player_urls four_players = Ok st
    /\ NoDup (Urls.assigned_urls (Urls.players st))
    /\ (forall u, u ∈ Urls.assigned_urls (Urls.players st)
                  <-> u ∈ Urls.assigned_urls four_players \/ u ∈ (Urls.updates st).*2)
    /\ Players.id <$> Urls.players st = Players.id <$> four_players.
Proof.
  apply (url_generation_keeps_urls_distinct four_players).
  - exact four_players_ids.
  - apply (bool_decide_unpack _). vm_compute. exact I.
Defined.

(** X13. On a table whose ids are distinct, a second run of
    [generate_player_urls] on the table the first run left returns, executes
    no UPDATE and leaves the table as it is: a player the first run left
    without a URL gets none from a later run. *)
Theorem url_generation_rerun_writes_nothing (t : list Players.player) :
  NoDup (Players.id <$> t) ->
  exists st st',
    Urls.generate_player_urls t = Ok st
    /\ Urls.generate_player_urls (Urls.players st) = Ok st'
    /\ Urls.players st' = Urls.players st
    /\ Urls.updates st' = [].
Proof.
  intros Hnd.
  destruct (Urls.generate_player_urls_spec t)
    as (st & Hrun & Hrows & Hnew & Hfresh & Hsub & _).
  pose proof (UrlRuns.run_targets_null t st Hnd Hsub) as Hnull.
  destruct (Urls.assign_all_spec (Urls.lacking_url t)
              {| Urls.players := t;
                 Urls.existing_urls := list_to_set (Urls.assigned_urls t);
                 Urls.updates := [] |})
    as (st0 & log & H1 & _ & Hex & Hup & _).
  change (Urls.generate_player_urls t = Ok st0) in H1.
  rewrite Hrun in H1. injection H1 as <-. cbn in Hex, Hup. subst log.
  destruct (UrlRuns.assign_all_skips _ _ _ Hrun) as (log & Hlog & _ & Hskip).
  cbn in Hlog. subst log.
  exists st, {| Urls.players := Urls.players st;
                Urls.existing_urls := list_to_set (Urls.assigned_urls (Urls.players st));
                Urls.updates := [] |}.
  split; [exact Hrun|]. split; [|split; reflexivity].
  unfold Urls.generate_player_urls at 1. apply UrlRuns.assign_all_idle.
  apply Forall_forall. intros [pid nm] Hp. cbn.
  apply Urls.lacking_url_elem in Hp as (r2 & Hr2 & Hnone & Hid & Hnm).
  rewrite Hrows in Hr2. apply list_elem_of_fmap in Hr2 as (r & -> & Hr).
  rewrite UrlRuns.replay_row_name in Hnm. rewrite UrlRuns.replay_row_id in Hid. subst pid nm.
  assert (Hr_none : Players.url r = None).
  { destruct (Players.url r) as [u|] eqn:Hu; [|reflexivity].
    assert (Players.url (Urls.replay_row (Urls.updates st) r) = Some u)
      by (apply (UrlRuns.url_after t _ r u Hnd Hnull Hr); now left).
    congruence. }
  assert (Hr_out : Players.id r ∉ (Urls.updates st).*1).
  { intros Hin. apply list_elem_of_fmap in Hin as ([pid u] & Hid & Hin). cbn in Hid. subst pid.
    assert (Players.url (Urls.replay_row (Urls.updates st) r) = Some u)
      by (apply (UrlRuns.url_after t _ r u Hnd Hnull Hr); now right).
    congruence. }
  apply (Hskip (Players.id r, Players.name r));
    [now apply UrlRuns.lacking_url_intro | exact Hr_out |].
  rewrite Hex. intros u Hu. apply elem_of_list_to_set.
  unfold Urls.assigned_urls. rewrite Hrows, UrlRuns.omap_after_fmap, list_elem_of_omap.
  apply elem_of_union in Hu as [Hu|Hu].
  - apply elem_of_list_to_set in Hu.
    apply list_elem_of_fmap in Hu as ([pid u'] & -> & Hin).
    destruct (proj2 Hnull _ _ Hin) as (r0 & Hr0 & <- & _).
    exists r0. split; [exact Hr0|].
    apply (UrlRuns.url_after t _ r0 u' Hnd Hnull Hr0). now right.
  - apply elem_of_list_to_set in Hu. unfold Urls.assigned_urls in Hu.
    apply list_elem_of_omap in Hu as (r0 & Hr0 & Hu).
    exists r0. split; [exact Hr0|].
    apply (UrlRuns.url_after t _ r0 u Hnd Hnull Hr0). now left.
Qed.

Lemma url_generation_rerun_writes_nothing_witness :
  exists st st',
    Urls.generate_player_urls four_players = Ok st
    /\ Urls.generate_player_urls (Urls.players st) = Ok st'
    /\ Urls.players st' = Urls.players st
    /\ Urls.updates st' = [].
Proof. apply (url_generation_rerun_writes_nothing four_players). exact four_players_ids. Defined.

(** ** The primary key of [players] under the roster drivers *)

Module RosterIds.
Import Players Roster RosterKeys.

(** The ids grow along the rows and none is above the AUTOINCREMENT
    counter. *)
Definition keyed (t : table) : Prop :=
  OrganizeDb.increasing_ids (rows t) /\ forall r, r ∈ rows t -> id r <= seq t.

(** [t'] is [t] with rows appended, one id handed out for each, their url
    NULL. *)
Definition extends (t t' : table) : Prop :=
  exists added,
    rows t' = (rows t ++ added)%list
    /\ seq t' = seq t + Z.of_nat (length added)
    /\ Forall (fun r => url r = None /\ seq t < id r) added.

Definition grown (t0 t : table) : Prop := keyed t /\ extends t0 t.

Lemma extends_refl t : extends t t.
Proof.
  exists []. rewrite app_nil_r. simpl. split; [reflexivity|]. split; [lia | constructor].
Qed.

Lemma keyed_appended t nm c : keyed t -> keyed (appended t nm c).
Proof.
  intros (Hinc & Hmax). split; simpl.
  - intros i j a b Hij Ha Hb.
    assert (Hlen : (j < length (rows t ++ [new_row (seq t + 1) nm c]))%nat)
      by (eapply lookup_lt_Some; exact Hb).
    rewrite length_app in Hlen. simpl in Hlen.
    rewrite lookup_app_l in Ha by lia.
    destruct (decide (j < length (rows t))%nat) as [Hlt|Hge].
    + rewrite lookup_app_l in Hb by lia. exact (Hinc _ _ _ _ Hij Ha Hb).
    + rewrite lookup_app_r in Hb by lia.
      replace (j - length (rows t))%nat with 0%nat in Hb by lia. injection Hb as <-.
      simpl. assert (id a <= seq t) by (apply Hmax; eapply list_elem_of_lookup_2; exact Ha).
      lia.
  - intros r Hr. apply elem_of_app in Hr as [Hr|Hr].
    + specialize (Hmax r Hr). lia.
    + apply list_elem_of_singleton in Hr as ->. simpl. lia.
Qed.

Lemma grown_appended t0 t nm c : grown t0 t -> grown t0 (appended t nm c).
Proof.
  intros (Hk & added & Hrows & Hseq & Hall). split; [now apply keyed_appended|].
  exists (added ++ [new_row (seq t + 1) nm c])%list. simpl.
  split; [now rewrite Hrows, app_assoc|].
  split; [rewrite length_app; simpl; lia|].
  apply Forall_app. split; [exact Hall|].
  constructor; [|constructor]. simpl. split; [reflexivity | lia].
Qed.

Section Invariant.
Variable w : world.
Variable step : string -> list string -> table -> Soup.node -> result table.
Hypothesis step_fresh : appends_fresh step.
Variable t0 : table.

Lemma ingest_rows_grown team headers rs : forall t t',
  ingest_rows step team headers t rs = Ok t' -> grown t0 t -> grown t0 t'.
Proof.
  induction rs as [|row rs IH]; intros t t' H Hinv; simpl in H.
  - now injection H as <-.
  - apply bind_Ok_inv in H as (t1 & H1 & H2). apply (IH _ _ H2).
    apply step_fresh in H1 as [->|(c & nm & _ & _ & ->)]; [exact Hinv|].
    now apply grown_appended.
Qed.

Lemma ingest_team_grown t team t' :
  ingest_team w step t team = Ok t' -> grown t0 t -> grown t0 t'.
Proof.
  unfold ingest_team.
  destruct (http_get w (team_url team)) as [text|]; [|now intros [= <-]].
  destruct (Locator.roster_table w _) as [tbl|]; [|now intros [= <-]].
  destruct (Soup.find _ tbl) as [thead|]; [|discriminate].
  destruct (Soup.find _ thead) as [header_row|]; [|discriminate].
  destruct (Soup.find _ tbl) as [tbody|]; [|discriminate].
  apply ingest_rows_grown.
Qed.

Lemma ingest_teams_grown teams : forall t,
  grown t0 t -> grown t0 (ingest_teams w step teams t).1.
Proof.
  induction teams as [|team teams IH]; intros t Hinv; simpl; [exact Hinv|].
  destruct (ingest_team w step t team) as [t'|e] eqn:E; [|exact Hinv].
  apply IH. eapply ingest_team_grown; eassumption.
Qed.

End Invariant.

Lemma increasing_distinct l : OrganizeDb.increasing_ids l -> NoDup (id <$> l).
Proof.
  intros Hinc. apply NoDup_alt. intros i j x Hi Hj.
  rewrite list_lookup_fmap in Hi, Hj.
  destruct (l !! i) as [a|] eqn:Ha; [|discriminate].
  destruct (l !! j) as [b|] eqn:Hb; [|discriminate].
  cbn in Hi, Hj. injection Hi as <-. injection Hj as Hj.
  destruct (Nat.lt_trichotomy i j) as [Hlt|[->|Hlt]]; [|reflexivity|].
  - specialize (Hinc _ _ _ _ Hlt Ha Hb). lia.
  - specialize (Hinc _ _ _ _ Hlt Hb Ha). lia.
Qed.

End RosterIds.

(** X14. Both roster drivers only append: started on a table whose ids grow
    along the rows and stay at or below the AUTOINCREMENT counter, each
    leaves, whatever it meets, a table of that kind that starts with the
    rows it found; every row it added has an id above the old counter and a
    NULL url, the counter has grown by the number of rows added, and the
    ids are pairwise distinct. *)
Theorem roster_drivers_keep_primary_key (w : world) (t : Players.table) :
  RosterIds.keyed t ->
  (let t' := (ScrapeBballRef.scrape_all_teams_roster w t).1 in
   RosterIds.keyed t' /\ RosterIds.extends t t' /\ NoDup (Players.id <$> Players.rows t'))
  /\ (let t' := (DataBaseCreator.scrape_all_teams_roster w t).1 in
      RosterIds.keyed t' /\ RosterIds.extends t t' /\ NoDup (Players.id <$> Players.rows t')).
Proof.
  intros Hk.
  assert (H0 : RosterIds.grown t t) by (split; [exact Hk | apply RosterIds.extends_refl]).
  split; intros t'; subst t'.
  - destruct (RosterIds.ingest_teams_grown w _ (RosterKeys.ingest_row_nine_fresh w) t
                Roster.TEAM_ABBRS t H0) as (Hk' & Hext).
    split; [exact Hk'|]. split; [exact Hext|].
    apply RosterIds.increasing_distinct, Hk'.
  - destruct (RosterIds.ingest_teams_grown w _ (RosterKeys.ingest_row_four_fresh w) t
                Roster.TEAM_ABBRS t H0) as (Hk' & Hext).
    split; [exact Hk'|]. split; [exact Hext|].
    apply RosterIds.increasing_distinct, Hk'.
Qed.

Lemma roster_drivers_keep_primary_key_witness :
  RosterIds.keyed Traded.cavaliers
  /\ ScrapeBballRef.scrape_all_teams_roster Traded.site Traded.cavaliers
     = ({| Players.rows := [Traded.lebron 1 "CLE"; Traded.lebron 2 "LAL"];
           Players.seq := 2 |}, None)
  /\ RosterIds.extends Traded.cavaliers
       (ScrapeBballRef.scrape_all_teams_roster Traded.site Traded.cavaliers).1
  /\ RosterIds.extends Traded.cavaliers
       (DataBaseCreator.scrape_all_teams_roster Traded.site Traded.cavaliers).1.
Proof.
  assert (Hk : RosterIds.keyed Traded.cavaliers).
  { split.
    - apply Duplicated.ascending_increasing. reflexivity.
    - intros r Hr. apply list_elem_of_singleton in Hr as ->. simpl. lia. }
  split; [exact Hk|]. split; [vm_compute; reflexivity|]. split.
  - exact (proj1 (proj2 (proj1 (roster_drivers_keep_primary_key Traded.site
                                  Traded.cavaliers Hk)))).
  - exact (proj1 (proj2 (proj2 (roster_drivers_keep_primary_key Traded.site
                                  Traded.cavaliers Hk)))).
Defined.

(** ** The URL rule of the CSV generator ([csv-creator.py]) *)

Module CsvCreator.

Definition construct_url (player_name : string) : result (option string) :=
  let parts := PyStr.split player_name in
  match parts with
  | first_name :: _ :: _ =>
      let last_name := List.last parts "" in
      folder ← Urls.folder last_name;
      let filename :=
        Urls.last_part first_name last_name ++ Urls.first_part first_name ++ "01.html" in
      Ok (Some (Urls.origin ++ "/players/" ++ folder ++ "/" ++ filename))
  | _ => Ok None
  end.

(** [df["Player"].apply(construct_url)], every cell of the column a text *)
Fixpoint url_column (names : list string) : result (list (option string)) :=
  match names with
  | [] => Ok []
  | nm :: rest => u ← construct_url nm; us ← url_column rest; Ok (u :: us)
  end.

Example url_column_ex :
  url_column ["LeBron James"; "Leon James"; "Nene"]
  = Ok [Some "https://www.basketball-reference.com/players/j/jamesle01.html";
        Some "https://www.basketball-reference.com/players/j/jamesle01.html";
        None].
Proof. vm_compute. reflexivity. Qed.

End CsvCreator.

(** X15. The CSV generator never raises: for every name of the column it
    gives the URL the database generator gives that name when no URL is in
    use (the candidate with counter 01, so namesakes share a URL), and no
    URL exactly for the names of fewer than two parts. *)
Theorem csv_url_is_first_candidate (names : list string) :
  exists urls,
    CsvCreator.url_column names = Ok urls
    /\ Forall2 (fun nm o => CsvCreator.construct_url nm = Ok o
                            /\ Urls.construct_url nm ∅ = Ok o
                            /\ (o = None <-> (length (PyStr.split nm) < 2)%nat))
               names urls.
Proof.
  assert (Hsame : forall nm, CsvCreator.construct_url nm = Urls.construct_url nm ∅).
  { intros nm. unfold CsvCreator.construct_url, Urls.construct_url.
    destruct (PyStr.split nm) as [|first_name [|second rest]]; reflexivity. }
  assert (Hone : forall nm, exists o, CsvCreator.construct_url nm = Ok o
                   /\ (o = None <-> (length (PyStr.split nm) < 2)%nat)).
  { intros nm. unfold CsvCreator.construct_url.
    destruct (PyStr.split nm) as [|first_name [|second rest]] eqn:Hs.
    - exists None. split; [reflexivity|]. split; [simpl; lia | reflexivity].
    - exists None. split; [reflexivity|]. split; [simpl; lia | reflexivity].
    - destruct (Urls.folder_total _ _ _ _ Hs) as (c & tl & _ & ->).
      cbn [mbind result_bind]. eexists. split; [reflexivity|].
      split; [discriminate | simpl; lia]. }
  induction names as [|nm names (urls & Hrun & Hall)].
  - exists []. split; [reflexivity | constructor].
  - destruct (Hone nm) as (o & Ho & Hnone). exists (o :: urls). split.
    + cbn [CsvCreator.url_column]. rewrite Ho, Hrun. reflexivity.
    + constructor; [|exact Hall]. split; [exact Ho|]. split; [|exact Hnone].
      now rewrite <- Hsame.
Qed.

(** ** The season statistics driver ([scrape_bball_ref.py]) *)

Module Stats.
Import Soup.

Definition desired_stats : list string :=
  ["Season"; "G"; "GS"; "MP"; "FG"; "FGA"; "FG%"; "3P"; "3PA"; "3P%";
   "2P"; "2PA"; "2P%"; "eFG%"; "FT"; "FTA"; "FT%"; "ORB"; "DRB"; "TRB";
   "AST"; "STL"; "BLK"; "TOV"; "PF"; "PTS"].

(** The stats bound to the REAL columns, [games] to [points_per_game]. *)
Definition numeric_stats : list string := tail desired_stats.

(** What one UPDATE writes: the season text and the 25 REAL columns in the
    order of the statement. *)
Record snapshot := {
  season : string;
  per_game : list float
}.

(** A row of [players] with its season columns, which are NULL until an
    UPDATE writes them all. *)
Record stat_row := {
  key : Players.player;
  latest : option snapshot
}.

(** The texts of the body rows that are not repeated headers, the rows
    without cells left out. *)
Definition rows_data (tbody : node) : list (list string) :=
  List.filter (fun row_text => negb (PyStr.is_nil row_text))
    (Roster.row_texts
       <$> find_all (fun n => named ["tr"] n && class_differs "thead" n) tbody).

(** The test of the selection loop: the lowercased first cell names a
    career or playoffs line. *)
Definition summary (row : list string) : result bool :=
  match row with
  | label :: _ =>
      let season_label := PyStr.lower label in
      Ok (PyStr.contains "career" season_label || PyStr.contains "playoffs" season_label)
  | [] => Raise IndexError
  end.

(** The loop over the rows up to its [break]. *)
Fixpoint first_season (rows : list (list string)) : result (option (list string)) :=
  match rows with
  | [] => Ok None
  | row :: rest =>
      skip ← summary row;
      if (skip : bool) then first_season rest else Ok (Some row)
  end.

(** [for row in reversed(rows_data)] *)
Definition latest_row (rows : list (list string)) : result (option (list string)) :=
  first_season (rev rows).

(** The index of the first header equal to the stat, both stripped and
    lowercased. *)
Fixpoint header_index (stat : string) (table_headers : list string) (i : nat) : option nat :=
  match table_headers with
  | [] => None
  | header :: rest =>
      if String.eqb (PyStr.lower (PyStr.strip header)) (PyStr.lower (PyStr.strip stat))
      then Some i
      else header_index stat rest (S i)
  end.

(** [stats[stat]] *)
Definition stat_text (table_headers latest_row : list string) (stat : string) : string :=
  match header_index stat table_headers 0 with
  | Some idx => match latest_row !! idx with Some text => text | None => "0" end
  | None => "0"
  end.

(** [UPDATE players SET season = ?, ... WHERE url = ?] *)
Definition update_stats (u : string) (s : snapshot) (t : list stat_row) : list stat_row :=
  (fun r => if Roster.sql_eq (Players.url (key r)) (Some u)
            then {| key := key r; latest := Some s |}
            else r) <$> t.

Section Driver.
Variable w : world.

(** The pair returned: [None] for [(None, None)], else the headers with the
    selected row or [None]. *)
Definition get_player_stats (url : string)
  : result (option (list string * option (list string))) :=
  match http_get w url with
  | None => Ok None
  | Some text =>
      match Locator.per_game_table w (html_parser w text) with
      | None => Ok None
      | Some table =>
          match find (named ["thead"]) table with
          | None => Raise AttributeError
          | Some thead =>
              let table_headers := get_text <$> find_all (named ["th"]) thead in
              match find (named ["tbody"]) table with
              | None => Raise AttributeError
              | Some tbody =>
                  let rows := rows_data tbody in
                  if PyStr.is_nil rows then Ok (Some (table_headers, None))
                  else row ← latest_row rows; Ok (Some (table_headers, row))
              end
          end
      end
  end.

(** [float(stats[stat] or 0)] for each numeric stat, in order. *)
Fixpoint floats (texts : list string) : result (list float) :=
  match texts with
  | [] => Ok []
  | text :: rest => f ← float_or_zero w text; fs ← floats rest; Ok (f :: fs)
  end.

(** The parameters of the UPDATE. *)
Definition snapshot_of (table_headers latest_row : list string) : result snapshot :=
  nums ← floats (stat_text table_headers latest_row <$> numeric_stats);
  Ok {| season := stat_text table_headers latest_row "Season"; per_game := nums |}.

(** The loop over the fetched players; only the UPDATE is inside the [try],
    and each UPDATE is committed at once. *)
Fixpoint process (urls : list (option string)) (t : list stat_row)
  : list stat_row * option exn :=
  match urls with
  | [] => (t, None)
  | url :: rest =>
      match url with
      | None => process rest t
      | Some u =>
          if PyStr.is_empty u then process rest t
          else match get_player_stats u with
               | Raise e => (t, Some e)
               | Ok None => process rest t
               | Ok (Some (_, None)) => process rest t
               | Ok (Some (table_headers, Some row)) =>
                   match snapshot_of table_headers row with
                   | Ok s => process rest (update_stats u s t)
                   | Raise _ => process rest t
                   end
               end
      end
  end.

Definition scrape_latest_season_stats (t : list stat_row) : list stat_row * option exn :=
  process ((fun r => Players.url (key r)) <$> t) t.

End Driver.
End Stats.

Module StatRuns.
Import Soup Stats.

Lemma rows_data_nonempty tbody : Forall (fun r => r <> []) (rows_data tbody).
Proof.
  unfold rows_data. apply List.Forall_forall. intros r Hr.
  apply filter_In in Hr as (_ & Hr). now destruct r.
Qed.

Lemma first_season_spec rows :
  Forall (fun r => r <> []) rows ->
  exists o, first_season rows = Ok o
    /\ match o with
       | Some r => exists pre post, rows = (pre ++ r :: post)%list
                                    /\ Forall (fun x => summary x = Ok true) pre
                                    /\ summary r = Ok false
       | None => Forall (fun x => summary x = Ok true) rows
       end.
Proof.
  induction 1 as [|row rows Hrow _ (o & Ho & IH)].
  - exists None. split; [reflexivity | constructor].
  - destruct row as [|label cells]; [congruence|]. cbn [first_season].
    destruct (summary (label :: cells)) as [[|]|e] eqn:Hs; [| |discriminate Hs];
      cbn [mbind result_bind].
    + exists o. split; [exact Ho|]. destruct o as [r|].
      * destruct IH as (pre & post & -> & Hpre & Hr).
        exists ((label :: cells) :: pre), post. split; [reflexivity|].
        split; [now constructor | exact Hr].
      * now constructor.
    + exists (Some (label :: cells)). split; [reflexivity|].
      exists [], rows. split; [reflexivity|]. split; [constructor | exact Hs].
Qed.

(** The step of the loop for a URL whose page can be read. *)
Definition snap (w : world) (u : string) : option snapshot :=
  match get_player_stats w u with
  | Ok (Some (table_headers, Some row)) =>
      match snapshot_of w table_headers row with
      | Ok s => Some s
      | Raise _ => None
      end
  | _ => None
  end.

Definition visit (w : world) (u : string) (t : list stat_row) : list stat_row :=
  match snap w u with
  | Some s => update_stats u s t
  | None => t
  end.

Lemma process_visit w u rest t :
  PyStr.is_empty u = false ->
  process w (Some u :: rest) t
  = match get_player_stats w u with
    | Raise e => (t, Some e)
    | Ok _ => process w rest (visit w u t)
    end.
Proof.
  intros Hu. cbn [process]. rewrite Hu. unfold visit, snap.
  destruct (get_player_stats w u) as [[[h [row|]]|]|e]; try reflexivity.
  now destruct (snapshot_of w h row).
Qed.

(** A row after the loop, against the row [r] it started as: the key
    columns are those of [r], and the season columns are those of [r] or
    the snapshot read from the page at the url of [r]. *)
Definition refreshed (w : world) (r r' : stat_row) : Prop :=
  key r' = key r
  /\ (latest r' = latest r
      \/ exists u s, Players.url (key r) = Some u /\ u <> ""
                     /\ snap w u = Some s /\ latest r' = Some s).

Lemma refreshed_refl w r : refreshed w r r.
Proof. split; [reflexivity | now left]. Qed.

Lemma refreshed_trans w r1 r2 r3 :
  refreshed w r1 r2 -> refreshed w r2 r3 -> refreshed w r1 r3.
Proof.
  intros (K1 & L1) (K2 & L2). split; [congruence|].
  destruct L2 as [L2|(u & s & Hu & Hne & Hs & L2)].
  - rewrite L2. exact L1.
  - right. exists u, s. rewrite <- K1. auto.
Qed.

Lemma visit_refreshed w u t :
  u <> "" -> Forall2 (refreshed w) t (visit w u t).
Proof.
  intros Hne. unfold visit. destruct (snap w u) as [s|] eqn:Hs.
  - unfold update_stats. apply Forall2_fmap_r, Forall_Forall2_diag, Forall_forall.
    intros r _. unfold compose.
    destruct (Roster.sql_eq (Players.url (key r)) (Some u)) eqn:E.
    + split; [reflexivity|]. right. exists u, s.
      apply RosterKeys.sql_eq_true in E. auto.
    + apply refreshed_refl.
  - apply Forall_Forall2_diag, Forall_forall. intros r _. apply refreshed_refl.
Qed.

Lemma Forall2_refreshed_trans w t1 t2 t3 :
  Forall2 (refreshed w) t1 t2 -> Forall2 (refreshed w) t2 t3 ->
  Forall2 (refreshed w) t1 t3.
Proof.
  intros H12. revert t3. induction H12 as [|a b l1 l2 Hab _ IH]; intros t3 H23.
  - inversion H23. constructor.
  - inversion H23 as [|b' c l2' l3 Hbc Hrest]; subst.
    constructor; [eapply refreshed_trans; eassumption | now apply IH].
Qed.

Lemma nonempty_text u : PyStr.is_empty u = false -> u <> "".
Proof. now destruct u. Qed.

Lemma process_refreshed w urls : forall t,
  Forall2 (refreshed w) t (process w urls t).1.
Proof.
  induction urls as [|[u|] urls IH]; intros t.
  - apply Forall_Forall2_diag, Forall_forall. intros r _. apply refreshed_refl.
  - destruct (PyStr.is_empty u) eqn:Hu; [cbn [process]; rewrite Hu; apply IH|].
    rewrite (process_visit _ _ _ _ Hu).
    destruct (get_player_stats w u) as [o|e].
    + eapply Forall2_refreshed_trans; [|apply IH].
      apply visit_refreshed. now apply nonempty_text.
    + apply Forall_Forall2_diag, Forall_forall. intros r _. apply refreshed_refl.
  - cbn [process]. apply IH.
Qed.

Lemma floats_raises w texts text :
  In text texts -> float_or_zero w text = Raise ValueError ->
  exists e, floats w texts = Raise e.
Proof.
  induction texts as [|x texts IH]; intros Hin Hbad; [destruct Hin|].
  cbn [floats]. destruct (float_or_zero w x) as [f|e] eqn:Hx; cbn [mbind result_bind];
    [|eauto].
  destruct Hin as [->|Hin]; [congruence|].
  destruct (IH Hin Hbad) as (e & ->). cbn [mbind result_bind]. eauto.
Qed.

End StatRuns.

(** X16. In [get_player_stats] every row text of [rows_data] has a first
    cell, so the selection loop never raises; it returns the last row whose
    lowercased first cell contains neither career nor playoffs, and no row
    exactly when every row is such a summary line. *)
Theorem latest_row_is_last_season_line (tbody : Soup.node) :
  let rows := Stats.rows_data tbody in
  Forall (fun r => r <> []) rows
  /\ exists o,
       Stats.latest_row rows = Ok o
       /\ match o with
          | Some r => exists before after,
                        rows = (before ++ r :: after)%list
                        /\ Stats.summary r = Ok false
                        /\ Forall (fun x => Stats.summary x = Ok true) after
          | None => Forall (fun x => Stats.summary x = Ok true) rows
          end.
Proof.
  intros rows. pose proof (StatRuns.rows_data_nonempty tbody) as Hne.
  fold rows in Hne. split; [exact Hne|].
  assert (Hrev : Forall (fun r => r <> []) (rev rows)).
  { apply List.Forall_forall. intros r Hr. apply in_rev in Hr.
    rewrite List.Forall_forall in Hne. now apply Hne. }
  destruct (StatRuns.first_season_spec _ Hrev) as (o & Ho & Hspec).
  exists o. split; [exact Ho|]. destruct o as [r|].
  - destruct Hspec as (pre & post & Heq & Hpre & Hr).
    exists (rev post), (rev pre). split; [|split; [exact Hr|]].
    + rewrite <- (rev_involutive rows), Heq, rev_app_distr. cbn [rev].
      now rewrite <- app_assoc.
    + apply List.Forall_forall. intros x Hx. apply in_rev in Hx.
      rewrite List.Forall_forall in Hpre. now apply Hpre.
  - apply List.Forall_forall. intros x Hx. apply in_rev in Hx.
    rewrite List.Forall_forall in Hspec. now apply Hspec.
Qed.

(** *** A second run of the statistics driver *)

Module StatRerun.
Import Stats StatRuns.

(** The loop when no page makes [get_player_stats] raise. *)
Fixpoint visits (w : world) (urls : list (option string)) (t : list stat_row)
  : list stat_row :=
  match urls with
  | [] => t
  | Some u :: rest => if PyStr.is_empty u then visits w rest t else visits w rest (visit w u t)
  | None :: rest => visits w rest t
  end.

Definition readable (w : world) (urls : list (option string)) : Prop :=
  forall u, Some u ∈ urls -> PyStr.is_empty u = false ->
            exists o, get_player_stats w u = Ok o.

(** Every row at the url [u] holds the snapshot [s]. *)
Definition holds (u : string) (s : snapshot) (t : list stat_row) : Prop :=
  forall r, r ∈ t -> Players.url (key r) = Some u -> latest r = Some s.

Lemma process_clean w urls : forall t t',
  process w urls t = (t', None) -> readable w urls /\ t' = visits w urls t.
Proof.
  induction urls as [|[u|] urls IH]; intros t t' H.
  - injection H as <-. split; [|reflexivity]. intros u Hu. inversion Hu.
  - destruct (PyStr.is_empty u) eqn:Hu.
    + cbn [process visits] in *. rewrite Hu in *. destruct (IH _ _ H) as (Hr & ->).
      split; [|reflexivity]. intros u' Hin Hne.
      apply elem_of_cons in Hin as [[= ->]|Hin]; [congruence | now apply Hr].
    + rewrite (process_visit _ _ _ _ Hu) in H. cbn [visits]. rewrite Hu.
      destruct (get_player_stats w u) as [o|e] eqn:Hget; [|discriminate].
      destruct (IH _ _ H) as (Hr & ->). split; [|reflexivity].
      intros u' Hin Hne. apply elem_of_cons in Hin as [[= ->]|Hin]; [eauto | now apply Hr].
  - cbn [process visits] in *. destruct (IH _ _ H) as (Hr & ->).
    split; [|reflexivity]. intros u' Hin Hne.
    apply elem_of_cons in Hin as [Hin|Hin]; [discriminate | now apply Hr].
Qed.

Lemma process_readable w urls : forall t,
  readable w urls -> process w urls t = (visits w urls t, None).
Proof.
  induction urls as [|[u|] urls IH]; intros t Hr; [reflexivity| |].
  - assert (Hrest : readable w urls) by (intros u' Hin; apply Hr; now right).
    destruct (PyStr.is_empty u) eqn:Hu.
    + cbn [process visits]. rewrite Hu. now apply IH.
    + rewrite (process_visit _ _ _ _ Hu). cbn [visits]. rewrite Hu.
      destruct (Hr u (list_elem_of_here _ _) Hu) as (o & ->). now apply IH.
  - cbn [process visits]. apply IH. intros u' Hin. apply Hr. now right.
Qed.

Lemma update_stats_elem u s t r' :
  r' ∈ update_stats u s t ->
  exists r, r ∈ t /\ key r' = key r
            /\ (if Roster.sql_eq (Players.url (key r)) (Some u)
                then latest r' = Some s else r' = r).
Proof.
  unfold update_stats. intros H. apply list_elem_of_fmap in H as (r & -> & Hr).
  exists r. split; [exact Hr|].
  destruct (Roster.sql_eq (Players.url (key r)) (Some u)); split; reflexivity.
Qed.

Lemma visit_holds w u s u' t :
  snap w u = Some s -> holds u s t -> holds u s (visit w u' t).
Proof.
  intros Hs Ht. unfold visit. destruct (snap w u') as [s'|] eqn:Hs'; [|exact Ht].
  intros r' Hr' Hurl. apply update_stats_elem in Hr' as (r & Hr & Hkey & Hcase).
  rewrite Hkey in Hurl.
  destruct (Roster.sql_eq (Players.url (key r)) (Some u')) eqn:E.
  - apply RosterKeys.sql_eq_true in E. rewrite Hurl in E. injection E as ->.
    congruence.
  - subst r'. now apply Ht.
Qed.

Lemma visit_sets w u s t : snap w u = Some s -> holds u s (visit w u t).
Proof.
  intros Hs. unfold visit. rewrite Hs.
  intros r' Hr' Hurl. apply update_stats_elem in Hr' as (r & Hr & Hkey & Hcase).
  rewrite Hkey in Hurl.
  destruct (Roster.sql_eq (Players.url (key r)) (Some u)) eqn:E; [exact Hcase|].
  rewrite Hurl in E. cbn in E. now rewrite String.eqb_refl in E.
Qed.

Lemma visits_holds w u s urls : forall t,
  snap w u = Some s -> holds u s t -> holds u s (visits w urls t).
Proof.
  induction urls as [|[u'|] urls IH]; intros t Hs Ht; cbn [visits]; [exact Ht| |].
  - destruct (PyStr.is_empty u'); [now apply IH|].
    apply IH; [exact Hs|]. now apply visit_holds.
  - now apply IH.
Qed.

(** After the loop every row at a visited url holds that url's snapshot. *)
Lemma visits_settle w urls : forall t u s,
  Some u ∈ urls -> PyStr.is_empty u = false -> snap w u = Some s ->
  holds u s (visits w urls t).
Proof.
  induction urls as [|[u'|] urls IH]; intros t u s Hin Hne Hs; [inversion Hin| |].
  - cbn [visits]. apply elem_of_cons in Hin as [[= <-]|Hin].
    + rewrite Hne. apply visits_holds; [exact Hs|]. now apply visit_sets.
    + destruct (PyStr.is_empty u'); now apply IH.
  - cbn [visits]. apply elem_of_cons in Hin as [Hin|Hin]; [discriminate|].
    now apply IH.
Qed.

Lemma visit_fixed w u t :
  (forall s, snap w u = Some s -> holds u s t) -> visit w u t = t.
Proof.
  intros H. unfold visit. destruct (snap w u) as [s|]; [|reflexivity].
  specialize (H s eq_refl). unfold update_stats.
  rewrite <- (list_fmap_id t) at 2. apply list_fmap_ext. intros i r Hi. cbn.
  destruct (Roster.sql_eq (Players.url (key r)) (Some u)) eqn:E; [|reflexivity].
  apply RosterKeys.sql_eq_true in E.
  assert (Hl : latest r = Some s)
    by (apply H; [eapply list_elem_of_lookup_2; exact Hi | now symmetry]).
  destruct r as [k l]. cbn in *. now subst l.
Qed.

Lemma visits_fixed w urls : forall t,
  (forall u s, Some u ∈ urls -> PyStr.is_empty u = false -> snap w u = Some s ->
               holds u s t) ->
  visits w urls t = t.
Proof.
  induction urls as [|[u|] urls IH]; intros t H; cbn [visits]; [reflexivity| |].
  - assert (Hrest : visits w urls t = t)
      by (apply IH; intros u' s Hin; apply H; now right).
    destruct (PyStr.is_empty u) eqn:Hu; [exact Hrest|].
    rewrite visit_fixed; [exact Hrest|]. intros s Hs. apply (H u s); auto. left.
  - apply IH. intros u' s Hin. apply H. now right.
Qed.

Lemma refreshed_urls w t t' :
  Forall2 (refreshed w) t t' ->
  (fun r => Players.url (key r)) <$> t' = (fun r => Players.url (key r)) <$> t.
Proof.
  induction 1 as [|r r' t t' (Hk & _) _ IH]; [reflexivity|].
  cbn. now rewrite IH, Hk.
Qed.

End StatRerun.

Module PerGame.
Import Soup.

(** Python's [float] on the texts of the scenario. *)
Definition stat_float (s : string) : option float :=
  if String.eqb s "0" then Some 0%float else Demo.demo_float s.

Definition lebron_url : string :=
  "https://www.basketball-reference.com/players/j/jamesle01.html".
Definition leon_url : string :=
  "https://www.basketball-reference.com/players/j/jamesle02.html".
Definition les_url : string :=
  "https://www.basketball-reference.com/players/j/jamesle03.html".

Definition line (season g pct : string) : node :=
  el "tr" [] [el "th" [] [Text season]; el "td" [] [Text g]; el "td" [] [Text pct]].

Definition per_game (body : list node) (with_head : bool) : node :=
  Elem "[document]" []
    [el "div" [("id", "switcher_per_game_stats")]
       [el "div" [("id", "div_per_game_stats")]
          [el "table" [("id", "per_game_stats")]
             ((if with_head
               then [el "thead" []
                       [el "tr" [] [el "th" [] [Text "Season"]; el "th" [] [Text " g "];
                                    el "th" [] [Text "FG%"]]]]
               else [])
              ++ [el "tbody" [] body])]]].

(** LeBron's page ends with a repeated header, a career line and a team
    line; Leon's holds a games cell that is no number; Les's table has no
    head. *)
Definition site : world :=
  {| http_get := fun url =>
       if String.eqb url lebron_url then Some "lebron"
       else if String.eqb url leon_url then Some "leon"
       else if String.eqb url les_url then Some "les" else None;
     html_parser := fun text =>
       if String.eqb text "lebron"
       then per_game [line "2023-24" "250" "1.000"; line "2024-25" "210" ".500";
                      tr_class ["thead"] [el "th" [] [Text "Season"]];
                      el "tr" [] [];
                      line "Career" "250" ".500"; line "2 Yrs (Playoffs)" "250" ".500"] true
       else if String.eqb text "leon"
       then per_game [line "2024-25" "n/a" ".500"] true
       else per_game [line "2024-25" "210" ".500"] false;
     float_of_str := stat_float |}.

Definition row (i : Z) (nm : string) (u : option string) (s : option Stats.snapshot)
  : Stats.stat_row :=
  {| Stats.key := roster_row i nm "LAL" u; Stats.latest := s |}.

Definition lebron_2025 : Stats.snapshot :=
  {| Stats.season := "2024-25";
     Stats.per_game := [210; 0; 0; 0; 0; 0.5; 0; 0; 0; 0; 0; 0; 0; 0; 0; 0; 0; 0; 0; 0;
                        0; 0; 0; 0; 0]%float |}.

Definition before : list Stats.stat_row :=
  [row 1 "Leon James" (Some leon_url) None; row 2 "Nene" None None;
   row 3 "LeBron James" (Some lebron_url) None; row 4 "Empty" (Some "") None].

Definition after : list Stats.stat_row :=
  [row 1 "Leon James" (Some leon_url) None; row 2 "Nene" None None;
   row 3 "LeBron James" (Some lebron_url) (Some lebron_2025); row 4 "Empty" (Some "") None].

Example stats_run : Stats.scrape_latest_season_stats site before = (after, None).
Proof. vm_compute. reflexivity. Qed.

Example headless_run :
  Stats.scrape_latest_season_stats site
    (before ++ [row 5 "Les James" (Some les_url) None; row 6 "LeBron James" (Some lebron_url) None])
  = ((after ++ [row 5 "Les James" (Some les_url) None;
                row 6 "LeBron James" (Some lebron_url) (Some lebron_2025)])%list,
     Some AttributeError).
Proof. vm_compute. reflexivity. Qed.

End PerGame.

(** X17. Whatever [scrape_latest_season_stats] meets, an exception included,
    it leaves every row with the key columns, id and url it had; a row's
    season columns are as they were or hold the snapshot read from the page
    at that row's own url, so a row whose url is NULL or empty is never
    written. *)
Theorem stats_driver_refreshes_own_rows (w : world) (t : list Stats.stat_row) :
  let t' := (Stats.scrape_latest_season_stats w t).1 in
  Forall2 (StatRuns.refreshed w) t t'
  /\ Stats.key <$> t' = Stats.key <$> t
  /\ (forall i r r', t !! i = Some r -> t' !! i = Some r' ->
        Players.url (Stats.key r) = None \/ Players.url (Stats.key r) = Some "" ->
        r' = r).
Proof.
  intros t'. subst t'. unfold Stats.scrape_latest_season_stats.
  pose proof (StatRuns.process_refreshed w
                ((fun r => Players.url (Stats.key r)) <$> t) t) as H.
  split; [exact H|]. split.
  - clear -H. induction H as [|r r' l l' (Hk & _) _ IH]; [reflexivity|].
    cbn. now rewrite IH, Hk.
  - intros i r r' Hi Hi' Hurl.
    destruct (Forall2_lookup_l _ _ _ _ _ H Hi) as (r2 & Hr2 & Hk & Hl).
    rewrite Hi' in Hr2. injection Hr2 as <-.
    assert (Hsame : Stats.latest r' = Stats.latest r).
    { destruct Hl as [Hl|(u & s & Hu & Hne & _)]; [exact Hl|].
      destruct Hurl as [Hurl|Hurl]; rewrite Hurl in Hu; congruence. }
    destruct r, r'. cbn in *. congruence.
Qed.

(** X18. In the loop of [scrape_latest_season_stats], a player whose
    selected row holds, for one of the 25 numeric stats, a text that [float]
    rejects is skipped: the exception is caught, no column of any row is
    written for that url, and the loop goes on with the next player.  A page
    whose per-game table has no [thead] is not caught: the driver ends there
    with AttributeError, the table as the players before left it. *)
Theorem unreadable_stat_skips_player (w : world) (u : string)
    (rest : list (option string)) (t : list Stats.stat_row) :
  u <> "" ->
  (forall table_headers row stat,
      Stats.get_player_stats w u = Ok (Some (table_headers, Some row)) ->
      In stat Stats.numeric_stats ->
      float_or_zero w (Stats.stat_text table_headers row stat) = Raise ValueError ->
      Stats.process w (Some u :: rest) t = Stats.process w rest t)
  /\ (forall page tbl,
        http_get w u = Some page ->
        Locator.per_game_table w (html_parser w page) = Some tbl ->
        Soup.find (Soup.named ["thead"]) tbl = None ->
        Stats.get_player_stats w u = Raise AttributeError
        /\ Stats.process w (Some u :: rest) t = (t, Some AttributeError)).
Proof.
  intros Hne.
  assert (Hu : PyStr.is_empty u = false) by (destruct u; [congruence | reflexivity]).
  split.
  - intros h row stat Hget Hin Hbad. cbn [Stats.process]. rewrite Hu, Hget.
    destruct (StatRuns.floats_raises w (Stats.stat_text h row <$> Stats.numeric_stats)
                (Stats.stat_text h row stat)) as (e & He); [|exact Hbad|].
    + apply in_map_iff. exists stat. auto.
    + unfold Stats.snapshot_of. rewrite He. reflexivity.
  - intros page tbl Hpage Htbl Hhead.
    assert (Hget : Stats.get_player_stats w u = Raise AttributeError)
      by (unfold Stats.get_player_stats; now rewrite Hpage, Htbl, Hhead).
    split; [exact Hget|]. cbn [Stats.process]. now rewrite Hu, Hget.
Qed.

Lemma unreadable_stat_skips_player_witness :
  Stats.process PerGame.site [Some PerGame.leon_url; Some PerGame.lebron_url] PerGame.before
  = Stats.process PerGame.site [Some PerGame.lebron_url] PerGame.before
  /\ Stats.process PerGame.site [Some PerGame.les_url; Some PerGame.lebron_url] PerGame.before
     = (PerGame.before, Some AttributeError).
Proof.
  split.
  - refine (proj1 (unreadable_stat_skips_player PerGame.site PerGame.leon_url
                     [Some PerGame.lebron_url] PerGame.before _)
              ["Season"; "g"; "FG%"] ["2024-25"; "n/a"; ".500"] "G" _ _ _).
    + discriminate.
    + vm_compute. reflexivity.
    + left. reflexivity.
    + vm_compute. reflexivity.
  - refine (proj2 (proj2 (unreadable_stat_skips_player PerGame.site PerGame.les_url
                            [Some PerGame.lebron_url] PerGame.before _)
                     "les" _ _ _ _)).
    + discriminate.
    + reflexivity.
    + vm_compute. reflexivity.
    + vm_compute. reflexivity.
Defined.

(** X19. A run of [scrape_latest_season_stats] that ends without an exception
    is a fixed point: run again on the table it left, against the same pages,
    the driver ends without an exception and every row keeps the values it
    has. *)
Theorem stats_driver_rerun_changes_nothing (w : world) (t t' : list Stats.stat_row) :
  Stats.scrape_latest_season_stats w t = (t', None) ->
  Stats.scrape_latest_season_stats w t' = (t', None).
Proof.
  unfold Stats.scrape_latest_season_stats. intros H.
  pose proof (StatRuns.process_refreshed w
                ((fun r => Players.url (Stats.key r)) <$> t) t) as Href.
  rewrite H in Href. cbn [fst] in Href.
  rewrite (StatRerun.refreshed_urls _ _ _ Href).
  destruct (StatRerun.process_clean _ _ _ _ H) as (Hread & Hvisits).
  rewrite (StatRerun.process_readable _ _ _ Hread). f_equal.
  apply StatRerun.visits_fixed. intros u s Hin Hne Hs. rewrite Hvisits.
  now apply StatRerun.visits_settle.
Qed.

Lemma stats_driver_rerun_changes_nothing_witness :
  Stats.scrape_latest_season_stats PerGame.site PerGame.before = (PerGame.after, None)
  /\ Stats.scrape_latest_season_stats PerGame.site PerGame.after = (PerGame.after, None).
Proof.
  split; [exact PerGame.stats_run|].
  exact (stats_driver_rerun_changes_nothing PerGame.site PerGame.before PerGame.after
           PerGame.stats_run).
Defined.

(** ** Where the stored box-score lines come from *)

Module Provenance.

Section Loop.
Context {R : Type}.
Variable same : R -> R -> bool.
Variable kept : R -> R.
Variable fits : R -> bool.
Variable scrape : string -> result (list R).
Variable from : string -> R -> Prop.

Lemma process_added links : forall t,
  (forall link rows, In link links -> scrape link = Ok rows -> Forall (from link) rows) ->
  exists added,
    (Upsert.process same kept fits scrape links t).1 = (t ++ added)%list
    /\ Forall (fun a => exists link r, In link links /\ from link r /\ a = kept r) added.
Proof.
  induction links as [|link links IH]; intros t Hfrom; cbn [Upsert.process].
  - exists []. rewrite app_nil_r. split; [reflexivity | constructor].
  - assert (Hrest : forall l rows, In l links -> scrape l = Ok rows -> Forall (from l) rows)
      by (intros l rows Hl; apply Hfrom; now right).
    assert (Hlift : forall t0, exists added,
               (Upsert.process same kept fits scrape links t0).1 = (t0 ++ added)%list
               /\ Forall (fun a => exists l r, In l (link :: links) /\ from l r /\ a = kept r)
                         added).
    { intros t0. destruct (IH t0 Hrest) as (a & Ha & Fa). exists a. split; [exact Ha|].
      eapply Forall_impl; [exact Fa|]. intros x (l & r & Hl & Hr & ->).
      exists l, r. split; [now right | auto]. }
    destruct (PyStr.is_empty link); [apply Hlift|].
    destruct (scrape link) as [rows|e] eqn:Hs.
    + destruct (PyStr.is_nil rows); [apply Hlift|].
      destruct (Upsert.store same kept fits rows t) as [t1|e] eqn:E;
        [|exists []; rewrite app_nil_r; split; [reflexivity | constructor]].
      destruct (Upsert.upsert_store_extends same kept fits rows t t1 E) as (a1 & H1 & F1).
      destruct (Hlift t1) as (a2 & H2 & F2).
      exists (a1 ++ a2)%list. split; [now rewrite H2, H1, app_assoc|].
      apply Forall_app. split; [|exact F2].
      specialize (Hfrom link rows (or_introl eq_refl) Hs).
      rewrite List.Forall_forall in Hfrom.
      eapply Forall_impl; [exact F1|]. intros x (r & Hr & ->).
      exists link, r. split; [now left|]. split; [now apply Hfrom | reflexivity].
    + exists []. rewrite app_nil_r. split; [reflexivity | constructor].
Qed.

End Loop.

(** A line read for [link]: it carries the link and the name of a player. *)
Definition basic_line (link : string) (r : BoxScore.box_row) : Prop :=
  BoxScore.box_score_link r = link /\ BoxScore.name_ok r.

Definition advanced_line (link : string) (r : AdvBoxScore.adv_row) : Prop :=
  AdvBoxScore.box_score_link r = link /\ AdvBoxScore.name_ok r.

Lemma basic_table_lines w tbl link team_name rows :
  BoxScore.parse_box_score_table w tbl link team_name = Ok rows ->
  Forall (basic_line link) rows.
Proof.
  unfold BoxScore.parse_box_score_table. intros H.
  apply BoxScore.parse_rows_spec in H as (Hok & _ & Hdict).
  apply Forall_forall. intros d Hd. split.
  - apply list_elem_of_lookup in Hd as (i & Hi).
    destruct (Forall2_lookup_l _ _ _ _ _ Hdict Hi) as (row & _ & name & _ & Hrow).
    now apply BoxScore.row_dict_fields in Hrow as (Hlink & _).
  - rewrite Forall_forall in Hok. now apply Hok.
Qed.

Lemma basic_scrape_lines w link rows :
  BoxDriver.scrape_single_box_score w link = Ok rows -> Forall (basic_line link) rows.
Proof.
  unfold BoxDriver.scrape_single_box_score.
  destruct (PyStr.is_empty link); [intros [= <-]; constructor|].
  destruct (http_get w link) as [text|]; [|intros [= <-]; constructor].
  generalize (Locator.basic_tables (html_parser w text)). intros tbls. revert rows.
  induction tbls as [|tbl tbls IH]; intros rows H; simpl in H.
  - injection H as <-. constructor.
  - apply bind_Ok_inv in H as (r1 & H1 & H). apply bind_Ok_inv in H as (r2 & H2 & H).
    injection H as <-. apply Forall_app. split; [|now apply IH].
    eapply basic_table_lines. exact H1.
Qed.

Lemma advanced_table_lines w tbl link team_name rows :
  AdvBoxScore.parse_advanced_box_score_table w tbl link team_name = Ok rows ->
  Forall (advanced_line link) rows.
Proof.
  unfold AdvBoxScore.parse_advanced_box_score_table. intros H.
  apply AdvBoxScore.adv_parse_rows_spec in H as (Hok & _ & Hdict).
  apply Forall_forall. intros d Hd. split.
  - apply list_elem_of_lookup in Hd as (i & Hi).
    destruct (Forall2_lookup_l _ _ _ _ _ Hdict Hi) as (row & _ & name & _ & Hrow).
    now apply AdvBoxScore.adv_row_dict_fields in Hrow as (Hlink & _).
  - rewrite Forall_forall in Hok. now apply Hok.
Qed.

Lemma advanced_scrape_lines w link rows :
  AdvDriver.scrape_single_box_score_advanced w link = Ok rows ->
  Forall (advanced_line link) rows.
Proof.
  unfold AdvDriver.scrape_single_box_score_advanced.
  destruct (PyStr.is_empty link); [intros [= <-]; constructor|].
  destruct (http_get w link) as [text|]; [|intros [= <-]; constructor].
  generalize (Locator.advanced_tables (html_parser w text)). intros tbls. revert rows.
  induction tbls as [|tbl tbls IH]; intros rows H; simpl in H.
  - injection H as <-. constructor.
  - apply bind_Ok_inv in H as (r1 & H1 & H). apply bind_Ok_inv in H as (r2 & H2 & H).
    injection H as <-. apply Forall_app. split; [|now apply IH].
    eapply advanced_table_lines. exact H1.
Qed.

Lemma distinct_link_game games link :
  In link (BoxDriver.distinct_links games) ->
  exists g, g ∈ games /\ GameLogs.box_score_link g = Some link.
Proof.
  unfold BoxDriver.distinct_links. intros H.
  apply BoxDriver.first_occurrences_elem, list_elem_of_In, list_elem_of_omap in H.
  exact H.
Qed.

End Provenance.

(** X20. Every line a run of either box-score driver adds, whether or not the
    run ends in an exception, carries the box-score link of a game of the
    game log and the name of a player: a name that is not empty and does not
    contain Totals. *)
Theorem box_lines_come_from_game_log (w : world) (games : list GameLogs.gamelog) :
  (forall t, exists added,
      (BoxDriver.scrape_box_scores_for_all_games w games t).1 = (t ++ added)%list
      /\ Forall (fun a => (exists g, g ∈ games
                             /\ GameLogs.box_score_link g = Some (BoxScore.box_score_link a))
                          /\ BoxScore.player_name a <> ""
                          /\ PyStr.contains "Totals" (BoxScore.player_name a) = false)
                added)
  /\ (forall t, exists added,
        (AdvDriver.scrape_advanced_box_scores_for_all_games w games t).1 = (t ++ added)%list
        /\ Forall (fun a => (exists g, g ∈ games
                               /\ GameLogs.box_score_link g
                                  = Some (AdvBoxScore.box_score_link a))
                            /\ AdvBoxScore.player_name a <> ""
                            /\ PyStr.contains "Totals" (AdvBoxScore.player_name a) = false)
                  added).
Proof.
  split; intros t.
  - unfold BoxDriver.scrape_box_scores_for_all_games.
    rewrite BoxKeys.process_links_is_loop.
    destruct (Provenance.process_added BoxDriver.same_key BoxDriver.stored
                BoxDriver.bindable
                (BoxDriver.scrape_single_box_score w) Provenance.basic_line
                (BoxDriver.distinct_links games) t) as (added & Hadd & Hall).
    { intros link rows _. apply Provenance.basic_scrape_lines. }
    exists added. split; [exact Hadd|].
    eapply Forall_impl; [exact Hall|].
    intros a (link & r & Hlink & (Hl & Hn & Htot) & ->). cbn.
    split; [|split; assumption]. rewrite Hl. now apply Provenance.distinct_link_game.
  - unfold AdvDriver.scrape_advanced_box_scores_for_all_games.
    rewrite AdvDriver.adv_process_links_is_loop.
    destruct (Provenance.process_added AdvDriver.same_key AdvDriver.stored
                AdvDriver.bindable
                (AdvDriver.scrape_single_box_score_advanced w) Provenance.advanced_line
                (BoxDriver.distinct_links games) t) as (added & Hadd & Hall).
    { intros link rows _. apply Provenance.advanced_scrape_lines. }
    exists added. split; [exact Hadd|].
    eapply Forall_impl; [exact Hall|].
    intros a (link & r & Hlink & (Hl & Hn & Htot) & ->). cbn.
    split; [|split; assumption]. rewrite Hl. now apply Provenance.distinct_link_game.
Qed.

(** ** A weight that is no number *)

Module BadWeight.
Import Soup.

Definition cells : list string :=
  ["23"; "LeBron James"; "SF"; "6-9"; "n/a"; "December 30, 1984"; "us"; "21"; "none"].

Definition row : node := el "tr" [] (NoCollege.cell <$> cells).

Definition first_row : node :=
  el "tr" [] (NoCollege.cell
                <$> ["0"; "Jayson Tatum"; "SF"; "6-8"; "210"; "March 3, 1998"; "us"; "7"; "Duke"]).

End BadWeight.

(** X21. A roster row whose Wt cell holds a non-empty text that [float]
    rejects: the loop body of [scrape_bball_ref.py] coerces the weight before
    its duplicate check and raises ValueError whatever the table holds, so
    the loop over the rows of a page that contains such a row ends in an
    exception, before the team's commit; the
    loop body of [data-base-creator.py] coerces it only for the INSERT, so
    it raises ValueError for a player it does not find and skips a player it
    finds without reading the weight. *)
Theorem unreadable_weight (w : world) (team : string) (headers : list string)
    (row : Soup.node) (text : string) :
  Roster.row_texts row <> [] ->
  Roster.player_data headers (Roster.row_texts row) team !! "Wt" = Some text ->
  text <> "" ->
  float_of_str w text = None ->
  let d := Roster.player_data headers (Roster.row_texts row) team in
  (forall t, Roster.ingest_row_nine w team headers t row = Raise ValueError)
  /\ (forall t rs, row ∈ rs ->
        exists e, Roster.ingest_rows (Roster.ingest_row_nine w) team headers t rs = Raise e)
  /\ (forall t,
        Roster.ingest_row_four w team headers t row
        = if existsb (Roster.matches_four (d !! "Player") (d !! "Ht") (d !! "College")
                                          (d !! "Exp")) (Players.rows t)
          then Ok t else Raise ValueError).
Proof.
  intros Hcells Hwt Hne Hbad d.
  assert (Hnil : PyStr.is_nil (Roster.row_texts row) = false)
    by (destruct (Roster.row_texts row); [congruence | reflexivity]).
  assert (Hw : Roster.weight_of w d = Raise ValueError).
  { unfold Roster.weight_of. subst d. rewrite Hwt. unfold float_or_zero.
    destruct text; [congruence|]. cbn [PyStr.is_empty]. now rewrite Hbad. }
  assert (Hnine : forall t, Roster.ingest_row_nine w team headers t row = Raise ValueError).
  { intros t. unfold Roster.ingest_row_nine. rewrite Hnil. fold d. now rewrite Hw. }
  split; [exact Hnine|]. split.
  - intros t rs Hin. revert t. clear -Hnine Hin.
    induction Hin as [row rs | row other rs _ IH]; intros t; cbn [Roster.ingest_rows].
    + rewrite Hnine. eauto.
    + destruct (Roster.ingest_row_nine w team headers t other) as [t1|e];
        cbn [mbind result_bind]; [now apply IH | eauto].
  - intros t. unfold Roster.ingest_row_four. rewrite Hnil. fold d.
    destruct (existsb _ (Players.rows t)); [reflexivity|]. now rewrite Hw.
Qed.

Lemma unreadable_weight_witness :
  (forall t, Roster.ingest_row_nine Traded.site "LAL" Traded.headers t BadWeight.row
             = Raise ValueError)
  /\ (exists e, Roster.ingest_rows (Roster.ingest_row_nine Traded.site) "LAL" Traded.headers
                  Traded.cavaliers [BadWeight.first_row; BadWeight.row]
                = Raise e)
  /\ Roster.ingest_row_four Traded.site "LAL" Traded.headers Traded.cavaliers BadWeight.row
     = Ok Traded.cavaliers
  /\ Roster.ingest_row_four Traded.site "LAL" Traded.headers NoCollege.empty BadWeight.row
     = Raise ValueError.
Proof.
  pose proof (unreadable_weight Traded.site "LAL" Traded.headers BadWeight.row "n/a"
                ltac:(discriminate) ltac:(vm_compute; reflexivity) ltac:(discriminate)
                ltac:(reflexivity)) as (H9 & Hteam & H4).
  split; [exact H9|]. split; [|split].
  - apply Hteam. apply (list_elem_of_lookup_2 _ 1%nat). reflexivity.
  - rewrite H4. vm_compute. reflexivity.
  - rewrite H4. vm_compute. reflexivity.
Defined.

(** ** The statistics of the CSV pipeline ([data-collector.py]) *)

Module DataCollector.
Import Soup.






Section Scrape.
Variable w : world.


End Scrape.



End DataCollector.


(** ** When a second pass over a roster page inserts nothing *)

Module RosterRerun.
Import Players Roster RosterKeys.

(** [t'] holds the rows of [t], followed by others. *)
Definition prefix_of (t t' : table) : Prop := exists ext, rows t' = (rows t ++ ext)%list.

Lemma prefix_refl t : prefix_of t t.
Proof. exists []. now rewrite app_nil_r. Qed.

Lemma prefix_trans t1 t2 t3 : prefix_of t1 t2 -> prefix_of t2 t3 -> prefix_of t1 t3.
Proof. intros (a & Ha) (b & Hb). exists (a ++ b)%list. now rewrite Hb, Ha, app_assoc. Qed.

Lemma prefix_appended t nm c : prefix_of t (appended t nm c).
Proof. eexists. reflexivity. Qed.

Lemma existsb_prefix (p : player -> bool) t t' :
  prefix_of t t' -> existsb p (rows t) = true -> existsb p (rows t') = true.
Proof. intros (ext & ->) H. now rewrite existsb_app, H. Qed.

Section Variant.
Variable step : string -> list string -> table -> Soup.node -> result table.
Hypothesis step_fresh : appends_fresh step.

Lemma step_prefix team headers t row t' :
  step team headers t row = Ok t' -> prefix_of t t'.
Proof.
  intros H. apply step_fresh in H as [->|(c & nm & _ & _ & ->)];
    [apply prefix_refl | apply prefix_appended].
Qed.

Lemma ingest_rows_prefix team headers rs : forall t t',
  ingest_rows step team headers t rs = Ok t' -> prefix_of t t'.
Proof.
  induction rs as [|row rs IH]; intros t t' H; simpl in H.
  - injection H as <-. apply prefix_refl.
  - apply bind_Ok_inv in H as (t1 & H1 & H2).
    eapply prefix_trans; [eapply step_prefix; exact H1 | eapply IH; exact H2].
Qed.

(** A row that, once gone through, is skipped on every larger table. *)
Definition settles (team : string) (headers : list string) (row : Soup.node) : Prop :=
  forall t t1 t2, step team headers t row = Ok t1 -> prefix_of t1 t2 ->
                  step team headers t2 row = Ok t2.

Lemma ingest_rows_settled team headers rs :
  Forall (settles team headers) rs ->
  forall t t' t2,
    ingest_rows step team headers t rs = Ok t' -> prefix_of t' t2 ->
    ingest_rows step team headers t2 rs = Ok t2.
Proof.
  induction 1 as [|row rs Hrow _ IH]; intros t t' t2 H Hpre; simpl in *; [reflexivity|].
  apply bind_Ok_inv in H as (t1 & H1 & H2).
  assert (H12 : prefix_of t1 t2)
    by (eapply prefix_trans; [eapply ingest_rows_prefix; exact H2 | exact Hpre]).
  rewrite (Hrow _ _ _ H1 H12). cbn [mbind result_bind]. eapply IH; eassumption.
Qed.

End Variant.

(** The candidate of the row has its nine key values and a weight that
    equals itself (it is no NaN). *)
Definition matchable w (team : string) (headers : list string) (row : Soup.node) : Prop :=
  forall wt,
    weight_of w (player_data headers (row_texts row) team) = Ok wt ->
    complete (candidate_of (player_data headers (row_texts row) team) team wt)
    /\ PrimFloat.eqb wt wt = true.

(** The candidate of the row has a name, a height, a college and an
    experience. *)
Definition matchable_four (team : string) (headers : list string) (row : Soup.node) : Prop :=
  let d := player_data headers (row_texts row) team in
  is_Some (d !! "Player") /\ is_Some (d !! "Ht") /\ is_Some (d !! "College")
  /\ is_Some (d !! "Exp").

Lemma sql_eq_refl x : sql_eq (Some x) (Some x) = true.
Proof. apply String.eqb_refl. Qed.

Lemma matches_own_row c nm i :
  complete c -> c_name c = Some nm -> PrimFloat.eqb (c_weight c) (c_weight c) = true ->
  matches_nine c (new_row i nm c) = true.
Proof.
  intros (_ & [po Hp] & [ht Hh] & [bd Hb] & [bc Hc] & [ex He] & [co Ho]) Hn Hw.
  unfold matches_nine, new_row. cbn.
  rewrite Hn, Hp, Hh, Hb, Hc, He, Ho, Hw. cbn. now rewrite !String.eqb_refl.
Qed.

Lemma nine_settles w team headers row :
  matchable w team headers row -> settles (ingest_row_nine w) team headers row.
Proof.
  intros Hm t t1 t2 H Hpre. unfold ingest_row_nine in *.
  destruct (PyStr.is_nil (row_texts row)); [reflexivity|].
  apply bind_Ok_inv in H as (wt & Hwt & H). rewrite Hwt. cbn [mbind result_bind].
  destruct (Hm wt Hwt) as (Hc & Hself).
  set (c := candidate_of (player_data headers (row_texts row) team) team wt) in *.
  assert (Hin : existsb (matches_nine c) (rows t1) = true).
  { destruct (existsb (matches_nine c) (rows t)) eqn:E.
    - injection H as <-. exact E.
    - apply insert_player_appended in H as (nm & Hnm & ->). cbn.
      rewrite existsb_app. cbn. rewrite (matches_own_row c nm _ Hc Hnm Hself).
      now rewrite orb_true_r. }
  now rewrite (existsb_prefix _ _ _ Hpre Hin).
Qed.

Lemma four_settles w team headers row :
  matchable_four team headers row -> settles (ingest_row_four w) team headers row.
Proof.
  intros ([nm Hn] & [ht Hh] & [co Ho] & [ex He]) t t1 t2 H Hpre.
  unfold ingest_row_four in *.
  destruct (PyStr.is_nil (row_texts row)); [reflexivity|].
  set (d := player_data headers (row_texts row) team) in *.
  assert (Hin : existsb (matches_four (d !! "Player") (d !! "Ht") (d !! "College")
                                      (d !! "Exp")) (rows t1) = true).
  { destruct (existsb _ (rows t)) eqn:E.
    - injection H as <-. exact E.
    - apply bind_Ok_inv in H as (wt & _ & H).
      apply insert_player_appended in H as (nm' & Hnm & ->). cbn.
      rewrite existsb_app. cbn. unfold matches_four at 2. cbn.
      cbn in Hnm. rewrite Hnm, Hh, Ho, He. cbn. rewrite !String.eqb_refl.
      now rewrite orb_true_r. }
  now rewrite (existsb_prefix _ _ _ Hpre Hin).
Qed.

End RosterRerun.

(** X23. The loop over the rows of a roster page, run a second time on the
    table the first pass left (or on any table that starts with it), inserts
    nothing and raises nothing: in [scrape_bball_ref.py] when every row's
    candidate has its nine key values and a weight that is no NaN, in
    [data-base-creator.py] when every row has a name, a height, a college
    and an experience. *)
Theorem roster_second_pass_inserts_nothing (w : world) (team : string)
    (headers : list string) (rs : list Soup.node) :
  (Forall (RosterRerun.matchable w team headers) rs ->
   forall t t',
     Roster.ingest_rows (Roster.ingest_row_nine w) team headers t rs = Ok t' ->
     Roster.ingest_rows (Roster.ingest_row_nine w) team headers t' rs = Ok t')
  /\ (Forall (RosterRerun.matchable_four team headers) rs ->
      forall t t',
        Roster.ingest_rows (Roster.ingest_row_four w) team headers t rs = Ok t' ->
        Roster.ingest_rows (Roster.ingest_row_four w) team headers t' rs = Ok t').
Proof.
  split; intros Hall t t' H.
  - eapply (RosterRerun.ingest_rows_settled _ (RosterKeys.ingest_row_nine_fresh w));
      [|exact H | apply RosterRerun.prefix_refl].
    eapply Forall_impl; [exact Hall|]. intros row. apply RosterRerun.nine_settles.
  - eapply (RosterRerun.ingest_rows_settled _ (RosterKeys.ingest_row_four_fresh w));
      [|exact H | apply RosterRerun.prefix_refl].
    eapply Forall_impl; [exact Hall|]. intros row. apply RosterRerun.four_settles.
Qed.

Lemma roster_second_pass_inserts_nothing_witness :
  Roster.ingest_rows (Roster.ingest_row_nine Traded.site) "LAL" Traded.headers
    NoCollege.empty [Traded.lebron_row; Traded.lebron_row]
  = Ok {| Players.rows := [Traded.lebron 1 "LAL"]; Players.seq := 1 |}
  /\ Roster.ingest_rows (Roster.ingest_row_nine Traded.site) "LAL" Traded.headers
       {| Players.rows := [Traded.lebron 1 "LAL"]; Players.seq := 1 |}
       [Traded.lebron_row; Traded.lebron_row]
     = Ok {| Players.rows := [Traded.lebron 1 "LAL"]; Players.seq := 1 |}
  /\ Roster.ingest_rows (Roster.ingest_row_four Traded.site) "LAL" Traded.headers
       {| Players.rows := [Traded.lebron 1 "LAL"]; Players.seq := 1 |}
       [Traded.lebron_row; Traded.lebron_row]
     = Ok {| Players.rows := [Traded.lebron 1 "LAL"]; Players.seq := 1 |}.
Proof.
  assert (H9 : RosterRerun.matchable Traded.site "LAL" Traded.headers Traded.lebron_row).
  { intros wt Hwt. vm_compute in Hwt. injection Hwt as <-.
    split; [|vm_compute; reflexivity].
    split; [|split; [|split; [|split; [|split; [|split]]]]];
      vm_compute; eexists; reflexivity. }
  assert (H4 : RosterRerun.matchable_four "LAL" Traded.headers Traded.lebron_row).
  { split; [|split; [|split]]; vm_compute; eexists; reflexivity. }
  assert (Hfirst : Roster.ingest_rows (Roster.ingest_row_nine Traded.site) "LAL"
                     Traded.headers NoCollege.empty [Traded.lebron_row; Traded.lebron_row]
                   = Ok {| Players.rows := [Traded.lebron 1 "LAL"]; Players.seq := 1 |})
    by (vm_compute; reflexivity).
  assert (Hfour : Roster.ingest_rows (Roster.ingest_row_four Traded.site) "LAL"
                    Traded.headers NoCollege.empty [Traded.lebron_row; Traded.lebron_row]
                  = Ok {| Players.rows := [Traded.lebron 1 "LAL"]; Players.seq := 1 |})
    by (vm_compute; reflexivity).
  assert (Hall9 : Forall (RosterRerun.matchable Traded.site "LAL" Traded.headers)
                    [Traded.lebron_row; Traded.lebron_row])
    by (constructor; [exact H9 | constructor; [exact H9 | constructor]]).
  assert (Hall4 : Forall (RosterRerun.matchable_four "LAL" Traded.headers)
                    [Traded.lebron_row; Traded.lebron_row])
    by (constructor; [exact H4 | constructor; [exact H4 | constructor]]).
  split; [exact Hfirst|]. split.
  - exact (proj1 (roster_second_pass_inserts_nothing Traded.site "LAL" Traded.headers
                    [Traded.lebron_row; Traded.lebron_row]) Hall9 _ _ Hfirst).
  - exact (proj2 (roster_second_pass_inserts_nothing Traded.site "LAL" Traded.headers
                    [Traded.lebron_row; Traded.lebron_row]) Hall4 _ _ Hfour).
Defined.

(** ** A malformed numeric cell and the advanced driver *)

Module AdvErrors.
Import Soup AdvBoxScore AdvDriver.

Section Driver.
Variable w : world.

Ltac next_adv_stat :=
  match goal with
  | |- context [int_stat ?r ?k] =>
      let E := fresh "E" in
      destruct (int_stat r k) eqn:E; cbn [mbind result_bind];
      [| intros [= <-]; exact (BoxDriver.int_stat_error _ _ _ E)]
  | |- context [float_stat w ?r ?k] =>
      let E := fresh "E" in
      destruct (float_stat w r k) eqn:E; cbn [mbind result_bind];
      [| intros [= <-]; exact (BoxDriver.float_stat_error w _ _ _ E)]
  end.

Lemma adv_row_dict_error link team_name name row e :
  row_dict w link team_name name row = Raise e -> e = ValueError.
Proof. unfold row_dict. repeat next_adv_stat. discriminate. Qed.

Lemma adv_parse_rows_error link team_name rows e :
  parse_rows w link team_name rows = Raise e -> e = ValueError.
Proof.
  induction rows as [|row rows IH]; simpl; [discriminate|].
  destruct (parse_row w link team_name row) eqn:E; cbn [mbind result_bind].
  - destruct (parse_rows w link team_name rows); cbn [mbind result_bind];
      [discriminate|]. intros [= <-]. now apply IH.
  - intros [= <-]. rewrite adv_parse_row_retained in E.
    destruct (retained row); [|discriminate].
    destruct (player_text row) as [name|]; [|discriminate].
    destruct (row_dict w link team_name name row) eqn:E'; [discriminate|].
    injection E as <-. exact (adv_row_dict_error _ _ _ _ _ E').
Qed.

Lemma adv_parse_table_raises tbl link team_name row name :
  row ∈ BoxScore.body_rows tbl ->
  retained row = true ->
  player_text row = Some name ->
  row_dict w link team_name name row = Raise ValueError ->
  parse_advanced_box_score_table w tbl link team_name = Raise ValueError.
Proof.
  intros Hin Hret Hname Hraise. unfold parse_advanced_box_score_table.
  destruct (parse_rows w link team_name (BoxScore.body_rows tbl)) as [ds|e] eqn:E.
  - exfalso. apply adv_parse_rows_spec in E as (_ & _ & E).
    assert (Hrow : row ∈ List.filter retained (BoxScore.body_rows tbl)).
    { apply list_elem_of_In, filter_In. split; [now apply list_elem_of_In | exact Hret]. }
    apply list_elem_of_lookup in Hrow as (i & Hi).
    destruct (Forall2_lookup_r _ _ _ _ _ E Hi) as (d & _ & name' & Hname' & Hd).
    congruence.
  - f_equal. exact (adv_parse_rows_error _ _ _ _ E).
Qed.

Lemma adv_parse_tables_error link tbls e :
  parse_tables w link tbls = Raise e -> e = ValueError.
Proof.
  induction tbls as [|tbl tbls IH]; simpl; [discriminate|].
  destruct (parse_advanced_box_score_table w tbl link _) eqn:E; cbn [mbind result_bind].
  - destruct (parse_tables w link tbls); cbn [mbind result_bind]; [discriminate|].
    intros [= <-]. now apply IH.
  - intros [= <-]. exact (adv_parse_rows_error _ _ _ _ E).
Qed.

Lemma adv_parse_tables_raises link tbls tbl :
  tbl ∈ tbls ->
  parse_advanced_box_score_table w tbl link (BoxDriver.team_label " Advanced Stats" tbl)
  = Raise ValueError ->
  parse_tables w link tbls = Raise ValueError.
Proof.
  intros Hin Hraise.
  destruct (parse_tables w link tbls) as [rows|e] eqn:E;
    [|f_equal; exact (adv_parse_tables_error _ _ _ E)].
  exfalso. revert rows E. induction Hin as [tbl tbls | tbl other tbls _ IH];
    intros rows E; simpl in E.
  - rewrite Hraise in E. discriminate.
  - apply bind_Ok_inv in E as (r1 & _ & E). apply bind_Ok_inv in E as (r2 & E & _).
    eapply IH; eassumption.
Qed.

Lemma adv_process_links_stops pre : forall t t1 link post e,
  process_links w pre t = (t1, None) ->
  link <> "" ->
  scrape_single_box_score_advanced w link = Raise e ->
  process_links w (pre ++ link :: post) t = (t1, Some e).
Proof.
  induction pre as [|l pre IH]; intros t t1 link post e Hpre Hne Hraise; simpl in *.
  - injection Hpre as <-. destruct link; [congruence|]. simpl.
    change (scrape_single_box_score_advanced w (String a link) = Raise e) in Hraise.
    now rewrite Hraise.
  - destruct (PyStr.is_empty l); [now apply IH|].
    destruct (scrape_single_box_score_advanced w l) as [rows|]; [|discriminate].
    destruct (PyStr.is_nil rows); [now apply IH|].
    destruct (store_advanced_box_score_rows rows t); [now apply IH | discriminate].
Qed.

End Driver.

(** The text of the cell for [k] is rejected by the coercion of its field:
    [int] for the two ratings, [float] for the percentages. *)
Definition rejected (w : world) (k text : string) : Prop :=
  (In k (List.map fst int_fields) /\ PyStr.int_of_str text = None)
  \/ (In k (List.map fst float_fields) /\ float_of_str w text = None).

Lemma adv_rejected_cell_raises w row k cell link team name :
  stat_cell row k = Some cell ->
  get_text cell <> "" ->
  rejected w k (get_text cell) ->
  row_dict w link team name row = Raise ValueError.
Proof.
  intros Hcell Hne Hrej.
  assert (Hnonempty : PyStr.is_empty (get_text cell) = false)
    by (destruct (get_text cell); [congruence | reflexivity]).
  destruct (row_dict w link team name row) as [d|e] eqn:E;
    [|f_equal; exact (adv_row_dict_error _ _ _ _ _ _ E)].
  exfalso. apply adv_row_dict_fields in E as (_ & _ & _ & _ & _ & Hint & Hfl).
  rewrite List.Forall_forall in Hint, Hfl.
  destruct Hrej as [[Hk Hbad] | [Hk Hbad]];
    apply in_map_iff in Hk as ([k' p] & <- & Hin); simpl in Hcell.
  - specialize (Hint _ Hin). simpl in Hint.
    unfold int_stat, int_or_zero in Hint. rewrite Hcell, Hnonempty, Hbad in Hint.
    discriminate.
  - specialize (Hfl _ Hin). simpl in Hfl.
    unfold float_stat, float_or_zero in Hfl. rewrite Hcell, Hnonempty, Hbad in Hfl.
    discriminate.
Qed.

(** A page whose advanced table holds a rating with a decimal point. *)
Definition bad_table : node :=
  el "table" [("id", "box-BOS-game-advanced")]
    [el "tbody" []
       [el "tr" [] [el "th" [("data-stat", "player")] [Text "Jayson Tatum"];
                    td "ts_pct" ".500"; td "off_rtg" "112.5"]]].

Definition bad_row : node :=
  el "tr" [] [el "th" [("data-stat", "player")] [Text "Jayson Tatum"];
              td "ts_pct" ".500"; td "off_rtg" "112.5"].

Definition site : world :=
  {| http_get := fun url =>
       if String.eqb url AdvGame.link then Some "celtics"
       else if String.eqb url TwoGames.lakers_link then Some "lakers" else None;
     html_parser := fun text =>
       Elem "[document]" []
         [if String.eqb text "celtics" then AdvGame.table else bad_table];
     float_of_str := Demo.demo_float |}.

End AdvErrors.

(** X24. When a retained row of an advanced box-score table has a numeric
    cell whose non-empty text the field's coercion rejects ([int] for the two
    ratings, [float] for the percentages), building the row raises
    ValueError; nothing catches it, so [scrape_single_box_score_advanced]
    raises for that link and the advanced driver ends there with the
    exception: the table is as the links before it left it, and neither this
    link nor any later one is stored. *)
Theorem non_numeric_advanced_cell_stops_driver (w : world)
    (games : list GameLogs.gamelog) (t t1 : list AdvBoxScore.adv_row)
    (pre post : list string) (link page : string) (tbl row cell : Soup.node) (k : string) :
  BoxDriver.distinct_links games = (pre ++ link :: post)%list ->
  AdvDriver.process_links w pre t = (t1, None) ->
  link <> "" ->
  http_get w link = Some page ->
  tbl ∈ Locator.advanced_tables (html_parser w page) ->
  row ∈ BoxScore.body_rows tbl ->
  AdvBoxScore.retained row = true ->
  stat_cell row k = Some cell ->
  Soup.get_text cell <> "" ->
  AdvErrors.rejected w k (Soup.get_text cell) ->
  AdvDriver.scrape_single_box_score_advanced w link = Raise ValueError
  /\ AdvDriver.scrape_advanced_box_scores_for_all_games w games t = (t1, Some ValueError).
Proof.
  intros Hlinks Hpre Hlink Hget Htbl Hrow Hret Hcell Hne Hrej.
  assert (Hsingle : AdvDriver.scrape_single_box_score_advanced w link = Raise ValueError).
  { unfold AdvDriver.scrape_single_box_score_advanced.
    destruct link; [congruence|]. simpl PyStr.is_empty. cbv iota. rewrite Hget.
    destruct (AdvBoxScore.adv_retained_name _ Hret) as (name & Hname & _).
    eapply AdvErrors.adv_parse_tables_raises; [exact Htbl|].
    eapply AdvErrors.adv_parse_table_raises; eauto.
    eapply AdvErrors.adv_rejected_cell_raises; eassumption. }
  split; [exact Hsingle|].
  unfold AdvDriver.scrape_advanced_box_scores_for_all_games. rewrite Hlinks.
  now apply AdvErrors.adv_process_links_stops.
Qed.

Lemma non_numeric_advanced_cell_stops_driver_witness :
  AdvDriver.scrape_single_box_score_advanced AdvErrors.site TwoGames.lakers_link
  = Raise ValueError
  /\ AdvDriver.scrape_advanced_box_scores_for_all_games AdvErrors.site
       [TwoGames.game AdvGame.link; TwoGames.game TwoGames.lakers_link] []
     = ([AdvGame.tatum], Some ValueError).
Proof.
  apply (non_numeric_advanced_cell_stops_driver AdvErrors.site
           [TwoGames.game AdvGame.link; TwoGames.game TwoGames.lakers_link]
           [] [AdvGame.tatum] [AdvGame.link] [] TwoGames.lakers_link "lakers"
           AdvErrors.bad_table AdvErrors.bad_row (Soup.td "off_rtg" "112.5") "off_rtg").
  - vm_compute. reflexivity.
  - vm_compute. reflexivity.
  - discriminate.
  - reflexivity.
  - apply (list_elem_of_lookup_2 _ 0%nat). reflexivity.
  - apply (list_elem_of_lookup_2 _ 0%nat). reflexivity.
  - reflexivity.
  - reflexivity.
  - discriminate.
  - left. split; [simpl; auto | reflexivity].
Defined.
